(** * envy: the adaptive dependency-resolution retry loop of [envy.py]

    A shallow embedding of [src/envy.py]: the process runner
    [run_app_in_venv], the failure classifier [find_missing_modules], the
    dependency resolver [handle_missing_dependencies] with [is_local_module]
    and [install_single_dependency], the retry loop [run_application], the
    commands on the environment, and [main].

    Modelling conventions.
    - A text is a [string] that holds the UTF-8 encoding of the Python [str].
      The regex class [\w] works on its characters and asks the Unicode
      database, a parameter of the model, about every character that is not
      ASCII. [str.lower] is the ASCII one: the keys of the two tables are
      pure ASCII, and no character that is not ASCII lower-cases to a string
      that is one of them.
    - The dictionary [MODULE_PACKAGE_MAP] and [os.environ] are [gmap]s, the set
      [SECONDARY_MODULES] is a [gset].
    - Everything outside the interpreter (spawning the target, pip, the file
      system beside the target) is an oracle on an abstract [world]; every
      call to it is recorded in a trace of events. An oracle always answers:
      the model describes the executions in which every program that is
      started comes to an end. The code sets no timeout, so a program that
      never ends blocks the launcher for ever; such executions have no
      counterpart here.
    - Python exceptions are explicit: a computation yields [Return a] or
      [Raise e]; [SystemExit] is not an [Exception], so [except Exception]
      does not catch it.
    - Calls to [logging] are not modelled. *)

From Stdlib Require Import ZArith NArith Lia List Ascii String Bool.
From stdpp Require Import base option list strings gmap.

Local Open Scope string_scope.
Local Open Scope list_scope.

(* ===================================================================== *)
(** ** Text: characters, lower-casing, character classes, substring test *)
(* ===================================================================== *)

(** The Unicode database as far as the classifier needs it: [str.isalnum]
    of the character with a given code point. It is asked about code points
    above 127 only. *)
Class Unicode : Type := {
  isalnum : N -> bool
}.

Module Text.

Definition is_upper (c : ascii) : bool :=
  let n := nat_of_ascii c in (65 <=? n)%nat && (n <=? 90)%nat.

Definition is_lower (c : ascii) : bool :=
  let n := nat_of_ascii c in (97 <=? n)%nat && (n <=? 122)%nat.

Definition is_digit (c : ascii) : bool :=
  let n := nat_of_ascii c in (48 <=? n)%nat && (n <=? 57)%nat.

(** The ASCII characters of the class [[\w\d_]]. *)
Definition is_ascii_word (c : ascii) : bool :=
  is_upper c || is_lower c || is_digit c || Ascii.eqb c "_"%char.

(** A character of a text: the bytes of its UTF-8 encoding. *)
Definition character : Type := list ascii.

(** The number of bytes of the character whose first byte is [c]. *)
Definition width (c : ascii) : nat :=
  let n := nat_of_ascii c in
  if (n <? 192)%nat then 1
  else if (n <? 224)%nat then 2
  else if (n <? 240)%nat then 3
  else 4.

(** Put [c] in front of the first character of [characters]. *)
Definition cons_first (c : ascii) (characters : list character) : list character :=
  match characters with
  | ch :: rest => (c :: ch) :: rest
  | [] => [[c]]
  end.

(** The characters of a text, [pending] bytes of which still belong to the
    character begun before. *)
Fixpoint chars_from (pending : nat) (s : list ascii) : list character :=
  match s with
  | [] => []
  | c :: s' =>
      let pending' := match pending with
                      | 0 => width c - 1
                      | S k => k
                      end in
      match pending' with
      | 0 => [c] :: chars_from 0 s'
      | S _ => cons_first c (chars_from pending' s')
      end
  end.

(** The [str] a text stands for, as the sequence of its characters. *)
Definition chars (s : string) : list character :=
  chars_from 0 (list_ascii_of_string s).

(** The string made of a sequence of characters. *)
Definition of_chars (characters : list character) : string :=
  string_of_list_ascii (concat characters).

(** The character that is the ASCII character [c]. *)
Definition single (c : ascii) : character := [c].

Definition is_continuation (c : ascii) : bool :=
  let n := nat_of_ascii c in (128 <=? n)%nat && (n <? 192)%nat.

(** The code point of a character. *)
Definition code_point (ch : character) : N :=
  let b (c : ascii) (m : N) : N := (N_of_ascii c mod m)%N in
  match ch with
  | [] => 0
  | [c0] => N_of_ascii c0
  | [c0; c1] => b c0 32 * 64 + b c1 64
  | [c0; c1; c2] => (b c0 16 * 64 + b c1 64) * 64 + b c2 64
  | c0 :: c1 :: c2 :: c3 :: _ => ((b c0 8 * 64 + b c1 64) * 64 + b c2 64) * 64 + b c3 64
  end%N.

(** The class [[\w\d_]] of [re] on [str]: an ASCII letter or digit or the
    underscore, or a character beyond ASCII, encoded in a first byte and
    continuation bytes, that is alphanumeric. *)
Definition is_word `{Unicode} (ch : character) : bool :=
  match ch with
  | [] => false
  | [c] => (nat_of_ascii c <? 128)%nat && is_ascii_word c
  | c :: continuation =>
      (192 <=? nat_of_ascii c)%nat && forallb is_continuation continuation &&
      isalnum (code_point ch)
  end.

(** The class of the two quote characters, single (39) and double (34). *)
Definition is_quote (ch : character) : bool :=
  match ch with
  | [c] => (nat_of_ascii c =? 39)%nat || (nat_of_ascii c =? 34)%nat
  | _ => false
  end.

Definition lower_char (c : ascii) : ascii :=
  if is_upper c then ascii_of_nat (nat_of_ascii c + 32) else c.

(** [str.lower()], as far as the launcher uses it: the result is only
    compared with names made of ASCII letters and the underscore, none of
    which has the letter k, the one ASCII letter that a character beyond
    ASCII lower-cases to; so only the ASCII letters are changed here. *)
Fixpoint lower (s : string) : string :=
  match s with
  | EmptyString => EmptyString
  | String c s' => String (lower_char c) (lower s')
  end.

Fixpoint starts_with (p s : list ascii) : bool :=
  match p, s with
  | [], _ => true
  | _ :: _, [] => false
  | a :: p', b :: s' => Ascii.eqb a b && starts_with p' s'
  end.

(** [needle in hay] on strings. *)
Fixpoint contains (needle hay : list ascii) : bool :=
  starts_with needle hay ||
  match hay with
  | [] => false
  | _ :: hay' => contains needle hay'
  end.

Definition str_in (needle hay : string) : bool :=
  contains (list_ascii_of_string needle) (list_ascii_of_string hay).

(** The line feed. *)
Definition newline : string := String (ascii_of_nat 10) EmptyString.

End Text.

(* ===================================================================== *)
(** ** The fragment of [re] used by the classifier *)
(* ===================================================================== *)

Module Re.

(** A pattern is a sequence of atoms: a literal ASCII character, a character
    class, or the capturing group [(C+)] over a class [C]. It is matched
    against the characters of a text. *)
Inductive atom : Type :=
| Lit (c : ascii)
| Class (p : Text.character -> bool)
| Group (p : Text.character -> bool).

Definition pattern := list atom.

Definition literal (s : string) : pattern :=
  map Lit (list_ascii_of_string s).

(** Length of the longest prefix of [s] made of [p]-characters. *)
Fixpoint run_length (p : Text.character -> bool) (s : list Text.character) : nat :=
  match s with
  | ch :: s' => if p ch then S (run_length p s') else 0
  | [] => 0
  end.

(** [match_at re s]: match [re] at the start of [s]; yields the characters
    of the group and the number of characters consumed. The group is greedy
    and backtracks: it first takes the longest run, then shorter ones. *)
Fixpoint match_at (re : pattern) (s : list Text.character)
    : option (list Text.character * nat) :=
  match re with
  | [] => Some ([], 0)
  | Lit c :: re' =>
      match s with
      | x :: s' =>
          if bool_decide (x = Text.single c)
          then match match_at re' s' with
               | Some (cap, n) => Some (cap, S n)
               | None => None
               end
          else None
      | [] => None
      end
  | Class p :: re' =>
      match s with
      | x :: s' =>
          if p x
          then match match_at re' s' with
               | Some (cap, n) => Some (cap, S n)
               | None => None
               end
          else None
      | [] => None
      end
  | Group p :: re' =>
      (fix try (k : nat) : option (list Text.character * nat) :=
         match k with
         | 0 => None
         | S k' =>
             match match_at re' (drop k s) with
             | Some (_, n) => Some (take k s, k + n)
             | None => try k'
             end
         end) (run_length p s)
  end.

(** [re.findall] for a pattern with one group: scan from the left; after a
    match resume behind it, otherwise move one character on. [skip] is the
    number of characters still covered by the previous match. *)
Fixpoint scan (re : pattern) (skip : nat) (s : list Text.character) : list string :=
  match skip with
  | S k =>
      match s with
      | [] => []
      | _ :: s' => scan re k s'
      end
  | 0 =>
      match match_at re s with
      | Some (cap, n) =>
          Text.of_chars cap ::
          match s with
          | [] => []
          | _ :: s' => scan re (pred n) s'
          end
      | None =>
          match s with
          | [] => []
          | _ :: s' => scan re 0 s'
          end
      end
  end.

Definition findall (re : pattern) (s : string) : list string :=
  scan re 0 (Text.chars s).

End Re.

(* ===================================================================== *)
(** ** Constants and the failure classifier *)
(* ===================================================================== *)

(** [MODULE_PACKAGE_MAP] *)
Definition MODULE_PACKAGE_MAP : gmap string string :=
  <["pil" := "Pillow"]> (<["qtawesome" := "qtawesome"]>
    (<["qt_material" := "qt-material"]> ∅)).

(** [SECONDARY_MODULES] *)
Definition SECONDARY_MODULES : gset string :=
  {["qtawesome"]} ∪ {["qt_material"]}.

Section Classifier.

Context {unicode : Unicode}.

(** The shape of both patterns: the text [prefix], a quote, the group of one
    or more word characters, a quote. *)
Definition quoted_group (prefix : string) : Re.pattern :=
  Re.literal prefix ++
  [Re.Class Text.is_quote; Re.Group Text.is_word; Re.Class Text.is_quote].

(** The first pattern: the text [No module named ], a quote, the group
    of one or more word characters, a quote. *)
Definition NO_MODULE_RE : Re.pattern :=
  quoted_group "No module named ".

(** The second pattern: the text [ImportError: cannot import name ], a
    quote, the group of one or more word characters, a quote. *)
Definition CANNOT_IMPORT_RE : Re.pattern :=
  quoted_group "ImportError: cannot import name ".

Definition QT_BINDINGS_SIGNATURE : string :=
  "qtpy.QtBindingsNotFoundError: No Qt bindings could be found".

(** [find_missing_modules]: the list [missing_modules] is built by an
    assignment, an in-place [+=] and a conditional [append]. *)
Definition find_missing_modules (error_message : string) : list string :=
  let missing_modules := Re.findall NO_MODULE_RE error_message in
  let missing_modules := missing_modules ++ Re.findall CANNOT_IMPORT_RE error_message in
  let missing_modules :=
    if Text.str_in QT_BINDINGS_SIGNATURE error_message
    then missing_modules ++ ["PyQt5"]
    else missing_modules in
  missing_modules.

(** The characters [s] begin with an occurrence of a pattern: the text
    [prefix], a quote, the characters [cap], which are one or more word
    characters, and a quote; the occurrence is [n] characters long. *)
Definition quoted_at (prefix : string) (s cap : list Text.character) (n : nat) : Prop :=
  exists q1 q2 rest,
    s = map Text.single (list_ascii_of_string prefix) ++ q1 :: cap ++ q2 :: rest /\
    Text.is_quote q1 = true /\ Text.is_quote q2 = true /\
    cap <> [] /\ Forall (fun ch => Text.is_word ch = true) cap /\
    n = String.length prefix + length cap + 2.

(** What the specification asks of one pattern: [l] holds the identifiers of
    all occurrences of the pattern in [s], from left to right, an occurrence
    being looked for behind the end of the one before; nothing is left out
    and nothing is merged. *)
Inductive captures (prefix : string) : list Text.character -> list string -> Prop :=
| captures_none s :
    (forall i cap n, ~ quoted_at prefix (drop i s) cap n) ->
    captures prefix s []
| captures_next s i cap n l :
    quoted_at prefix (drop i s) cap n ->
    (forall j cap' n', j < i -> ~ quoted_at prefix (drop j s) cap' n') ->
    captures prefix (drop (i + n) s) l ->
    captures prefix s (Text.of_chars cap :: l).

(** [x] is a word: one or more word characters. *)
Definition is_identifier (x : string) : Prop :=
  exists cap, x = Text.of_chars cap /\ cap <> [] /\
              Forall (fun ch => Text.is_word ch = true) cap.

End Classifier.

(* ===================================================================== *)
(** ** Python control flow: exceptions, results, traces *)
(* ===================================================================== *)

(** The exceptions the launcher can see. [OSError] is the
    [FileNotFoundError] of a program or a file that is not there;
    [OtherOSError] is every other [OSError]: the [PermissionError] of a
    program that may not be executed, the error of a path that cannot be
    examined (a name that is too long, a directory that may not be read).
    [ValueError] and [OverflowError] are those of [time.sleep];
    [UnicodeDecodeError] is that of an output read with [text=True] that is
    not valid text. *)
Inductive exn : Type :=
| CalledProcessError (returncode : Z)
| OSError
| OtherOSError
| ValueError
| OverflowError
| UnicodeDecodeError
| SystemExit (code : Z).

(** [except Exception]: everything but [SystemExit]. *)
Definition is_Exception (e : exn) : bool :=
  match e with
  | SystemExit _ => false
  | _ => true
  end.

(** [except subprocess.CalledProcessError] (and [subprocess.SubprocessError],
    of which it is the only subclass raised here). *)
Definition is_CalledProcessError (e : exn) : bool :=
  match e with
  | CalledProcessError _ => true
  | _ => false
  end.

Inductive result (A : Type) : Type :=
| Return (a : A)
| Raise (e : exn).
Arguments Return {A} a.
Arguments Raise {A} e.

#[global] Instance exn_eq_dec : EqDecision exn.
Proof. solve_decision. Defined.

#[global] Instance result_eq_dec {A : Type} `{EqDecision A} : EqDecision (result A).
Proof. solve_decision. Defined.

(** What the operating system answers to a request to run a program: the
    program is not there; it is there and cannot be started; it ran, and
    what it wrote to the captured stream is the text [stderr]; it ran, and
    what it wrote there is not valid text. *)
Inductive completed : Type :=
| NotStarted
| NotPermitted
| Completed (returncode : Z) (stderr : string)
| Undecodable (returncode : Z).

(** What a call that captures nothing learns: the exit status, or the
    exception of the start. *)
Definition returncode_of (c : completed) : result Z :=
  match c with
  | NotStarted => Raise OSError
  | NotPermitted => Raise OtherOSError
  | Completed rc _ => Return rc
  | Undecodable rc => Return rc
  end.

(** What a call that captures a stream with [text=True] learns: the exit
    status and the text, or an exception; the stream is decoded before the
    exit status is looked at. *)
Definition captured_of (c : completed) : result (Z * string) :=
  match c with
  | NotStarted => Raise OSError
  | NotPermitted => Raise OtherOSError
  | Completed rc text => Return (rc, text)
  | Undecodable _ => Raise UnicodeDecodeError
  end.

(** Observable actions. [EvRun argv env piped] is an execution of the target
    ([piped]: standard error is captured); [EvPip argv] a call of pip. *)
Inductive event : Type :=
| EvRun (argv : list string) (env : gmap string string) (piped : bool)
| EvPip (argv : list string)
| EvSleep (seconds : Z).

Definition is_run (e : event) : bool :=
  match e with EvRun _ _ _ => true | _ => false end.

Definition is_primary_run (e : event) : bool :=
  match e with EvRun _ _ false => true | _ => false end.

Definition is_diagnostic_run (e : event) : bool :=
  match e with EvRun _ _ true => true | _ => false end.

Definition is_sleep (e : event) : bool :=
  match e with EvSleep _ => true | _ => false end.

Definition is_pip (e : event) : bool :=
  match e with EvPip _ => true | _ => false end.

Definition count (f : event -> bool) (t : list event) : nat :=
  length (filter (fun e => f e = true) t).

(** The package named by a pip call [[pip; install; package]]. *)
Definition pip_package (e : event) : option string :=
  match e with
  | EvPip [_; _; package] => Some package
  | _ => None
  end.

(** The packages handed to the installer, in order. *)
Definition installed (t : list event) : list string :=
  omap pip_package t.

(** The process exit status after the [__main__] block: normal return is 0,
    [SystemExit c] is [c], any other exception is turned into [sys.exit(1)]. *)
Definition process_exit_status {A} (r : result A) : Z :=
  match r with
  | Return _ => 0
  | Raise (SystemExit c) => c
  | Raise _ => 1
  end.

Definition max_attempts : nat := 12.

(** The longest sleep, in seconds, whose length in nanoseconds fits in 64
    bits. *)
Definition SLEEP_MAX : Z := 9223372036.

(* ===================================================================== *)
(** ** The core, over an arbitrary outside world *)
(* ===================================================================== *)

(** The world outside the interpreter and what it answers. *)
Class Host : Type := {
  (** the Unicode database of the interpreter *)
  host_unicode :: Unicode;
  (** the state of the machine the launcher runs on *)
  world : Type;
  (** running the target: argument vector, environment, whether standard
      error is captured *)
  os_run_target : list string -> gmap string string -> bool -> world -> completed * world;
  (** running pip with an argument vector *)
  os_run_pip : list string -> world -> completed * world;
  (** [time.sleep] lets the world move on *)
  os_sleep : Z -> world -> world;
  (** [Path.exists] for the files beside the target; [None] when the path
      cannot be examined and [exists] raises an [OSError] (a name that is
      too long, a directory that may not be read); the launcher never writes
      there, so the answer is fixed during a run *)
  path_exists : string -> option bool;
  (** [os.name] and [os.environ] *)
  os_name : string;
  os_environ : gmap string string;
  (** [pathlib]: the operator [/] and [.parent], on paths written as strings *)
  path_join : string -> string -> string;
  path_parent : string -> string
}.

Section Core.

Context {host : Host}.

(** A computation reads and changes the world, emits events, and returns or
    raises. *)
Definition M (A : Type) : Type := world -> result A * world * list event.

Definition ret {A} (a : A) : M A := fun w => (Return a, w, []).

Definition raise {A} (e : exn) : M A := fun w => (Raise e, w, []).

Definition bind {A B} (m : M A) (f : A -> M B) : M B :=
  fun w =>
    let '(r, w1, t1) := m w in
    match r with
    | Return a => let '(r2, w2, t2) := f a w1 in (r2, w2, t1 ++ t2)
    | Raise e => (Raise e, w1, t1)
    end.

Notation "x <- m ;; k" := (bind m (fun x => k))
  (at level 100, m at next level, right associativity).
Notation "m ;;; k" := (bind m (fun _ => k))
  (at level 100, right associativity).

(** [try: body except ...: handler]; [handler e = None] when no clause
    matches [e]. *)
Definition try_except {A} (body : M A) (handler : exn -> option (M A)) : M A :=
  fun w =>
    let '(r, w1, t1) := body w in
    match r with
    | Return a => (Return a, w1, t1)
    | Raise e =>
        match handler e with
        | Some h => let '(r2, w2, t2) := h w1 in (r2, w2, t1 ++ t2)
        | None => (Raise e, w1, t1)
        end
    end.

(** [for x in l: body x] *)
Fixpoint for_each {A} (l : list A) (body : A -> M unit) : M unit :=
  match l with
  | [] => ret tt
  | x :: l' => body x ;;; for_each l' body
  end.

(** [sys.exit(code)] *)
Definition sys_exit {A} (code : Z) : M A := raise (SystemExit code).

(** A computation that touches nothing. *)
Definition pure {A} (r : result A) : M A := fun w => (r, w, []).

(** The exception of [time.sleep(seconds)] for an [int]: the length is
    first turned into nanoseconds in 64 bits, which overflows beyond
    [SLEEP_MAX] seconds in either direction; then a negative length is a
    [ValueError]. *)
Definition sleep_error (seconds : Z) : option exn :=
  if (SLEEP_MAX <? Z.abs seconds)%Z then Some OverflowError
  else if (seconds <? 0)%Z then Some ValueError
  else None.

(** [time.sleep(seconds)] *)
Definition time_sleep (seconds : Z) : M unit :=
  fun w =>
    match sleep_error seconds with
    | Some e => (Raise e, w, [])
    | None => (Return tt, os_sleep seconds w, [EvSleep seconds])
    end.

(** The result of [subprocess.check_call] for an answer of the operating
    system. *)
Definition checked (c : completed) : result Z :=
  match returncode_of c with
  | Return rc => if (rc =? 0)%Z then Return 0%Z else Raise (CalledProcessError rc)
  | Raise e => Raise e
  end.

(** [subprocess.check_call(argv, env=env)] on the target. *)
Definition check_call_target (argv : list string) (env : gmap string string) : M Z :=
  fun w =>
    let '(c, w1) := os_run_target argv env false w in
    (checked c, w1, [EvRun argv env false]).

(** [subprocess.run(argv, stderr=subprocess.PIPE, text=True)] on the target:
    no [env] argument, so the child inherits [os.environ]. *)
Definition run_target_piped (argv : list string) : M (Z * string) :=
  fun w =>
    let '(c, w1) := os_run_target argv os_environ true w in
    (captured_of c, w1, [EvRun argv os_environ true]).

(** [subprocess.check_call(argv)] on pip. *)
Definition check_call_pip (argv : list string) : M Z :=
  fun w =>
    let '(c, w1) := os_run_pip argv w in
    (checked c, w1, [EvPip argv]).

Definition bin_dir : string :=
  if String.eqb os_name "nt" then "Scripts" else "bin".

(** [os.pathsep] *)
Definition os_pathsep : string :=
  if String.eqb os_name "nt" then ";" else ":".

(** The environment [run_app_in_venv] builds: a copy of [os.environ] with the
    directory of the target put in front of [PYTHONPATH]. *)
Definition app_environ (app_path : string) : gmap string string :=
  let app_dir := path_parent app_path in
  let env := os_environ in
  let existing_pythonpath := default "" (env !! "PYTHONPATH") in
  <["PYTHONPATH" :=
      if String.eqb existing_pythonpath "" then app_dir
      else app_dir +:+ os_pathsep +:+ existing_pythonpath]> env.

(** [run_app_in_venv] *)
Definition run_app_in_venv (venv_path app_path : string) (app_args : list string) : M bool :=
  let python_executable := path_join (path_join venv_path bin_dir) "python" in
  try_except
    (let env := app_environ app_path in
     check_call_target ([python_executable; app_path] ++ app_args) env ;;;
     ret true)
    (fun e =>
       if is_CalledProcessError e then Some (ret false)
       else if is_Exception e then Some (ret false)
       else None).

(** [install_single_dependency] *)
Definition install_single_dependency (venv_path package : string) : M unit :=
  let pip_executable := path_join (path_join venv_path bin_dir) "pip" in
  try_except
    (check_call_pip [pip_executable; "install"; package] ;;; ret tt)
    (fun e => if is_CalledProcessError e then Some (sys_exit 1) else None).

(** [path.exists()] beside the target *)
Definition exists_ (path : string) : result bool :=
  match path_exists path with
  | Some b => Return b
  | None => Raise OtherOSError
  end.

(** [is_local_module]: the second test is made only when the first one
    answers [False]; each of them can raise. *)
Definition is_local_module (venv_path app_path module : string) : result bool :=
  let app_dir := path_parent app_path in
  let local_module := path_join app_dir (module +:+ ".py") in
  let local_package_init := path_join (path_join app_dir module) "__init__.py" in
  match exists_ local_module with
  | Raise e => Raise e
  | Return true => Return true
  | Return false =>
      match exists_ local_package_init with
      | Raise e => Raise e
      | Return true => Return true
      | Return false => Return false
      end
  end.

(** [MODULE_PACKAGE_MAP.get(module.lower(), module)] *)
Definition package_for (module : string) : string :=
  default module (MODULE_PACKAGE_MAP !! Text.lower module).

(** [module.lower() in SECONDARY_MODULES] *)
Definition is_secondary (module : string) : bool :=
  bool_decide (Text.lower module ∈ SECONDARY_MODULES).

(** The body of both installation loops of [handle_missing_dependencies]. *)
Definition install_module (venv_path app_path module : string) : M unit :=
  is_local <- pure (is_local_module venv_path app_path module) ;;
  if is_local then ret tt
  else
    let package := package_for module in
    install_single_dependency venv_path package.

(** [handle_missing_dependencies]. The body of the [try] yields [Some b] when
    it executes [return b] and [None] when it falls through to the final
    [return False]. [force_install] is accepted and never read. *)
Definition handle_missing_dependencies
    (venv_path app_path : string) (app_args : list string) (force_install : bool) : M bool :=
  let python_executable := path_join (path_join venv_path bin_dir) "python" in
  returned <-
    try_except
      (result <- run_target_piped ([python_executable; app_path] ++ app_args) ;;
       let '(returncode, stderr) := result in
       if negb (returncode =? 0)%Z then
         let error_message := stderr in
         let missing_modules := find_missing_modules error_message in
         if negb (bool_decide (missing_modules = [])) then
           let primary_modules := filter (fun m => is_secondary m = false) missing_modules in
           let secondary_modules_detected := filter (fun m => is_secondary m = true) missing_modules in
           for_each primary_modules (install_module venv_path app_path) ;;;
           for_each secondary_modules_detected (install_module venv_path app_path) ;;;
           ret (Some true)
         else
           if Text.str_in QT_BINDINGS_SIGNATURE error_message then
             install_single_dependency venv_path "PyQt5" ;;;
             ret (Some true)
           else ret None
       else ret None)
      (fun e =>
         if is_CalledProcessError e then Some (ret None)
         else if is_Exception e then Some (ret None)
         else None) ;;
  match returned with
  | Some b => ret b
  | None => ret false
  end.

(** How one iteration of the [while] loop ends. *)
Inductive loop_exit : Type :=
| Returned
| NextIteration.

(** The body of the [while] loop of [run_application]. *)
Definition attempt_body
    (venv_path app_path : string) (app_args : list string)
    (force_install : bool) (delay_seconds : Z) (attempt : nat) : M loop_exit :=
  success <- run_app_in_venv venv_path app_path app_args ;;
  if success then ret Returned
  else
    (if (attempt <? max_attempts)%nat then
       dependencies_resolved <-
         handle_missing_dependencies venv_path app_path app_args force_install ;;
       (if dependencies_resolved then ret tt else sys_exit 1) ;;;
       time_sleep delay_seconds
     else ret tt) ;;;
    ret NextIteration.

(** [while attempt <= max_attempts: ...; attempt += 1], then [sys.exit(1)].
    [None] only when [fuel] iterations were not enough. *)
Fixpoint while_attempts
    (fuel : nat) (venv_path app_path : string) (app_args : list string)
    (force_install : bool) (delay_seconds : Z) (attempt : nat) (w : world)
    : option (result unit * world * list event) :=
  match fuel with
  | 0 => None
  | S fuel' =>
      if (attempt <=? max_attempts)%nat then
        let '(r, w1, t1) :=
          attempt_body venv_path app_path app_args force_install delay_seconds attempt w in
        match r with
        | Raise e => Some (Raise e, w1, t1)
        | Return Returned => Some (Return tt, w1, t1)
        | Return NextIteration =>
            match while_attempts fuel' venv_path app_path app_args
                    force_install delay_seconds (attempt + 1)%nat w1 with
            | Some (r2, w2, t2) => Some (r2, w2, t1 ++ t2)
            | None => None
            end
        end
      else Some (sys_exit 1 w)
  end.

(** [run_application]: the loop starts at [attempt = 1]. *)
Definition run_application
    (venv_path app_path : string) (app_args : list string)
    (force_install : bool) (delay_seconds : Z) (w : world)
    : option (result unit * world * list event) :=
  while_attempts (S max_attempts) venv_path app_path app_args
    force_install delay_seconds 1 w.

(** [threading.Thread(target=...)], [start()] and [join()]: an exception that
    leaves the target, [SystemExit] included, ends that thread only; [join]
    returns normally in the starting thread. *)
Definition thread_start_join {A}
    (target : world -> option (result A * world * list event)) (w : world)
    : option (result unit * world * list event) :=
  match target w with
  | Some (_, w1, t1) => Some (Return tt, w1, t1)
  | None => None
  end.

(** The branch of [main] that launches the application ([-a] given, neither
    [--delete] nor [--unpip]). [setup] is all that [main] does before it
    starts the thread: argument handling, [check_pipreqs_installed],
    [ensure_venv], [install_dependencies]. *)
Definition main
    (setup : M unit)
    (venv_path app_path : string) (app_args : list string)
    (force_install : bool) (delay_seconds : Z) (w : world)
    : option (result unit * world * list event) :=
  let '(r, w1, t1) := setup w in
  match r with
  | Raise e => Some (Raise e, w1, t1)
  | Return _ =>
      match thread_start_join
              (run_application venv_path app_path app_args force_install delay_seconds) w1 with
      | Some (r2, w2, t2) => Some (r2, w2, t1 ++ t2)
      | None => None
      end
  end.

End Core.

(* ===================================================================== *)
(** ** Notions used to state the properties *)
(* ===================================================================== *)

Section Derived.

Context {host : Host}.
Variables (venv_path app_path : string) (app_args : list string).

(** The argument vector both executions of the target use. *)
Definition target_argv : list string :=
  [path_join (path_join venv_path bin_dir) "python"; app_path] ++ app_args.

(** The pip call that installs [package]. *)
Definition pip_install_event (package : string) : event :=
  EvPip [path_join (path_join venv_path bin_dir) "pip"; "install"; package].

(** What [run_app_in_venv] answers for an outcome of the operating system. *)
Definition succeeded (c : completed) : bool :=
  match c with
  | Completed rc _ => (rc =? 0)%Z
  | Undecodable rc => (rc =? 0)%Z
  | NotStarted => false
  | NotPermitted => false
  end.

(** The identifiers of [ids] that are found not to be local modules, in
    order, up to the first one whose test raises. *)
Fixpoint installable (ids : list string) : list string :=
  match ids with
  | [] => []
  | m :: ids' =>
      match is_local_module venv_path app_path m with
      | Return true => installable ids'
      | Return false => m :: installable ids'
      | Raise _ => []
      end
  end.

(** The primary and the secondary tier of an identifier list. *)
Definition primary_tier (ids : list string) : list string :=
  filter (fun m => is_secondary m = false) ids.

Definition secondary_tier (ids : list string) : list string :=
  filter (fun m => is_secondary m = true) ids.

(** The tests of [ids] for a local module all give an answer. *)
Fixpoint examined (ids : list string) : bool :=
  match ids with
  | [] => true
  | m :: ids' =>
      match is_local_module venv_path app_path m with
      | Return _ => examined ids'
      | Raise _ => false
      end
  end.

(** The packages of one attempt, in the order of installation: those of
    the primary tier, and those of the secondary tier unless a test of the
    primary tier raises. *)
Definition batch (ids : list string) : list string :=
  map package_for (installable (primary_tier ids)) ++
  (if examined (primary_tier ids)
   then map package_for (installable (secondary_tier ids))
   else []).

(** What [install_single_dependency] makes of the answer of pip: an
    [OSError] of the start is not handled, a non-zero status becomes
    [sys.exit(1)]. *)
Definition installation (c : completed) : result unit :=
  match returncode_of c with
  | Return rc => if (rc =? 0)%Z then Return tt else Raise (SystemExit 1)
  | Raise e => Raise e
  end.

(** The argument vector of the pip call that installs [package]. *)
Definition pip_install_argv (package : string) : list string :=
  [path_join (path_join venv_path bin_dir) "pip"; "install"; package].

(** Every package of [packages] is installed in turn, from the world [w]
    to the world [w']: pip is started each time and ends with status 0. *)
Inductive installs_ok : world -> list string -> world -> Prop :=
| installs_ok_nil w : installs_ok w [] w
| installs_ok_cons w package packages w' :
    succeeded (os_run_pip (pip_install_argv package) w).1 = true ->
    installs_ok (os_run_pip (pip_install_argv package) w).2 packages w' ->
    installs_ok w (package :: packages) w'.

(** The two executions of the target: the one of [run_app_in_venv] and the
    one of [handle_missing_dependencies]. *)
Definition primary_run : event :=
  EvRun target_argv (app_environ app_path) false.

Definition diagnostic_run : event :=
  EvRun target_argv os_environ true.

(** The identifiers the resolver works on, for an outcome of its diagnostic
    execution: the classifier's list for the captured text of a failed
    execution, and nothing otherwise. *)
Definition identifiers_of (c : completed) : list string :=
  match c with
  | Completed rc err => if (rc =? 0)%Z then [] else find_missing_modules err
  | _ => []
  end.

(** A package that stems from an identifier that is not a local module. *)
Definition installable_package (package : string) : Prop :=
  exists m, is_local_module venv_path app_path m = Return false /\ package = package_for m.

(** The events the retry loop can emit. *)
Inductive loop_event (delay_seconds : Z) : event -> Prop :=
| loop_event_primary : loop_event delay_seconds primary_run
| loop_event_diagnostic : loop_event delay_seconds diagnostic_run
| loop_event_pip package :
    installable_package package ->
    loop_event delay_seconds (pip_install_event package)
| loop_event_sleep : loop_event delay_seconds (EvSleep delay_seconds).

(** The shape of the trace of the retry loop from iteration [attempt] on. *)
Inductive loop_trace (delay_seconds : Z) : nat -> list event -> Prop :=
| loop_trace_exhausted attempt :
    max_attempts < attempt ->
    loop_trace delay_seconds attempt []
| loop_trace_return attempt :
    attempt <= max_attempts ->
    loop_trace delay_seconds attempt [primary_run]
| loop_trace_stop attempt packages :
    attempt < max_attempts ->
    Forall installable_package packages ->
    loop_trace delay_seconds attempt
      (primary_run :: diagnostic_run :: map pip_install_event packages)
| loop_trace_retry attempt packages t :
    attempt < max_attempts ->
    Forall installable_package packages ->
    loop_trace delay_seconds (S attempt) t ->
    loop_trace delay_seconds attempt
      (primary_run :: diagnostic_run :: map pip_install_event packages
         ++ EvSleep delay_seconds :: t)
| loop_trace_last attempt t :
    attempt = max_attempts ->
    loop_trace delay_seconds (S attempt) t ->
    loop_trace delay_seconds attempt (primary_run :: t).

End Derived.

(* ===================================================================== *)
(** ** Concrete hosts for running the model *)
(* ===================================================================== *)

Module Scenario.

Fixpoint has_slash (s : string) : bool :=
  match s with
  | EmptyString => false
  | String c s' => Ascii.eqb c "/"%char || has_slash s'
  end.

(** The text before the last slash. *)
Fixpoint before_last_slash (s : string) : string :=
  match s with
  | EmptyString => EmptyString
  | String c s' => if has_slash s' then String c (before_last_slash s') else EmptyString
  end.

(** [PurePosixPath(s).parent] for a path without a trailing slash: the
    parent of a name without a directory is [.], the parent of a name in the
    root directory is the root. *)
Definition posix_parent (s : string) : string :=
  if has_slash s then
    match before_last_slash s with
    | EmptyString => "/"
    | parent => parent
    end
  else ".".

(** [PurePosixPath(a) / b]: an absolute [b] replaces [a], and no slash is
    put behind the root or the current directory. *)
Definition posix_join (a b : string) : string :=
  if String.prefix "/" b then b
  else if String.eqb a "." then b
  else if String.eqb a "/" then a +:+ b
  else a +:+ "/" +:+ b.

(** The alphanumeric characters of the Latin-1 supplement; the concrete
    runs meet no other character beyond ASCII. *)
Definition latin1 : Unicode :=
  {| isalnum := fun code =>
       ((code =? 170) || (code =? 181) || (code =? 186) ||
        ((192 <=? code) && (code <=? 255) && negb (code =? 215) && negb (code =? 247)))%N |}.

(** The longest name of a file. *)
Definition NAME_MAX : nat := 255.

(** A name between two slashes of [s] is longer than [NAME_MAX]; [len] is
    the length of the name read so far. *)
Fixpoint name_too_long (len : nat) (s : string) : bool :=
  match s with
  | EmptyString => (NAME_MAX <? len)%nat
  | String c s' =>
      if Ascii.eqb c "/"%char then (NAME_MAX <? len)%nat || name_too_long 0 s'
      else name_too_long (S len) s'
  end.

(** A POSIX host whose state is the number of times the target was started:
    the [n]-th start is answered by [script n], pip by [pip], and [files] are
    the paths that exist; a path with a name longer than [NAME_MAX] cannot be
    examined. *)
Definition scripted
    (script : nat -> completed) (pip : list string -> completed)
    (files : list string) : Host :=
  {| host_unicode := latin1;
     world := nat;
     os_run_target := fun _ _ _ n => (script n, S n);
     os_run_pip := fun argv n => (pip argv, n);
     os_sleep := fun _ n => n;
     path_exists := fun p =>
       if name_too_long 0 p then None else Some (bool_decide (p ∈ files));
     os_name := "posix";
     os_environ := ∅;
     path_join := posix_join;
     path_parent := posix_parent |}.

Definition pip_succeeds (argv : list string) : completed := Completed 0 "".

Definition venv : string := "/home/u/.local/envy".
Definition app : string := "/srv/app/main.py".

(** The target fails every time, each time naming the module [x]. *)
Definition recurring : Host :=
  scripted (fun _ => Completed 1 "ModuleNotFoundError: No module named 'x'")
           pip_succeeds [].

(** The target fails with a diagnostic no pattern recognises. *)
Definition unrecognised : Host :=
  scripted (fun _ => Completed 1 "Segmentation fault") pip_succeeds [].

(** The target succeeds at once. *)
Definition succeeding : Host :=
  scripted (fun _ => Completed 0 "") pip_succeeds [].

(** The target misses [helpers], and [helpers.py] lies beside it. *)
Definition local_only : Host :=
  scripted (fun _ => Completed 1 "ModuleNotFoundError: No module named 'helpers'")
           pip_succeeds ["/srv/app/helpers.py"].

(** The first start of the target fails; the second runs and misses
    [requests]; from the third on the target succeeds. *)
Definition transient_launch_failure : Host :=
  scripted (fun n => match n with
                     | 0 => NotStarted
                     | 1 => Completed 1 "ModuleNotFoundError: No module named 'requests'"
                     | _ => Completed 0 ""
                     end)
           pip_succeeds [].

(** The interpreter of the environment can never be started. *)
Definition no_interpreter : Host :=
  scripted (fun _ => NotStarted) pip_succeeds [].

(** A primary and a secondary identifier, the secondary one named first. *)
Definition two_tiers : Host :=
  scripted (fun _ => Completed 1
     ("No module named 'qtawesome'" +:+ Text.newline +:+ "No module named 'PIL'"))
           pip_succeeds [].

(** Only a secondary identifier is missing. *)
Definition secondary_only : Host :=
  scripted (fun _ => Completed 1 "ModuleNotFoundError: No module named 'qtawesome'")
           pip_succeeds [].

(** The target keeps missing [x], and pip fails to install it. *)
Definition pip_fails : Host :=
  scripted (fun _ => Completed 1 "ModuleNotFoundError: No module named 'x'")
           (fun _ => Completed 1 "") [].

End Scenario.

(* ===================================================================== *)
(** ** How a run of the retry loop ends *)
(* ===================================================================== *)

Section Outcomes.

Context {host : Host}.
Variables (venv_path app_path : string) (app_args : list string).


End Outcomes.

(* ===================================================================== *)
(** ** Further concrete hosts *)
(* ===================================================================== *)

Module Cases.

(** The target keeps missing [x], and pip cannot be started. *)
Definition pip_missing : Host :=
  Scenario.scripted
    (fun _ => Completed 1 "ModuleNotFoundError: No module named 'x'")
    (fun _ => NotStarted) [].

(** The primary execution fails, and the diagnostic execution that follows
    exits with status 0. *)
Definition flaky : Host :=
  Scenario.scripted
    (fun n => match n with
              | 0 => Completed 1 "Traceback"
              | _ => Completed 0 ""
              end)
    Scenario.pip_succeeds [].

(** The target misses a module whose name is 253 letters long: the file
    name made of it is longer than [NAME_MAX]. *)
Definition long_name : string :=
  string_of_list_ascii (repeat "a"%char 253).

Definition long_identifier : Host :=
  Scenario.scripted
    (fun _ => Completed 1 ("No module named '" +:+ long_name +:+ "'"))
    Scenario.pip_succeeds [].

(** What the target writes to standard error is not valid text. *)
Definition garbled : Host :=
  Scenario.scripted (fun _ => Undecodable 1) Scenario.pip_succeeds [].

(** The name of the missing module ends in the letter e with an acute
    accent, the two bytes 195 and 169. *)
Definition accented_name : string :=
  "caf" +:+ String (ascii_of_nat 195) (String (ascii_of_nat 169) EmptyString).

Definition accented : Host :=
  Scenario.scripted
    (fun _ => Completed 1 ("No module named '" +:+ accented_name +:+ "'"))
    Scenario.pip_succeeds [].

(** The interpreter of the environment may not be executed. *)
Definition not_permitted : Host :=
  Scenario.scripted (fun _ => NotPermitted) Scenario.pip_succeeds [].

End Cases.

(* ===================================================================== *)
(** ** More of [str]: spaces, lines, separators *)
(* ===================================================================== *)

(** The methods of [str] used outside the core, on ASCII text: a character
    above 127 is neither a space nor a line boundary here. *)
Module Py.

(** [str.isspace] on one character: tab to carriage return, the four
    separators 28 to 31, and the blank. *)
Definition is_space (c : ascii) : bool :=
  let n := nat_of_ascii c in
  ((9 <=? n)%nat && (n <=? 13)%nat) || ((28 <=? n)%nat && (n <=? 32)%nat).

(** The line boundaries of [str.splitlines]: line feed to carriage return,
    and the separators 28 to 30. *)
Definition is_linebreak (c : ascii) : bool :=
  let n := nat_of_ascii c in
  ((10 <=? n)%nat && (n <=? 13)%nat) || ((28 <=? n)%nat && (n <=? 30)%nat).

Definition is_cr (c : ascii) : bool := (nat_of_ascii c =? 13)%nat.
Definition is_lf (c : ascii) : bool := (nat_of_ascii c =? 10)%nat.

Fixpoint lstrip (s : list ascii) : list ascii :=
  match s with
  | c :: s' => if is_space c then lstrip s' else s
  | [] => []
  end.

Fixpoint rstrip (s : list ascii) : list ascii :=
  match s with
  | c :: s' =>
      match rstrip s' with
      | [] => if is_space c then [] else [c]
      | r => c :: r
      end
  | [] => []
  end.

(** [s.strip()] *)
Definition strip (s : list ascii) : list ascii := rstrip (lstrip s).

(** Put [c] in front of the first piece of [pieces]. *)
Definition cons_first (c : ascii) (pieces : list (list ascii)) : list (list ascii) :=
  match pieces with
  | p :: ps => (c :: p) :: ps
  | [] => [[c]]
  end.

(** [s.splitlines()]: the lines without their boundaries; a carriage return
    followed by a line feed is one boundary ([after_cr] tells that the
    previous character was a carriage return); no empty last line. *)
Fixpoint splitlines_from (after_cr : bool) (s : list ascii) : list (list ascii) :=
  match s with
  | [] => []
  | c :: s' =>
      if after_cr && is_lf c then splitlines_from false s'
      else if is_linebreak c then [] :: splitlines_from (is_cr c) s'
      else cons_first c (splitlines_from false s')
  end.

Definition splitlines (s : list ascii) : list (list ascii) := splitlines_from false s.

(** [s.split()]: the maximal runs of characters that are not spaces. *)
Fixpoint split_spaces (s : list ascii) : list (list ascii) :=
  match s with
  | [] => []
  | c :: s' =>
      if is_space c then split_spaces s'
      else
        match s' with
        | c' :: _ => if is_space c' then [c] :: split_spaces s'
                     else cons_first c (split_spaces s')
        | [] => [[c]]
        end
  end.

(** [s.split(sep)] for a separator that is not empty: [skip] is the number
    of characters still covered by the separator found last. *)
Fixpoint split_from (sep : list ascii) (skip : nat) (s : list ascii) : list (list ascii) :=
  match s with
  | [] => [[]]
  | c :: s' =>
      match skip with
      | S k => split_from sep k s'
      | 0 =>
          if Text.starts_with sep s then [] :: split_from sep (length sep - 1) s'
          else cons_first c (split_from sep 0 s')
      end
  end.

Definition split (sep s : list ascii) : list (list ascii) := split_from sep 0 s.

(** [s.startswith(p)] *)
Definition startswith (p s : list ascii) : bool := Text.starts_with p s.

End Py.

(* ===================================================================== *)
(** ** [update_all_packages]: the names in the output of [pip freeze] *)
(* ===================================================================== *)

Definition EQEQ : list ascii := list_ascii_of_string "==".

(** The list comprehension of [update_all_packages]:
    [line.strip().split('==')[0]] for every line that contains [==]. The
    index 0 always exists, [split] never returns an empty list. *)
Definition freeze_packages (installed : string) : list string :=
  map (fun line => string_of_list_ascii (hd [] (Py.split EQEQ (Py.strip line))))
    (filter (fun line => Text.contains EQEQ line = true)
       (Py.splitlines (list_ascii_of_string installed))).

(** The text [pip freeze] prints for a list of names and versions: one line
    [name==version] each. *)
Definition freeze_text (entries : list (string * string)) : string :=
  string_of_list_ascii
    (concat (map (fun e => list_ascii_of_string e.1 ++ EQEQ
                           ++ list_ascii_of_string e.2
                           ++ list_ascii_of_string Text.newline) entries)).

(* ===================================================================== *)
(** ** [copy_local_files]: the modules named by import lines *)
(* ===================================================================== *)

(** What the first loop of [copy_local_files] does with one line. *)
Inductive import_line : Type :=
| NoImport
| Imports (module : string)
| IndexError.

Definition IMPORT_ : list ascii := list_ascii_of_string "import ".
Definition FROM_ : list ascii := list_ascii_of_string "from ".
Definition DOT : list ascii := list_ascii_of_string ".".

(** The body of the first loop: [parts[0]] and [parts[1]] are looked up, and
    a missing index is an [IndexError]; [split('.')[0]] always exists. *)
Definition import_of_line (line : string) : import_line :=
  let line := Py.strip (list_ascii_of_string line) in
  if Py.startswith IMPORT_ line || Py.startswith FROM_ line then
    let parts := Py.split_spaces line in
    match parts !! 0 with
    | None => IndexError
    | Some p0 =>
        if bool_decide (p0 = list_ascii_of_string "import") then
          match parts !! 1 with
          | None => IndexError
          | Some p1 => Imports (string_of_list_ascii (hd [] (Py.split DOT p1)))
          end
        else if bool_decide (p0 = list_ascii_of_string "from") then
          match parts !! 1 with
          | None => IndexError
          | Some p1 => Imports (string_of_list_ascii (hd [] (Py.split DOT p1)))
          end
        else NoImport
    end
  else NoImport.

(** The first loop: the list [import_modules], or [None] when a line raises
    [IndexError] and the loop is left. *)
Fixpoint import_modules (import_lines : list string) : option (list string) :=
  match import_lines with
  | [] => Some []
  | line :: rest =>
      match import_of_line line with
      | IndexError => None
      | NoImport => import_modules rest
      | Imports module =>
          match import_modules rest with
          | Some modules => Some (module :: modules)
          | None => None
          end
      end
  end.

(** The modules [copy_local_files] never looks for beside the target. *)
Definition SKIPPED_MODULES : list string :=
  ["sys"; "os"; "logging"; "subprocess"; "argparse"; "shutil"; "pathlib";
   "threading"; "tempfile"; "re"; "traceback"].

(* ===================================================================== *)
(** ** The rest of the launcher: environments, packages, [main] *)
(* ===================================================================== *)

Module Launcher.

(** The calls that change the file system. *)
Inductive fs_call : Type :=
| Rmtree (path : string)
| Copy2 (src dst : string)
| Copytree (src dst : string)
| Unlink (path : string)
| WriteText (path content : string)
| Startfile (path : string).

(** Observable actions of the launcher: the events of the core, the
    execution of any other program, a call that changes the file system, the
    creation and the removal of a temporary directory. *)
Inductive action : Type :=
| Core (e : event)
| Program (argv : list string)
| Fs (call : fs_call)
| Mkdtemp
| Cleanup (path : string).

(** The parsed command line: [known_args]. An option that takes a list
    ([--pip], [--unpip]) is the empty list when absent: only its truth value
    and its elements are used. *)
Record Namespace : Type := {
  venv : string;
  app : option string;
  requirements : option string;
  update : bool;
  recreate : bool;
  delete : bool;
  pip : list string;
  unpip : list string;
  log : bool;
  force_install : bool;
  fixed_delay : Z
}.

(** What the launcher needs of the machine beside the target and pip. *)
Class Platform (host : Host) : Type := {
  (** running another program ([pipx], [python -m venv], [xdg-open],
      [pip freeze]); the text of [Completed] is its standard output *)
  os_run_program : list string -> world -> completed * world;
  (** [shutil.which] *)
  os_which : string -> world -> option string;
  (** a call that changes the file system: done, or an [OSError] *)
  os_fs : fs_call -> world -> bool * world;
  (** [tempfile.TemporaryDirectory()]: its path, or an [OSError]; and its
      removal when the [with] block is left *)
  os_mkdtemp : world -> option string * world;
  os_cleanup : string -> world -> world;
  (** [Path.exists]; [None] when the path cannot be examined and [exists]
      raises an [OSError] *)
  fs_exists : string -> world -> option bool;
  (** [f.readlines()] and [f.read()]; [None] is an [OSError] *)
  fs_readlines : string -> world -> option (list string);
  fs_read : string -> world -> option string;
  (** [argparse] on the command line: the values of
      [parser.parse_known_args()], or the exit status with which the parser
      ends the process (2 for a command line it rejects, 0 after [--help]) *)
  os_parse_arguments : world -> Namespace * list string + Z;
  (** [getattr(sys, 'frozen', False)], [sys.executable], [sys.platform] *)
  sys_frozen : bool;
  sys_executable : string;
  sys_platform : string;
  (** the module-level constant [LOG_FILE] *)
  LOG_FILE : string;
  (** [Path(p).expanduser().resolve()], as a string *)
  path_resolve : string -> string
}.

Section Commands.

Context {host : Host} {platform : Platform host}.

Definition L (A : Type) : Type := world -> result A * world * list action.

Definition lret {A} (a : A) : L A := fun w => (Return a, w, []).

Definition lraise {A} (e : exn) : L A := fun w => (Raise e, w, []).

Definition lbind {A B} (m : L A) (f : A -> L B) : L B :=
  fun w =>
    let '(r, w1, t1) := m w in
    match r with
    | Return a => let '(r2, w2, t2) := f a w1 in (r2, w2, t1 ++ t2)
    | Raise e => (Raise e, w1, t1)
    end.

Notation "x <- m ;; k" := (lbind m (fun x => k))
  (at level 100, m at next level, right associativity).
Notation "m ;;; k" := (lbind m (fun _ => k))
  (at level 100, right associativity).

(** [try: body except ...: handler] *)
Definition ltry {A} (body : L A) (handler : exn -> option (L A)) : L A :=
  fun w =>
    let '(r, w1, t1) := body w in
    match r with
    | Return a => (Return a, w1, t1)
    | Raise e =>
        match handler e with
        | Some h => let '(r2, w2, t2) := h w1 in (r2, w2, t1 ++ t2)
        | None => (Raise e, w1, t1)
        end
    end.

(** [for x in l: body x] *)
Fixpoint lfor {A} (l : list A) (body : A -> L unit) : L unit :=
  match l with
  | [] => lret tt
  | x :: l' => body x ;;; lfor l' body
  end.

Definition lexit {A} (code : Z) : L A := lraise (SystemExit code).

(** A computation of the core, as one of the launcher. *)
Definition lift {A} (m : M A) : L A :=
  fun w => let '(r, w1, t) := m w in (r, w1, map Core t).

(** The two clauses [except subprocess.CalledProcessError] and
    [except Exception], both ending in the same handler. *)
Definition except_any {A} (h : L A) (e : exn) : option (L A) :=
  if is_CalledProcessError e then Some h
  else if is_Exception e then Some h
  else None.

(** [except subprocess.CalledProcessError] alone. *)
Definition except_called_process {A} (h : L A) (e : exn) : option (L A) :=
  if is_CalledProcessError e then Some h else None.

(** [subprocess.check_call(argv)] on a program other than the target and
    pip. *)
Definition check_call (argv : list string) : L unit :=
  fun w =>
    let '(c, w1) := os_run_program argv w in
    (match checked c with
     | Return _ => Return tt
     | Raise e => Raise e
     end, w1, [Program argv]).

(** [subprocess.check_output(argv, text=True)] *)
Definition check_output (argv : list string) : L string :=
  fun w =>
    let '(c, w1) := os_run_program argv w in
    (match captured_of c with
     | Return (rc, out) => if (rc =? 0)%Z then Return out else Raise (CalledProcessError rc)
     | Raise e => Raise e
     end, w1, [Program argv]).

(** A call of [shutil], [Path.unlink], [f.write] or [os.startfile]. *)
Definition fs (call : fs_call) : L unit :=
  fun w =>
    let '(done, w1) := os_fs call w in
    (if done then Return tt else Raise OSError, w1, [Fs call]).

(** [path.exists()] *)
Definition path_exists_now (path : string) : L bool :=
  fun w =>
    (match fs_exists path w with
     | Some b => Return b
     | None => Raise OtherOSError
     end, w, []).

(** [shutil.which(name)] *)
Definition which (name : string) : L (option string) :=
  fun w => (Return (os_which name w), w, []).

(** [with path.open('r') as f: f.readlines()] *)
Definition readlines (path : string) : L (list string) :=
  fun w =>
    (match fs_readlines path w with
     | Some lines => Return lines
     | None => Raise OSError
     end, w, []).

(** [with path.open('r') as f: f.read()] *)
Definition read (path : string) : L string :=
  fun w =>
    (match fs_read path w with
     | Some text => Return text
     | None => Raise OSError
     end, w, []).

(** [with tempfile.TemporaryDirectory() as temp_dir: body temp_dir]: the
    directory is removed however the block is left. *)
Definition with_temporary_directory {A} (body : string -> L A) : L A :=
  fun w =>
    let '(d, w1) := os_mkdtemp w in
    match d with
    | None => (Raise OSError, w1, [Mkdtemp])
    | Some temp_dir =>
        let '(r, w2, t) := body temp_dir w1 in
        (r, os_cleanup temp_dir w2, Mkdtemp :: t ++ [Cleanup temp_dir])
    end.

Definition pip_executable (venv_path : string) : string :=
  path_join (path_join venv_path bin_dir) "pip".

(** [check_pipreqs_installed]. The first [try] handles
    [CalledProcessError] and [FileNotFoundError] only: the error of a [pipx]
    that is there and may not be executed is not caught. *)
Definition check_pipreqs_installed : L unit :=
  ltry (check_call ["pipx"; "--version"])
       (fun e =>
          if is_CalledProcessError e then Some (lexit 1)
          else match e with
               | OSError => Some (lexit 1)
               | _ => None
               end) ;;;
  ltry (result <- check_output ["pipx"; "list"] ;;
        if Text.str_in "pipreqs" result then lret tt
        else check_call ["pipx"; "install"; "pipreqs"])
       (except_any (lexit 1)).

(** [open_log_file] *)
Definition open_log_file : L unit :=
  ltry (if Py.startswith (list_ascii_of_string "linux") (list_ascii_of_string sys_platform)
        then check_call ["xdg-open"; LOG_FILE]
        else if String.eqb sys_platform "darwin"
        then check_call ["open"; LOG_FILE]
        else if String.eqb sys_platform "win32"
        then fs (Startfile LOG_FILE)
        else lret tt)
       (except_any (lret tt)).

(** [ensure_venv] *)
Definition ensure_venv (venv_path : string) : L unit :=
  venv_exists <- path_exists_now venv_path ;;
  if negb venv_exists then
    ltry (if sys_frozen then
            python_executable <- which "python3" ;;
            match python_executable with
            | None => lexit 1
            | Some python =>
                if String.eqb python "" then lexit 1
                else check_call [python; "-m"; "venv"; venv_path]
            end
          else check_call [sys_executable; "-m"; "venv"; venv_path])
         (except_any (lexit 1))
  else lret tt.

(** [install_dependencies] *)
Definition install_dependencies (venv_path : string) (requirements : option string) : L unit :=
  match requirements with
  | Some requirements =>
      requirements_exists <- path_exists_now requirements ;;
      if negb requirements_exists then lexit 1
      else
        ltry (lift (check_call_pip [pip_executable venv_path; "install"; "-r"; requirements]) ;;;
              lret tt)
             (except_called_process (lexit 1))
  | None => lret tt
  end.

(** [uninstall_dependency] *)
Definition uninstall_dependency (venv_path package : string) : L unit :=
  ltry (lift (check_call_pip [pip_executable venv_path; "uninstall"; "-y"; package]) ;;;
        lret tt)
       (except_called_process (lexit 1)).

(** [update_all_packages] *)
Definition update_all_packages (venv_path : string) : L unit :=
  ltry (lift (check_call_pip [pip_executable venv_path; "install"; "--upgrade"; "pip"]) ;;;
        installed <- check_output [pip_executable venv_path; "freeze"] ;;
        let packages := freeze_packages installed in
        if negb (bool_decide (packages = [])) then
          lift (check_call_pip ([pip_executable venv_path; "install"; "--upgrade"] ++ packages)) ;;;
          lret tt
        else lret tt)
       (except_any (lret tt)).

(** The body of the second loop of [copy_local_files]. *)
Definition copy_local_module (app_dir temp_path module : string) : L unit :=
  if bool_decide (Text.lower module ∈ SKIPPED_MODULES) then lret tt
  else
    let potential_file := path_join app_dir (module +:+ ".py") in
    let potential_dir := path_join app_dir module in
    file_exists <- path_exists_now potential_file ;;
    if file_exists then fs (Copy2 potential_file temp_path)
    else
      dir_exists <- path_exists_now potential_dir ;;
      init_exists <- path_exists_now (path_join potential_dir "__init__.py") ;;
      if dir_exists && init_exists
      then fs (Copytree potential_dir (path_join temp_path module))
      else lret tt.

(** [copy_local_files]. An [IndexError] of the first loop would be handled
    by [except Exception] like every other error: [sys.exit(1)]. *)
Definition copy_local_files (app_path temp_path : string) : L unit :=
  ltry (let app_dir := path_parent app_path in
        import_lines <- readlines app_path ;;
        match import_modules import_lines with
        | None => lexit 1
        | Some modules =>
            lfor modules (copy_local_module app_dir temp_path) ;;;
            fs (Copy2 app_path temp_path)
        end)
       (fun e => if is_Exception e then Some (lexit 1) else None).

(** [generate_requirements] *)
Definition generate_requirements (app_path : string) : L string :=
  ltry (with_temporary_directory (fun temp_dir =>
          let temp_path := temp_dir in
          copy_local_files app_path temp_path ;;;
          check_call ["pipx"; "run"; "pipreqs"; temp_path; "--force"; "--savepath";
                      path_join temp_path "requirements.txt"] ;;;
          let requirements_path := path_join temp_path "requirements.txt" in
          requirements_content <- read requirements_path ;;
          let permanent_requirements := path_join (path_parent app_path) "requirements.txt" in
          fs (WriteText permanent_requirements requirements_content) ;;;
          lret permanent_requirements))
       (except_any (lexit 1)).

(** [recreate_venv] *)
Definition recreate_venv (venv_path : string) (app_path : option string) : L unit :=
  ltry (venv_exists <- path_exists_now venv_path ;;
        (if venv_exists then fs (Rmtree venv_path) else lret tt) ;;;
        ensure_venv venv_path ;;;
        match app_path with
        | Some app_path =>
            requirements <- generate_requirements app_path ;;
            requirements_exists <- path_exists_now requirements ;;
            if requirements_exists then
              install_dependencies venv_path (Some requirements) ;;;
              ltry (fs (Unlink requirements))
                   (fun e => if is_Exception e then Some (lret tt) else None)
            else lret tt
        | None => lret tt
        end)
       (fun e => if is_Exception e then Some (lexit 1) else None).

(** [delete_venv] *)
Definition delete_venv (venv_path : string) : L unit :=
  ltry (venv_exists <- path_exists_now venv_path ;;
        if venv_exists then fs (Rmtree venv_path) else lret tt)
       (fun e => if is_Exception e then Some (lexit 1) else None).

(** The truth value of an optional string: [None] and the empty string are
    false. *)
Definition given (s : option string) : bool :=
  match s with
  | Some s => negb (String.eqb s "")
  | None => false
  end.

(** The truth value of a list. *)
Definition some {A} (l : list A) : bool :=
  match l with
  | [] => false
  | _ :: _ => true
  end.

(** [Path(s).resolve() if s else None] *)
Definition resolved (s : option string) : option string :=
  match s with
  | Some p => if String.eqb p "" then None else Some (path_resolve p)
  | None => None
  end.

(** The part of [main] up to the start of the thread: it yields the path of
    the application when the thread is to be started. *)
Definition main_setup (known_args : Namespace) : L (option string) :=
  (if log known_args then open_log_file ;;; lexit 0 else lret tt) ;;;
  check_pipreqs_installed ;;;
  let venv_path := path_resolve (venv known_args) in
  let app_path := resolved (app known_args) in
  let requirements := resolved (requirements known_args) in
  let pip_packages := pip known_args in
  let uninstall_packages := unpip known_args in
  app_missing <-
    match app_path with
    | Some app_path => app_exists <- path_exists_now app_path ;; lret (negb app_exists)
    | None => lret false
    end ;;
  (if app_missing && negb (delete known_args || some (unpip known_args))
   then lexit 1 else lret tt) ;;;
  (if delete known_args then delete_venv venv_path ;;; lexit 0
   else if recreate known_args then recreate_venv venv_path app_path
   else if update known_args then ensure_venv venv_path ;;; update_all_packages venv_path
   else if some pip_packages then
     ensure_venv venv_path ;;;
     lfor pip_packages (fun package => lift (install_single_dependency venv_path package))
   else if some uninstall_packages then
     ensure_venv venv_path ;;;
     lfor uninstall_packages (uninstall_dependency venv_path)
   else
     ensure_venv venv_path ;;;
     match requirements with
     | Some _ => install_dependencies venv_path requirements
     | None => lret tt
     end) ;;;
  match app_path with
  | Some app_path =>
      if negb (delete known_args || some (unpip known_args)) then
        ensure_venv venv_path ;;;
        match requirements with
        | Some _ => install_dependencies venv_path requirements
        | None => lret tt
        end ;;;
        lret (Some app_path)
      else lret None
  | None => lret None
  end.

(** [parse_arguments] *)
Definition parse_arguments : L (Namespace * list string) :=
  fun w =>
    (match os_parse_arguments w with
     | inl parsed => Return parsed
     | inr code => Raise (SystemExit code)
     end, w, []).

(** [main] from its second statement on, for the values [known_args] and
    [app_args] that [parse_arguments] returned: after [main_setup], the
    retry loop runs in a thread that is started and joined. *)
Definition main (known_args : Namespace) (app_args : list string) (w : world)
    : option (result unit * world * list action) :=
  let '(r, w1, t1) := main_setup known_args w in
  match r with
  | Raise e => Some (Raise e, w1, t1)
  | Return None => Some (Return tt, w1, t1)
  | Return (Some app_path) =>
      match thread_start_join
              (run_application (path_resolve (venv known_args)) app_path app_args
                 (force_install known_args) (fixed_delay known_args)) w1 with
      | Some (r2, w2, t2) => Some (r2, w2, t1 ++ map Core t2)
      | None => None
      end
  end.

(** The whole of [main], as the [__main__] block calls it: the command
    line is parsed first. *)
Definition script (w : world) : option (result unit * world * list action) :=
  let '(r, w1, t1) := parse_arguments w in
  match r with
  | Raise e => Some (Raise e, w1, t1)
  | Return (known_args, app_args) =>
      match main known_args app_args w1 with
      | Some (r2, w2, t2) => Some (r2, w2, t1 ++ t2)
      | None => None
      end
  end.

(** [m] returns, or raises an exception that satisfies [P]. *)
Definition ends_with {A} (P : exn -> Prop) (m : L A) : Prop :=
  forall w, match (m w).1.1 with
            | Return _ => True
            | Raise e => P e
            end.

(** The exceptions of a program that cannot be started or ends with a
    non-zero status, of an output that is not valid text, and of a call of
    the file system. *)
Definition process_error (e : exn) : Prop :=
  e = OSError \/ e = OtherOSError \/ e = UnicodeDecodeError \/
  exists rc, e = CalledProcessError rc.

Definition never (e : exn) : Prop := False.

Definition exit_1 (e : exn) : Prop := e = SystemExit 1.

Definition exit_1_or_oserror (e : exn) : Prop :=
  e = SystemExit 1 \/ e = OSError \/ e = OtherOSError.

Definition exit_1_or_other (e : exn) : Prop := e = SystemExit 1 \/ e = OtherOSError.

(** Every action [m] performs satisfies [P]. *)
Definition emits {A} (P : action -> Prop) (m : L A) : Prop :=
  forall w, Forall P (m w).2.

(** Whatever [m] returns satisfies [Q]. *)
Definition returns {A} (Q : A -> Prop) (m : L A) : Prop :=
  forall w, match (m w).1.1 with
            | Return a => Q a
            | Raise _ => True
            end.

(** A pip call of the environment at [venv_path]. *)
Definition pip_action (venv_path : string) (a : action) : Prop :=
  exists args, a = Core (EvPip (pip_executable venv_path :: args)).

(** A call of [pipx]. *)
Definition pipx_action (a : action) : Prop :=
  exists args, a = Program ("pipx" :: args).

(** The creation of the environment at [venv_path]. *)
Definition venv_action (venv_path : string) (a : action) : Prop :=
  exists python, a = Program [python; "-m"; "venv"; venv_path].

(** An execution of the target, or a sleep. *)
Definition is_target_action (a : action) : bool :=
  match a with
  | Core (EvRun _ _ _) => true
  | Core (EvSleep _) => true
  | _ => false
  end.

(** An action of [copy_local_files]: the target itself is copied, or the file
    or the package directory of a module whose lower-cased name is not among
    [SKIPPED_MODULES]. *)
Definition copy_action (app_path temp_path : string) (a : action) : Prop :=
  a = Fs (Copy2 app_path temp_path) \/
  exists module,
    (Text.lower module ∉ SKIPPED_MODULES) /\
    (a = Fs (Copy2 (path_join (path_parent app_path) (module +:+ ".py")) temp_path) \/
     a = Fs (Copytree (path_join (path_parent app_path) module)
                      (path_join temp_path module))).

(** The path of the file [generate_requirements] writes beside the target. *)
Definition permanent_requirements (app_path : string) : string :=
  path_join (path_parent app_path) "requirements.txt".

(** An action of [generate_requirements]. *)
Definition generate_action (app_path : string) (a : action) : Prop :=
  a = Mkdtemp \/
  (exists temp_dir,
     a = Cleanup temp_dir \/ copy_action app_path temp_dir a \/
     a = Program ["pipx"; "run"; "pipreqs"; temp_dir; "--force"; "--savepath";
                  path_join temp_dir "requirements.txt"]) \/
  (exists content, a = Fs (WriteText (permanent_requirements app_path) content)).

(** An action of [recreate_venv]. *)
Definition recreate_action (venv_path : string) (app_path : option string) (a : action) : Prop :=
  a = Fs (Rmtree venv_path) \/ venv_action venv_path a \/
  match app_path with
  | Some app_path =>
      generate_action app_path a \/ pip_action venv_path a \/
      a = Fs (Unlink (permanent_requirements app_path))
  | None => False
  end.

(** An action of [open_log_file]. *)
Definition log_action (a : action) : Prop :=
  a = Program ["xdg-open"; LOG_FILE] \/ a = Program ["open"; LOG_FILE] \/
  a = Fs (Startfile LOG_FILE).

(** An action of [main] before the thread is started. *)
Definition setup_action (known_args : Namespace) (a : action) : Prop :=
  let venv_path := path_resolve (venv known_args) in
  (log known_args = true /\ log_action a) \/
  pipx_action a \/
  venv_action venv_path a \/
  pip_action venv_path a \/
  (update known_args = true /\ a = Program [pip_executable venv_path; "freeze"]) \/
  (delete known_args = true /\ a = Fs (Rmtree venv_path)) \/
  (recreate known_args = true /\
   recreate_action venv_path (resolved (app known_args)) a).

(** The exceptions that can leave [main_setup]. *)
Definition setup_error (e : exn) : Prop :=
  e = SystemExit 0 \/ e = SystemExit 1 \/ e = OSError \/ e = OtherOSError.

End Commands.

End Launcher.

(* ===================================================================== *)
(** ** Concrete machines for running the launcher *)
(* ===================================================================== *)

Module Machines.

Import Launcher.

(** The state of a machine: the paths that exist, and the number of times
    the target was started. *)
Record state : Type := {
  files : list string;
  starts : nat
}.

Definition add (path : string) (st : state) : state :=
  {| files := path :: files st; starts := starts st |}.

Definition remove (path : string) (st : state) : state :=
  {| files := List.filter (fun p => negb (String.eqb p path)) (files st);
     starts := starts st |}.

(** Remove [path] and everything below it. *)
Definition remove_tree (path : string) (st : state) : state :=
  {| files := List.filter (fun p => negb (String.prefix path p)) (files st);
     starts := starts st |}.

(** A POSIX host: the [n]-th start of the target is answered by [script n],
    pip by [pip]; no module lies beside the target. *)
Definition machine_host (script : nat -> completed) (pip : list string -> completed) : Host :=
  {| host_unicode := Scenario.latin1;
     world := state;
     os_run_target := fun _ _ _ st =>
       (script (starts st), {| files := files st; starts := S (starts st) |});
     os_run_pip := fun argv st => (pip argv, st);
     os_sleep := fun _ st => st;
     path_exists := fun _ => Some false;
     os_name := "posix";
     os_environ := ∅;
     path_join := Scenario.posix_join;
     path_parent := Scenario.posix_parent |}.

(** What the other programs answer: [pipx --version] answers [pipx], and
    when that is a success [pipx list] names [pipreqs] and
    [pipx run pipreqs] writes the file given last; [python -m venv] creates
    the directory; [pip freeze] prints [frozen]. *)
Definition run_program (pipx : completed) (frozen : string)
    (argv : list string) (st : state) : completed * state :=
  let arg i := nth i argv EmptyString in
  if String.eqb (arg 0) "pipx" then
    if negb (succeeded pipx) then (pipx, st)
    else if String.eqb (arg 1) "list" then (Completed 0 "package pipreqs 0.4.13", st)
    else if String.eqb (arg 1) "run" then (Completed 0 EmptyString, add (arg 6) st)
    else (Completed 0 EmptyString, st)
  else if String.eqb (arg 1) "-m" then (Completed 0 EmptyString, add (arg 3) st)
  else if String.eqb (arg 1) "freeze" then (Completed 0 frozen, st)
  else (Completed 0 EmptyString, st).

(** The calls of the file system always work: a removed path is gone, a
    written one is there. *)
Definition run_fs (call : fs_call) (st : state) : bool * state :=
  match call with
  | Rmtree path => (true, remove_tree path st)
  | Unlink path => (true, remove path st)
  | WriteText path _ => (true, add path st)
  | Copy2 _ _ => (true, st)
  | Copytree _ _ => (true, st)
  | Startfile _ => (true, st)
  end.

(** A Linux machine that runs the launcher as a script: the fields are, in
    order, the programs, [shutil.which], the file system, the temporary
    directory and its removal, [exists] (a path with a name that is too long
    cannot be examined), [readlines] (the lines of a file that exists are
    [source]) and [read] (its text is [generated]), the parsed command
    line, [sys.frozen], [sys.executable], [sys.platform], [LOG_FILE] and
    [resolve]. *)
Definition machine (script : nat -> completed) (pip : list string -> completed)
    (pipx : completed) (frozen : string) (source : list string) (generated : string)
    (command_line : Namespace * list string + Z)
    : Platform (machine_host script pip) :=
  @Build_Platform (machine_host script pip)
    (run_program pipx frozen)
    (fun _ _ => Some "/usr/bin/python3")
    run_fs
    (fun st => (Some "/tmp/tmp_envy", st))
    remove_tree
    (fun path st =>
       if Scenario.name_too_long 0 path then None
       else Some (bool_decide (path ∈ files st)))
    (fun path st => if bool_decide (path ∈ files st) then Some source else None)
    (fun path st => if bool_decide (path ∈ files st) then Some generated else None)
    (fun _ => command_line)
    false
    "/usr/bin/python3"
    "linux"
    "/home/u/.local/envy/envy.log"
    (fun path => path).

Definition target_succeeds (n : nat) : completed := Completed 0 EmptyString.

Definition frozen : string :=
  freeze_text [("requests", "2.31.0"); ("Pillow", "10.0.0")].

Definition source : list string :=
  ["import os" +:+ Text.newline; "from helpers.text import clean" +:+ Text.newline].

Definition generated : string := "requests==2.31.0" +:+ Text.newline.

(** Command lines, parsed. *)

(** [envy -v venv -a app -r deps.txt] *)
Definition launch : Namespace :=
  {| venv := Scenario.venv; app := Some Scenario.app;
     requirements := Some "/srv/app/deps.txt";
     update := false; recreate := false; delete := false;
     pip := []; unpip := []; log := false; force_install := false; fixed_delay := 2 |}.

(** [envy -l] *)
Definition show_log : Namespace :=
  {| venv := Scenario.venv; app := None; requirements := None;
     update := false; recreate := false; delete := false;
     pip := []; unpip := []; log := true; force_install := false; fixed_delay := 2 |}.

(** [envy -v venv -a app --delete] *)
Definition delete_with_app : Namespace :=
  {| venv := Scenario.venv; app := Some Scenario.app; requirements := None;
     update := false; recreate := false; delete := true;
     pip := []; unpip := []; log := false; force_install := false; fixed_delay := 2 |}.

(** [envy -v venv -p requests Pillow] *)
Definition install_two : Namespace :=
  {| venv := Scenario.venv; app := None; requirements := None;
     update := false; recreate := false; delete := false;
     pip := ["requests"; "Pillow"]; unpip := []; log := false;
     force_install := false; fixed_delay := 2 |}.

(** [envy -v venv -a app --update] *)
Definition update_with_app : Namespace :=
  {| venv := Scenario.venv; app := Some Scenario.app; requirements := None;
     update := true; recreate := false; delete := false;
     pip := []; unpip := []; log := false; force_install := false; fixed_delay := 2 |}.

(** Everything works; the command line is [command_line]. *)
Definition laptop_at (command_line : Namespace * list string + Z)
    : Platform (machine_host target_succeeds Scenario.pip_succeeds) :=
  machine target_succeeds Scenario.pip_succeeds (Completed 0 EmptyString)
    frozen source generated command_line.

Definition laptop : Platform (machine_host target_succeeds Scenario.pip_succeeds) :=
  laptop_at (inl (launch, [])).

(** [pipx] is not installed. *)
Definition no_pipx : Platform (machine_host target_succeeds Scenario.pip_succeeds) :=
  machine target_succeeds Scenario.pip_succeeds NotStarted
    frozen source generated (inl (launch, [])).

(** [pipx] is there and may not be executed. *)
Definition forbidden_pipx : Platform (machine_host target_succeeds Scenario.pip_succeeds) :=
  machine target_succeeds Scenario.pip_succeeds NotPermitted
    frozen source generated (inl (launch, [])).

(** The application and a requirements file are there, no environment. *)
Definition fresh : state :=
  {| files := [Scenario.app; "/srv/app/deps.txt"]; starts := 0 |}.

(** The environment is there too. *)
Definition settled : state :=
  {| files := [Scenario.venv; "/home/u/.local/envy/bin/pip"; Scenario.app];
     starts := 0 |}.

(** Nothing is there. *)
Definition empty : state := {| files := []; starts := 0 |}.

End Machines.

(* ===================================================================== *)
(** ** Facts about the classifier *)
(* ===================================================================== *)

Section ClassifierFacts.

Context {unicode : Unicode}.

Example find_missing_modules_requests :
  find_missing_modules "ModuleNotFoundError: No module named 'Requests'" = ["Requests"].
Proof. vm_compute. reflexivity. Qed.

Example find_missing_modules_dotted :
  find_missing_modules "ModuleNotFoundError: No module named 'google.protobuf'" = [].
Proof. vm_compute. reflexivity. Qed.

Lemma run_length_Forall (p : Text.character -> bool) (s : list Text.character) (j : nat) :
  j <= Re.run_length p s -> Forall (fun c => p c = true) (take j s) /\ length (take j s) = j.
Proof.
  revert s. induction j as [|j IH]; intros s Hj; [by split; [constructor|destruct s]|].
  destruct s as [|c s]; simpl in Hj; [lia|].
  destruct (p c) eqn:Hc; [|lia].
  destruct (IH s) as [H1 H2]; [lia|].
  simpl. split; [by constructor|by rewrite H2].
Qed.

Lemma match_at_literal (p : list ascii) (re : Re.pattern)
    (s cap : list Text.character) (n : nat) :
  Re.match_at (map Re.Lit p ++ re) s = Some (cap, n) ->
  exists s' n',
    s = map Text.single p ++ s' /\ Re.match_at re s' = Some (cap, n') /\ n = length p + n'.
Proof.
  revert s n. induction p as [|c p IH]; intros s n H.
  - exists s, n. auto.
  - cbn [map app Re.match_at] in H.
    destruct s as [|x s]; [discriminate|].
    case_bool_decide as Hx; [subst x|discriminate].
    destruct (Re.match_at (map Re.Lit p ++ re) s) as [[cap' n']|] eqn:Hm; [|discriminate].
    injection H as <- <-.
    destruct (IH _ _ Hm) as (s' & n'' & -> & Hre & ->).
    exists s', n''. auto.
Qed.

Lemma match_at_quoted_group (q w q' : Text.character -> bool)
    (s cap : list Text.character) (n : nat) :
  Re.match_at [Re.Class q; Re.Group w; Re.Class q'] s = Some (cap, n) ->
  exists q1 q2 rest,
    s = q1 :: cap ++ q2 :: rest /\ q q1 = true /\ q' q2 = true /\
    cap <> [] /\ Forall (fun c => w c = true) cap /\ n = length cap + 2.
Proof.
  cbn [Re.match_at].
  destruct s as [|q1 s]; [discriminate|].
  destruct (q q1) eqn:Hq1; [|discriminate].
  set (try := fix try (k : nat) : option (list Text.character * nat) := _).
  assert (Htry : forall k cap n, k <= Re.run_length w s -> try k = Some (cap, n) ->
            exists j q2 rest, 1 <= j <= k /\ cap = take j s /\ drop j s = q2 :: rest /\
                              q' q2 = true /\ n = j + 1).
  { induction k as [|k IH]; intros cap0 n0 Hk H0; [discriminate|].
    cbn [try] in H0.
    destruct (drop (S k) s) as [|q2 rest] eqn:Hdrop.
    - apply IH in H0 as (j & q2 & rest & Hj & ? & ? & ? & ?); [|lia].
      exists j, q2, rest. repeat split; auto; lia.
    - destruct (q' q2) eqn:Hq2.
      + injection H0 as <- <-. exists (S k), q2, rest. repeat split; auto; lia.
      + apply IH in H0 as (j & q2' & rest' & Hj & ? & ? & ? & ?); [|lia].
        exists j, q2', rest'. repeat split; auto; lia. }
  destruct (try (Re.run_length w s)) as [[cap0 n0]|] eqn:Ht; [|discriminate].
  intros H. injection H as <- <-.
  apply Htry in Ht as (j & q2 & rest & Hj & -> & Hdrop & Hq2 & ->); [|lia].
  destruct (run_length_Forall w s j) as [Hall Hlen]; [lia|].
  exists q1, q2, rest. repeat split; auto.
  - by rewrite <- Hdrop, take_drop.
  - intros Hnil. rewrite Hnil in Hlen. simpl in Hlen. lia.
  - rewrite Hlen. lia.
Qed.

Lemma quote_not_word (ch : Text.character) :
  Text.is_quote ch = true -> Text.is_word ch = false.
Proof.
  destruct ch as [|c [|c' ch]]; [discriminate| |discriminate].
  destruct c as [[] [] [] [] [] [] [] []]; vm_compute; intros H;
    try discriminate H; reflexivity.
Qed.

Lemma run_length_app (p : Text.character -> bool) (x : list Text.character)
    (c : Text.character) (rest : list Text.character) :
  Forall (fun a => p a = true) x -> p c = false ->
  Re.run_length p (x ++ c :: rest) = length x.
Proof.
  intros Hx Hc. induction Hx as [|a x Ha Hx IH]; simpl.
  - by rewrite Hc.
  - by rewrite Ha, IH.
Qed.

Lemma match_at_literal_app (p : list ascii) (re : Re.pattern) (s : list Text.character) :
  Re.match_at (map Re.Lit p ++ re) (map Text.single p ++ s) =
  match Re.match_at re s with
  | Some (cap, n) => Some (cap, length p + n)
  | None => None
  end.
Proof.
  induction p as [|c p IH]; cbn [map app Re.match_at length].
  - by destruct (Re.match_at re s) as [[cap n]|].
  - rewrite bool_decide_eq_true_2 by reflexivity.
    rewrite IH. by destruct (Re.match_at re s) as [[cap n]|].
Qed.

Lemma match_at_quoted_group_exact (q1 q2 : Text.character) (x rest : list Text.character) :
  Text.is_quote q1 = true -> Text.is_quote q2 = true ->
  x <> [] -> Forall (fun c => Text.is_word c = true) x ->
  Re.match_at [Re.Class Text.is_quote; Re.Group Text.is_word; Re.Class Text.is_quote]
    (q1 :: x ++ q2 :: rest) = Some (x, S (length x + 1)).
Proof.
  intros Hq1 Hq2 Hne Hx.
  cbn [Re.match_at]. rewrite Hq1.
  rewrite (run_length_app _ _ _ _ Hx (quote_not_word _ Hq2)).
  destruct x as [|a x]; [done|]. cbn [length].
  change (drop (S (length x)) ((a :: x) ++ q2 :: rest))
    with (drop (length x) (x ++ q2 :: rest)).
  rewrite drop_app_length. rewrite Hq2.
  change (take (S (length x)) ((a :: x) ++ q2 :: rest))
    with (a :: take (length x) (x ++ q2 :: rest)).
  by rewrite take_app_length.
Qed.

Lemma length_list_ascii_of_string (s : string) :
  length (list_ascii_of_string s) = String.length s.
Proof. induction s as [|c s IH]; simpl; [reflexivity|by rewrite IH]. Qed.

(** A match of a pattern at the start of the characters [s] is an
    occurrence as the specification describes it, and the other way
    round. *)
Lemma match_at_quoted_at (prefix : string) (s cap : list Text.character) (n : nat) :
  Re.match_at (quoted_group prefix) s = Some (cap, n) <-> quoted_at prefix s cap n.
Proof.
  unfold quoted_group, Re.literal, quoted_at. split.
  - intros Hm.
    apply match_at_literal in Hm as (s' & n' & -> & Hm & ->).
    apply match_at_quoted_group in Hm as (q1 & q2 & rest & -> & Hq1 & Hq2 & Hne & Hw & ->).
    exists q1, q2, rest. rewrite length_list_ascii_of_string. repeat split; auto. lia.
  - intros (q1 & q2 & rest & -> & Hq1 & Hq2 & Hne & Hw & ->).
    rewrite match_at_literal_app, match_at_quoted_group_exact by auto.
    rewrite length_list_ascii_of_string. do 2 f_equal. lia.
Qed.

Lemma quoted_at_positive (prefix : string) (s cap : list Text.character) (n : nat) :
  quoted_at prefix s cap n -> 0 < n /\ s <> [].
Proof.
  intros (q1 & q2 & rest & -> & _ & _ & _ & _ & ->). split; [lia|].
  by destruct (list_ascii_of_string prefix).
Qed.

Lemma scan_skip (prefix : string) (k : nat) (s : list Text.character) :
  Re.scan (quoted_group prefix) k s = Re.scan (quoted_group prefix) 0 (drop k s).
Proof.
  revert s. induction k as [|k IH]; intros s; [by rewrite drop_0|].
  destruct s as [|c s].
  - cbn [Re.scan drop].
    destruct (Re.match_at (quoted_group prefix) []) as [[cap n]|] eqn:Hm; [|reflexivity].
    apply match_at_quoted_at, quoted_at_positive in Hm as [_ Hm]. done.
  - cbn [Re.scan drop]. apply IH.
Qed.

(** [re.findall] with one pattern yields what the specification asks of
    that pattern. *)
Lemma scan_captures (prefix : string) (s : list Text.character) :
  captures prefix s (Re.scan (quoted_group prefix) 0 s).
Proof.
  remember (length s) as len eqn:Hlen. revert s Hlen.
  induction len as [len IH] using lt_wf_ind. intros s ->.
  destruct s as [|c s].
  - cbn [Re.scan].
    destruct (Re.match_at (quoted_group prefix) []) as [[cap n]|] eqn:Hm.
    + apply match_at_quoted_at, quoted_at_positive in Hm as [_ Hm]. done.
    + apply captures_none. intros i cap n Hq. rewrite drop_nil in Hq.
      apply quoted_at_positive in Hq as [_ Hq]. done.
  - cbn [Re.scan].
    destruct (Re.match_at (quoted_group prefix) (c :: s)) as [[cap n]|] eqn:Hm.
    + apply match_at_quoted_at in Hm.
      pose proof (quoted_at_positive _ _ _ _ Hm) as [Hn _].
      rewrite scan_skip.
      apply (captures_next prefix (c :: s) 0 cap n).
      * exact Hm.
      * intros j cap' n' Hj. lia.
      * destruct n as [|n]; [lia|]. cbn [Nat.add pred drop].
        eapply IH; [|reflexivity]. rewrite length_drop. simpl. lia.
    + assert (Hnot : forall cap n, ~ quoted_at prefix (c :: s) cap n).
      { intros cap n Hq. apply match_at_quoted_at in Hq. congruence. }
      assert (IHs : captures prefix s (Re.scan (quoted_group prefix) 0 s)).
      { eapply IH; [|reflexivity]. simpl. lia. }
      inversion IHs as [s0 Hnone Hs0 Hl | s0 i cap n l Hq Hmin Hrest Hs0 Hl]; subst s0.
      * apply captures_none. intros [|i] cap n; [apply Hnot|apply Hnone].
      * apply (captures_next prefix (c :: s) (S i) cap n); [exact Hq| |exact Hrest].
        intros [|j] cap' n' Hj; [apply Hnot|]. apply Hmin. lia.
Qed.

Lemma captures_identifiers (prefix : string) (s : list Text.character) (l : list string) :
  captures prefix s l -> Forall is_identifier l.
Proof.
  induction 1 as [s Hnone | s i cap n l Hq Hmin Hrest IH]; [constructor|].
  constructor; [|exact IH].
  destruct Hq as (q1 & q2 & rest & _ & _ & _ & Hne & Hw & _).
  by exists cap.
Qed.

Lemma word_run_unique (x y : list Text.character) (a b : Text.character)
    (r r' : list Text.character) :
  Forall (fun ch => Text.is_word ch = true) x ->
  Forall (fun ch => Text.is_word ch = true) y ->
  Text.is_word a = false -> Text.is_word b = false ->
  x ++ a :: r = y ++ b :: r' -> x = y.
Proof.
  intros Hx. revert y. induction Hx as [|c x Hc Hx IH]; intros y Hy Ha Hb Heq.
  - destruct Hy as [|d y Hd Hy]; [reflexivity|].
    simpl in Heq. injection Heq as -> _. congruence.
  - destruct Hy as [|d y Hd Hy].
    + simpl in Heq. injection Heq as -> _. congruence.
    + simpl in Heq. injection Heq as -> Heq. f_equal. by apply IH.
Qed.

Lemma quoted_at_unique (prefix : string) (s cap cap' : list Text.character) (n n' : nat) :
  quoted_at prefix s cap n -> quoted_at prefix s cap' n' -> cap = cap' /\ n = n'.
Proof.
  intros (q1 & q2 & rest & -> & _ & Hq2 & _ & Hw & ->)
         (q1' & q2' & rest' & Heq & _ & Hq2' & _ & Hw' & ->).
  apply app_inv_head in Heq. injection Heq as _ Heq.
  assert (cap = cap') as ->; [|done].
  exact (word_run_unique cap cap' q2 q2' rest rest' Hw Hw'
           (quote_not_word _ Hq2) (quote_not_word _ Hq2') Heq).
Qed.

(** What the specification asks of a pattern is met by one list only. *)
Lemma captures_unique (prefix : string) (s : list Text.character) (l l' : list string) :
  captures prefix s l -> captures prefix s l' -> l = l'.
Proof.
  intros H. revert l'.
  induction H as [s Hnone | s i cap n l Hq Hmin Hrest IH]; intros l' H'.
  - inversion H' as [|s0 i' cap' n' l0 Hq' _ _]; subst; [reflexivity|].
    by apply Hnone in Hq'.
  - inversion H' as [s0 Hnone'|s0 i' cap' n' l0 Hq' Hmin' Hrest']; subst.
    + by apply Hnone' in Hq.
    + assert (i = i') as <-.
      { destruct (Nat.lt_trichotomy i i') as [Hlt | [Heq | Hgt]]; [|exact Heq|].
        - by apply (Hmin' _ _ _ Hlt) in Hq.
        - by apply (Hmin _ _ _ Hgt) in Hq'. }
      destruct (quoted_at_unique _ _ _ _ _ _ Hq Hq') as [<- <-].
      f_equal. by apply IH.
Qed.

(** C8. The classifier's list is what the first pattern captures, then
    what the second pattern captures, then [PyQt5] when the text contains the
    signature. What a pattern captures is the list of the identifiers of all
    its occurrences in the text, from left to right, each one the quoted run
    of word characters behind the pattern's text with its case as in the
    diagnostic text; nothing is removed, so duplicates stay; and no other
    list meets this description. *)
Theorem find_missing_modules_concatenation (error_message : string) :
  exists no_module cannot_import,
    find_missing_modules error_message =
      no_module ++ cannot_import ++
      (if Text.str_in QT_BINDINGS_SIGNATURE error_message then ["PyQt5"] else []) /\
    captures "No module named " (Text.chars error_message) no_module /\
    captures "ImportError: cannot import name " (Text.chars error_message) cannot_import /\
    (forall l, captures "No module named " (Text.chars error_message) l ->
               l = no_module) /\
    (forall l, captures "ImportError: cannot import name " (Text.chars error_message) l ->
               l = cannot_import).
Proof.
  exists (Re.findall NO_MODULE_RE error_message),
         (Re.findall CANNOT_IMPORT_RE error_message).
  split; [|split; [|split; [|split]]].
  - unfold find_missing_modules.
    destruct (Text.str_in QT_BINDINGS_SIGNATURE error_message).
    + by rewrite <- app_assoc.
    + by rewrite app_nil_r.
  - apply scan_captures.
  - apply scan_captures.
  - intros l Hl. eapply captures_unique; [exact Hl|apply scan_captures].
  - intros l Hl. eapply captures_unique; [exact Hl|apply scan_captures].
Qed.

Example find_missing_modules_all_three :
  find_missing_modules
    ("ImportError: cannot import name 'Zeta' from 'pkg'" +:+ Text.newline +:+
     "ModuleNotFoundError: No module named 'Alpha'" +:+ Text.newline +:+
     "qtpy.QtBindingsNotFoundError: No Qt bindings could be found" +:+ Text.newline +:+
     "ModuleNotFoundError: No module named 'Alpha'")
  = ["Alpha"; "Alpha"; "Zeta"; "PyQt5"].
Proof. vm_compute. reflexivity. Qed.

(** Every identifier of the classifier's list is one or more word
    characters. *)
Lemma find_missing_modules_identifiers (error_message : string) :
  Forall is_identifier (find_missing_modules error_message).
Proof.
  unfold find_missing_modules.
  assert (Hboth : Forall is_identifier
            (Re.findall NO_MODULE_RE error_message ++
             Re.findall CANNOT_IMPORT_RE error_message)).
  { apply Forall_app. split; eapply captures_identifiers, scan_captures. }
  destruct (Text.str_in QT_BINDINGS_SIGNATURE error_message); [|exact Hboth].
  apply Forall_app. split; [exact Hboth|].
  constructor; [|constructor].
  exists (map Text.single (list_ascii_of_string "PyQt5")).
  split; [reflexivity|]. split; [discriminate|]. by repeat constructor.
Qed.

(** When the signature is in the text, the classifier's list is not empty:
    the second test of the signature in [handle_missing_dependencies] is
    never reached with a positive answer. *)
Lemma find_missing_modules_nil_no_signature (error_message : string) :
  find_missing_modules error_message = [] ->
  Text.str_in QT_BINDINGS_SIGNATURE error_message = false.
Proof.
  unfold find_missing_modules.
  destruct (Text.str_in QT_BINDINGS_SIGNATURE error_message); [|reflexivity].
  intros H. apply app_eq_nil in H as [_ H]. discriminate H.
Qed.

End ClassifierFacts.

(** A name with a letter beyond ASCII is found like any other. *)
Example find_missing_modules_accented :
  find_missing_modules (unicode := Scenario.latin1)
    ("ModuleNotFoundError: No module named '" +:+ Cases.accented_name +:+ "'")
  = [Cases.accented_name].
Proof. vm_compute. reflexivity. Qed.

(* ===================================================================== *)
(** ** Counting events *)
(* ===================================================================== *)

Lemma count_nil (f : event -> bool) : count f [] = 0.
Proof. reflexivity. Qed.

Lemma count_cons (f : event -> bool) (e : event) (t : list event) :
  count f (e :: t) = (if f e then 1 else 0) + count f t.
Proof.
  unfold count. rewrite filter_cons.
  destruct (f e) eqn:Hfe.
  - rewrite decide_True by reflexivity. reflexivity.
  - rewrite decide_False by discriminate. reflexivity.
Qed.

Lemma count_app (f : event -> bool) (t1 t2 : list event) :
  count f (t1 ++ t2) = count f t1 + count f t2.
Proof. unfold count. by rewrite filter_app, length_app. Qed.

Lemma count_run_split (t : list event) :
  count is_run t = count is_primary_run t + count is_diagnostic_run t.
Proof.
  induction t as [|e t IH]; [reflexivity|].
  rewrite !count_cons, IH. destruct e as [? ? []| |]; simpl; lia.
Qed.

Lemma count_map_pip (f : event -> bool) (venv_path : string) `{host : Host}
    (packages : list string) :
  (forall argv, f (EvPip argv) = false) ->
  count f (map (pip_install_event venv_path) packages) = 0.
Proof.
  intros Hf. induction packages as [|p l IH]; [reflexivity|].
  cbn [map]. rewrite count_cons, IH. unfold pip_install_event. by rewrite Hf.
Qed.

Lemma installed_map_pip `{host : Host} (venv_path : string) (packages : list string) :
  installed (map (pip_install_event venv_path) packages) = packages.
Proof.
  unfold installed. induction packages as [|p l IH]; [reflexivity|].
  cbn [map omap list_omap]. simpl. f_equal. exact IH.
Qed.

Lemma take_map_app {A B : Type} (f : A -> B) (k : nat) (l1 l2 : list A) :
  take k (map f l1 ++ map f l2) = map f (take k l1) ++ map f (take (k - length l1) l2).
Proof. rewrite firstn_app, length_map, !firstn_map. reflexivity. Qed.

Lemma string_length_app (s1 s2 : string) :
  String.length (s1 +:+ s2) = String.length s1 + String.length s2.
Proof. induction s1 as [|c s1 IH]; simpl; [reflexivity|by rewrite IH]. Qed.

(* ===================================================================== *)
(** ** Facts about the runner, the installer and the resolver *)
(* ===================================================================== *)

Section Facts.

Context {host : Host}.
Variables (venv_path app_path : string) (app_args : list string).

Local Abbreviation argv := (target_argv venv_path app_path app_args).
Local Abbreviation pip_event := (pip_install_event venv_path).
Local Abbreviation packages l := (map package_for (installable venv_path app_path l)).
Local Abbreviation pip_argv p := (pip_install_argv venv_path p).

Lemma run_app_in_venv_spec (w : world) :
  run_app_in_venv venv_path app_path app_args w =
  (Return (succeeded (os_run_target argv (app_environ app_path) false w).1),
   (os_run_target argv (app_environ app_path) false w).2,
   [EvRun argv (app_environ app_path) false]).
Proof.
  unfold run_app_in_venv, try_except, bind, check_call_target, ret, target_argv,
    checked, returncode_of.
  destruct (os_run_target _ _ false w) as [c w1]; simpl.
  destruct c as [| |rc err|rc]; simpl; try reflexivity; destruct (rc =? 0)%Z; reflexivity.
Qed.

(** [install_single_dependency], evaluated. *)
Lemma install_single_dependency_eval (package : string) (w : world) :
  install_single_dependency venv_path package w =
  (installation (os_run_pip (pip_argv package) w).1,
   (os_run_pip (pip_argv package) w).2, [pip_event package]).
Proof.
  unfold install_single_dependency, try_except, bind, check_call_pip, ret,
    sys_exit, raise, pip_install_event, pip_install_argv, installation, checked,
    returncode_of.
  destruct (os_run_pip _ w) as [c w1]; simpl.
  destruct c as [| |rc err|rc]; simpl; try reflexivity; destruct (rc =? 0)%Z; reflexivity.
Qed.

Lemma installation_cases (c : completed) :
  (installation c = Return tt /\ succeeded c = true) \/
  (succeeded c = false /\
   (installation c = Raise (SystemExit 1) \/ installation c = Raise OSError \/
    installation c = Raise OtherOSError)).
Proof.
  unfold installation, returncode_of, succeeded.
  destruct c as [| |rc err|rc]; auto; destruct (rc =? 0)%Z; auto.
Qed.

(** The ways [install_single_dependency] can end. *)
Lemma install_single_dependency_spec (package : string) (w : world) :
  exists r w1,
    install_single_dependency venv_path package w = (r, w1, [pip_event package]) /\
    (r = Return tt \/ r = Raise (SystemExit 1) \/ r = Raise OSError \/
     r = Raise OtherOSError).
Proof.
  rewrite install_single_dependency_eval. eexists _, _. split; [reflexivity|].
  destruct (installation_cases (os_run_pip (pip_argv package) w).1)
    as [[-> _] | [_ [-> | [-> | ->]]]]; auto.
Qed.

(** One step of an installation loop. *)
Lemma install_module_eval (m : string) (w : world) :
  install_module venv_path app_path m w =
  match is_local_module venv_path app_path m with
  | Raise e => (Raise e, w, [])
  | Return true => (Return tt, w, [])
  | Return false => install_single_dependency venv_path (package_for m) w
  end.
Proof.
  unfold install_module, bind, pure, ret.
  destruct (is_local_module venv_path app_path m) as [[]|e]; try reflexivity.
  by destruct (install_single_dependency venv_path (package_for m) w) as [[r w1] t].
Qed.

Lemma is_local_module_raises (m : string) (e : exn) :
  is_local_module venv_path app_path m = Raise e -> e = OtherOSError.
Proof.
  unfold is_local_module, exists_.
  repeat match goal with
         | |- context [path_exists ?p] => destruct (path_exists p) as [[]|]
         end; intros [=]; done.
Qed.

(** One installation loop: the packages of the identifiers that are found
    not to be local are installed in order, up to the first installation
    that fails or the first test that raises. *)
Lemma for_each_install_run (l : list string) (w : world) :
  exists r w1 a,
    for_each l (install_module venv_path app_path) w = (r, w1, map pip_event a) /\
    a `prefix_of` packages l /\
    match r with
    | Return _ =>
        examined venv_path app_path l = true /\ a = packages l /\
        installs_ok venv_path w a w1
    | Raise e =>
        (e = OtherOSError /\ examined venv_path app_path l = false /\
         a = packages l /\ installs_ok venv_path w a w1) \/
        (exists a0 p w0,
           a = a0 ++ [p] /\ installs_ok venv_path w a0 w0 /\
           installation (os_run_pip (pip_argv p) w0).1 = Raise e /\
           w1 = (os_run_pip (pip_argv p) w0).2)
    end.
Proof.
  revert w. induction l as [|m l IH]; intros w.
  - exists (Return tt), w, []. cbn. unfold ret.
    repeat split; auto. constructor.
  - cbn [for_each installable examined]. unfold bind at 1.
    rewrite install_module_eval.
    destruct (is_local_module venv_path app_path m) as [[]|e] eqn:Hloc.
    + destruct (IH w) as (r & w1 & a & Heq & Hpre & Hr).
      rewrite Heq. exists r, w1, a. auto.
    + rewrite install_single_dependency_eval.
      destruct (installation_cases (os_run_pip (pip_argv (package_for m)) w).1)
        as [[Hinst Hok] | [Hok Hinst]].
      * rewrite Hinst.
        destruct (IH (os_run_pip (pip_argv (package_for m)) w).2)
          as (r & w1 & a & Heq & Hpre & Hr).
        rewrite Heq. exists r, w1, (package_for m :: a).
        split; [reflexivity|]. split; [by apply prefix_cons|].
        destruct r as [u|e].
        -- destruct Hr as (Hex & -> & Hinstalls).
           repeat split; auto. by constructor.
        -- destruct Hr as [(-> & Hex & -> & Hinstalls) |
                           (a0 & p & w0 & -> & Hinstalls & Hfail & ->)].
           ++ left. repeat split; auto. by constructor.
           ++ right. exists (package_for m :: a0), p, w0.
              repeat split; auto. by constructor.
      * assert (exists e, installation (os_run_pip (pip_argv (package_for m)) w).1 = Raise e)
          as [e He] by (destruct Hinst as [-> | [-> | ->]]; eauto).
        rewrite He.
        exists (Raise e), (os_run_pip (pip_argv (package_for m)) w).2, [package_for m].
        split; [reflexivity|]. split.
        { cbn [map]. apply prefix_cons, prefix_nil. }
        right. exists [], (package_for m), w. repeat split; auto. constructor.
    + apply is_local_module_raises in Hloc as ->.
      exists (Raise OtherOSError), w, []. split; [reflexivity|].
      split; [done|]. left. repeat split; auto. constructor.
Qed.

Lemma installs_ok_app (w w0 w' : world) (a b : list string) :
  installs_ok venv_path w a w0 -> installs_ok venv_path w0 b w' ->
  installs_ok venv_path w (a ++ b) w'.
Proof.
  induction 1 as [w|w p a w0 Hok Ha IH]; intros Hb; [exact Hb|].
  cbn [app]. constructor; [exact Hok|]. by apply IH.
Qed.

Lemma installs_ok_app_inv (w w' : world) (a b : list string) :
  installs_ok venv_path w (a ++ b) w' ->
  exists w0, installs_ok venv_path w a w0 /\ installs_ok venv_path w0 b w'.
Proof.
  revert w. induction a as [|p a IH]; intros w H.
  - exists w. split; [constructor|exact H].
  - cbn [app] in H. inversion H as [|w1 p1 l1 w2 Hok Hrest]; subst.
    destruct (IH _ Hrest) as (w0 & Ha & Hb).
    exists w0. split; [by constructor|exact Hb].
Qed.

Lemma installs_ok_unique (w w1 w2 : world) (a : list string) :
  installs_ok venv_path w a w1 -> installs_ok venv_path w a w2 -> w1 = w2.
Proof.
  induction 1 as [w|w p a w1 Hok Ha IH]; intros H2.
  - by inversion H2.
  - inversion H2; subst. by apply IH.
Qed.

(** A pip call that follows successful ones and fails shows that the
    packages are not all installed. *)
Lemma installs_ok_fails (w w0 w' : world) (a0 rest : list string) (p : string) (e : exn) :
  installs_ok venv_path w a0 w0 ->
  installation (os_run_pip (pip_argv p) w0).1 = Raise e ->
  ~ installs_ok venv_path w (a0 ++ p :: rest) w'.
Proof.
  intros Ha0 Hfail Hall.
  apply installs_ok_app_inv in Hall as (w0' & Ha0' & Hrest).
  rewrite <- (installs_ok_unique _ _ _ _ Ha0 Ha0') in Hrest.
  inversion Hrest as [|w1 p1 l1 w2 Hok _]; subst.
  destruct (installation_cases (os_run_pip (pip_argv p) w0).1) as [[Hi _] | [Hno _]];
    congruence.
Qed.

Lemma packages_installable (l : list string) :
  Forall (installable_package venv_path app_path) (packages l).
Proof.
  induction l as [|m l IH]; [constructor|].
  cbn [installable].
  destruct (is_local_module venv_path app_path m) as [[]|e] eqn:Hloc;
    [exact IH| |constructor].
  cbn [map]. constructor; [|exact IH]. by exists m.
Qed.

Lemma batch_installable (ids : list string) :
  Forall (installable_package venv_path app_path) (batch venv_path app_path ids).
Proof.
  unfold batch. apply Forall_app. split; [apply packages_installable|].
  destruct (examined _ _ _); [apply packages_installable|constructor].
Qed.

(** No local module is among the installable identifiers. *)
Lemma installable_not_local (l : list string) (m : string) :
  m ∈ installable venv_path app_path l ->
  is_local_module venv_path app_path m = Return false.
Proof.
  induction l as [|x l IH]; cbn [installable]; [by intros ?%elem_of_nil|].
  destruct (is_local_module venv_path app_path x) as [[]|e] eqn:Hloc;
    [exact IH| |by intros ?%elem_of_nil].
  intros [->|Hin]%elem_of_cons; [exact Hloc|by apply IH].
Qed.

(** The identifiers of a tier that are installable belong to the tier. *)
Lemma installable_subseteq (l : list string) :
  installable venv_path app_path l ⊆ l.
Proof.
  induction l as [|x l IH]; cbn [installable]; [done|].
  destruct (is_local_module venv_path app_path x) as [[]|e].
  - intros m Hm. right. by apply IH.
  - intros m [->|Hm]%elem_of_cons; [left|right; by apply IH].
  - intros m Hm. by apply elem_of_nil in Hm.
Qed.

(** The resolver on a failed diagnostic execution with identifiers, in
    terms of its two installation loops. *)
Lemma handle_missing_dependencies_loops
    (force_install : bool) (w : world) (rc : Z) (err : string) :
  (os_run_target argv os_environ true w).1 = Completed rc err ->
  rc <> 0%Z ->
  find_missing_modules err <> [] ->
  handle_missing_dependencies venv_path app_path app_args force_install w =
  let w1 := (os_run_target argv os_environ true w).2 in
  let '(r1, w2, t1) :=
    for_each (primary_tier (find_missing_modules err))
      (install_module venv_path app_path) w1 in
  match r1 with
  | Raise e =>
      (if is_Exception e then Return false else Raise e, w2,
       diagnostic_run venv_path app_path app_args :: t1)
  | Return _ =>
      let '(r2, w3, t2) :=
        for_each (secondary_tier (find_missing_modules err))
          (install_module venv_path app_path) w2 in
      (match r2 with
       | Raise e => if is_Exception e then Return false else Raise e
       | Return _ => Return true
       end, w3, diagnostic_run venv_path app_path app_args :: t1 ++ t2)
  end.
Proof.
  intros Hdiag Hrc Hids. apply Z.eqb_neq in Hrc.
  unfold handle_missing_dependencies, diagnostic_run, target_argv in *.
  unfold bind, try_except, run_target_piped, ret.
  destruct (os_run_target _ os_environ true w) as [c w1]; simpl in *. subst c.
  cbn [captured_of]. rewrite Hrc. simpl.
  rewrite bool_decide_eq_false_2 by exact Hids. simpl.
  fold (primary_tier (find_missing_modules err)).
  fold (secondary_tier (find_missing_modules err)).
  destruct (for_each (primary_tier _) _ w1) as [[[[]|e1] w2] t1].
  - destruct (for_each (secondary_tier _) _ w2) as [[[[]|e2] w3] t2].
    + by rewrite ?app_nil_r.
    + destruct e2; simpl; by rewrite ?app_nil_r.
  - destruct e1; simpl; by rewrite ?app_nil_r.
Qed.

(** The resolver when the diagnostic execution gives it nothing to work
    on. *)
Lemma handle_missing_dependencies_nothing (force_install : bool) (w : world) :
  identifiers_of (os_run_target argv os_environ true w).1 = [] ->
  handle_missing_dependencies venv_path app_path app_args force_install w =
    (Return false, (os_run_target argv os_environ true w).2,
     [diagnostic_run venv_path app_path app_args]).
Proof.
  unfold handle_missing_dependencies, diagnostic_run, target_argv, identifiers_of.
  unfold bind, try_except, run_target_piped, ret.
  destruct (os_run_target _ os_environ true w) as [c w1]; simpl.
  destruct c as [| |rc err|rc]; simpl; try reflexivity.
  destruct (rc =? 0)%Z eqn:Hrc; simpl; [reflexivity|].
  intros Hids. rewrite Hids. simpl.
  by rewrite (find_missing_modules_nil_no_signature _ Hids).
Qed.

Lemma identifiers_of_cons (c : completed) :
  identifiers_of c <> [] ->
  exists rc err, c = Completed rc err /\ rc <> 0%Z /\
                 identifiers_of c = find_missing_modules err.
Proof.
  unfold identifiers_of. destruct c as [| |rc err|rc]; try done.
  destruct (rc =? 0)%Z eqn:Hrc; [done|]. apply Z.eqb_neq in Hrc. eauto.
Qed.

(** The resolver on a failed diagnostic execution with identifiers: what it
    installs, and how its result depends on the tests for local modules and
    on the answers of pip. *)
Lemma handle_missing_dependencies_run
    (force_install : bool) (w : world) (rc : Z) (err : string) :
  let w1 := (os_run_target argv os_environ true w).2 in
  let ids := find_missing_modules err in
  (os_run_target argv os_environ true w).1 = Completed rc err ->
  rc <> 0%Z ->
  ids <> [] ->
  exists r w2 a,
    handle_missing_dependencies venv_path app_path app_args force_install w =
      (r, w2, diagnostic_run venv_path app_path app_args :: map pip_event a) /\
    a `prefix_of` batch venv_path app_path ids /\
    match r with
    | Return true =>
        examined venv_path app_path (primary_tier ids) = true /\
        examined venv_path app_path (secondary_tier ids) = true /\
        a = batch venv_path app_path ids /\ installs_ok venv_path w1 a w2
    | Return false =>
        ((examined venv_path app_path (primary_tier ids) = false \/
          examined venv_path app_path (secondary_tier ids) = false) /\
         a = batch venv_path app_path ids /\ installs_ok venv_path w1 a w2) \/
        (exists a0 p w0,
           a = a0 ++ [p] /\ installs_ok venv_path w1 a0 w0 /\
           (installation (os_run_pip (pip_argv p) w0).1 = Raise OSError \/
            installation (os_run_pip (pip_argv p) w0).1 = Raise OtherOSError) /\
           w2 = (os_run_pip (pip_argv p) w0).2)
    | Raise e =>
        e = SystemExit 1 /\
        exists a0 p w0,
          a = a0 ++ [p] /\ installs_ok venv_path w1 a0 w0 /\
          installation (os_run_pip (pip_argv p) w0).1 = Raise (SystemExit 1) /\
          w2 = (os_run_pip (pip_argv p) w0).2
    end.
Proof.
  intros w1 ids Hdiag Hrc Hids.
  rewrite (handle_missing_dependencies_loops force_install w rc err Hdiag Hrc Hids).
  cbv zeta. fold w1. fold ids. unfold batch.
  assert (Hfailure : forall c e, installation c = Raise e ->
            e = SystemExit 1 \/ e = OSError \/ e = OtherOSError).
  { intros c e He. destruct (installation_cases c) as [[Hc _] | [_ [Hc | [Hc | Hc]]]];
      rewrite Hc in He; try discriminate; injection He as <-; auto. }
  destruct (for_each_install_run (primary_tier ids) w1) as (r1 & w2 & a1 & -> & Hpre1 & Hr1).
  destruct r1 as [u1|e1].
  - destruct Hr1 as (Hex1 & -> & Hok1). rewrite Hex1.
    destruct (for_each_install_run (secondary_tier ids) w2)
      as (r2 & w3 & a2 & -> & Hpre2 & Hr2).
    exists (match r2 with
            | Return _ => Return true
            | Raise e => if is_Exception e then Return false else Raise e
            end), w3, (packages (primary_tier ids) ++ a2).
    split; [by rewrite map_app|]. split; [by apply prefix_app|].
    destruct r2 as [u2|e2].
    + destruct Hr2 as (Hex2 & -> & Hok2). repeat split; auto.
      by eapply installs_ok_app.
    + destruct Hr2 as [(-> & Hex2 & -> & Hok2) | (a0 & p & w0 & -> & Hok2 & Hfail & ->)].
      * simpl. left. repeat split; auto. by eapply installs_ok_app.
      * destruct (Hfailure _ _ Hfail) as [-> | [-> | ->]]; simpl.
        -- split; [reflexivity|].
           exists (packages (primary_tier ids) ++ a0), p, w0.
           rewrite app_assoc. repeat split; auto. by eapply installs_ok_app.
        -- right. exists (packages (primary_tier ids) ++ a0), p, w0.
           rewrite app_assoc. repeat split; auto. by eapply installs_ok_app.
        -- right. exists (packages (primary_tier ids) ++ a0), p, w0.
           rewrite app_assoc. repeat split; auto. by eapply installs_ok_app.
  - exists (if is_Exception e1 then Return false else Raise e1), w2, a1.
    split; [reflexivity|]. split; [by apply prefix_app_r|].
    destruct Hr1 as [(-> & Hex1 & -> & Hok1) | (a0 & p & w0 & -> & Hok1 & Hfail & ->)].
    + simpl. left. rewrite Hex1, app_nil_r. repeat split; auto.
    + destruct (Hfailure _ _ Hfail) as [-> | [-> | ->]]; simpl.
      * split; [reflexivity|]. exists a0, p, w0. auto.
      * right. exists a0, p, w0. auto.
      * right. exists a0, p, w0. auto.
Qed.

(** When every test for a local module answers and every installation of
    the batch succeeds, the resolver installs the batch and returns
    [True]. *)
Lemma handle_missing_dependencies_succeeds
    (force_install : bool) (w w' : world) (rc : Z) (err : string) :
  (os_run_target argv os_environ true w).1 = Completed rc err ->
  rc <> 0%Z ->
  find_missing_modules err <> [] ->
  examined venv_path app_path (primary_tier (find_missing_modules err)) = true ->
  examined venv_path app_path (secondary_tier (find_missing_modules err)) = true ->
  installs_ok venv_path (os_run_target argv os_environ true w).2
    (batch venv_path app_path (find_missing_modules err)) w' ->
  handle_missing_dependencies venv_path app_path app_args force_install w =
    (Return true, w',
     diagnostic_run venv_path app_path app_args
       :: map pip_event (batch venv_path app_path (find_missing_modules err))).
Proof.
  intros Hdiag Hrc Hids Hex1 Hex2 Hok.
  destruct (handle_missing_dependencies_run force_install w rc err Hdiag Hrc Hids)
    as (r & w2 & a & -> & Hpre & Hr).
  assert (Hfails : forall a0 p w0 e,
            a = a0 ++ [p] -> installs_ok venv_path (os_run_target argv os_environ true w).2 a0 w0 ->
            installation (os_run_pip (pip_argv p) w0).1 = Raise e -> False).
  { intros a0 p w0 e -> Ha0 Hfail. destruct Hpre as [rest Hrest].
    rewrite Hrest, <- app_assoc in Hok. cbn [app] in Hok.
    by eapply installs_ok_fails. }
  destruct r as [[]|e].
  - destruct Hr as (_ & _ & -> & Hok').
    by rewrite (installs_ok_unique _ _ _ _ Hok Hok').
  - exfalso. destruct Hr as [([Hno | Hno] & _) | (a0 & p & w0 & Ha & Ha0 & Hfail & _)];
      [congruence|congruence|].
    destruct Hfail as [Hfail | Hfail]; by eapply Hfails.
  - exfalso. destruct Hr as (_ & a0 & p & w0 & Ha & Ha0 & Hfail & _). by eapply Hfails.
Qed.

(** The resolver in one statement: it runs the target once more and then
    installs a prefix of the batch of the identifiers it works on. *)
Lemma handle_missing_dependencies_batch (force_install : bool) (w : world) :
  let ids := identifiers_of (os_run_target argv os_environ true w).1 in
  exists r w2 k,
    handle_missing_dependencies venv_path app_path app_args force_install w =
      (r, w2, diagnostic_run venv_path app_path app_args
                :: map pip_event (take k (batch venv_path app_path ids))) /\
    k <= length (batch venv_path app_path ids) /\
    (r = Return true \/ r = Return false \/ r = Raise (SystemExit 1)) /\
    (r = Return true -> k = length (batch venv_path app_path ids) /\ ids <> []) /\
    (ids = [] -> r = Return false).
Proof.
  cbv zeta.
  destruct (identifiers_of (os_run_target argv os_environ true w).1) as [|m ids0] eqn:Hids.
  - rewrite handle_missing_dependencies_nothing by exact Hids.
    exists (Return false), (os_run_target argv os_environ true w).2, 0.
    repeat split; auto; try discriminate.
  - destruct (identifiers_of_cons (os_run_target argv os_environ true w).1)
      as (rc & err & Hdiag & Hrc & Heq); [by rewrite Hids|].
    rewrite Hids in Heq.
    destruct (handle_missing_dependencies_run force_install w rc err Hdiag Hrc)
      as (r & w2 & a & Hrun & Hpre & Hr); [by rewrite <- Heq|].
    rewrite <- Heq in *.
    exists r, w2, (length a).
    assert (Htake : take (length a) (batch venv_path app_path (m :: ids0)) = a).
    { destruct Hpre as [rest ->]. by rewrite take_app_length. }
    rewrite Htake. split; [exact Hrun|].
    split; [by apply prefix_length|].
    destruct r as [[]|e].
    + destruct Hr as (_ & _ & -> & _). repeat split; auto; discriminate.
    + repeat split; auto; discriminate.
    + destruct Hr as [-> _]. repeat split; auto; discriminate.
Qed.

(** One iteration of the loop: the primary execution, and after a failure
    before the last attempt the resolver and the sleep. *)
Lemma attempt_body_cases (force_install : bool) (delay_seconds : Z) (attempt : nat) (w : world) :
  exists r w1 t,
    attempt_body venv_path app_path app_args force_install delay_seconds attempt w =
      (r, w1, primary_run venv_path app_path app_args :: t) /\
    ((r = Return Returned /\ t = []) \/
     (r = Return NextIteration /\ t = [] /\ max_attempts <= attempt) \/
     (attempt < max_attempts /\
      exists packages,
        Forall (installable_package venv_path app_path) packages /\
        (((exists e, r = Raise e) /\
          t = diagnostic_run venv_path app_path app_args :: map pip_event packages) \/
         (r = Return NextIteration /\
          t = diagnostic_run venv_path app_path app_args :: map pip_event packages
                ++ [EvSleep delay_seconds])))).
Proof.
  unfold attempt_body. unfold bind at 1. rewrite run_app_in_venv_spec.
  unfold primary_run.
  destruct (os_run_target argv (app_environ app_path) false w) as [c w1]; simpl.
  destruct (succeeded c).
  - exists (Return Returned), w1, []. split; [reflexivity|]. left. auto.
  - unfold bind at 1.
    destruct (attempt <? max_attempts)%nat eqn:Hlt.
    + apply Nat.ltb_lt in Hlt.
      unfold bind at 1.
      destruct (handle_missing_dependencies_batch force_install w1)
        as (r & w2 & k & Heq & _ & Hr & _).
      rewrite Heq.
      set (pk := take k (batch venv_path app_path _)).
      assert (Hpk : Forall (installable_package venv_path app_path) pk)
        by apply Forall_take, batch_installable.
      destruct Hr as [-> | [-> | ->]].
      * unfold bind at 1. unfold ret at 1. unfold time_sleep.
        destruct (sleep_error delay_seconds) as [e|].
        -- exists (Raise e), w2, (diagnostic_run venv_path app_path app_args :: map pip_event pk).
           simpl. rewrite ?app_nil_r. split; [reflexivity|].
           right. right. split; [exact Hlt|]. exists pk. split; [exact Hpk|]. left. eauto.
        -- exists (Return NextIteration), (os_sleep delay_seconds w2),
             (diagnostic_run venv_path app_path app_args :: map pip_event pk ++ [EvSleep delay_seconds]).
           simpl. rewrite ?app_nil_r. split; [reflexivity|].
           right. right. split; [exact Hlt|]. exists pk. split; [exact Hpk|]. right. auto.
      * exists (Raise (SystemExit 1)), w2, (diagnostic_run venv_path app_path app_args :: map pip_event pk).
        simpl. rewrite ?app_nil_r. split; [reflexivity|].
        right. right. split; [exact Hlt|]. exists pk. split; [exact Hpk|]. left. eauto.
      * exists (Raise (SystemExit 1)), w2, (diagnostic_run venv_path app_path app_args :: map pip_event pk).
        simpl. rewrite ?app_nil_r. split; [reflexivity|].
        right. right. split; [exact Hlt|]. exists pk. split; [exact Hpk|]. left. eauto.
    + apply Nat.ltb_ge in Hlt.
      exists (Return NextIteration), w1, []. split; [reflexivity|].
      right. left. auto.
Qed.

(** The loop ends whenever the fuel covers the iterations that are left and
    the final test of the loop condition; its trace has the shape
    [loop_trace]. *)
Lemma while_attempts_trace (force_install : bool) (delay_seconds : Z) (fuel attempt : nat) (w : world) :
  0 < fuel ->
  max_attempts + 1 < fuel + attempt ->
  exists r w1 t,
    while_attempts fuel venv_path app_path app_args force_install delay_seconds attempt w =
      Some (r, w1, t) /\
    loop_trace venv_path app_path app_args delay_seconds attempt t.
Proof.
  revert attempt w. induction fuel as [|fuel IH]; intros attempt w Hpos Hfuel; [lia|].
  cbn [while_attempts].
  destruct (attempt <=? max_attempts)%nat eqn:Hle.
  - apply Nat.leb_le in Hle.
    destruct (attempt_body_cases force_install delay_seconds attempt w)
      as (r & w1 & t & Heq & Hcases).
    rewrite Heq.
    destruct Hcases as [[-> ->] | [(-> & -> & Hmax) | (Hlt & pk & Hpk & [[[e ->] ->] | [-> ->]])]].
    + eexists _, _, _. split; [reflexivity|]. by apply loop_trace_return.
    + destruct (IH (attempt + 1) w1) as (r2 & w2 & t2 & Heq2 & Ht2); [lia..|].
      rewrite Heq2. eexists _, _, _. split; [reflexivity|].
      apply loop_trace_last; [lia|]. by rewrite Nat.add_1_r in Ht2.
    + eexists _, _, _. split; [reflexivity|]. by apply loop_trace_stop.
    + destruct (IH (attempt + 1) w1) as (r2 & w2 & t2 & Heq2 & Ht2); [lia..|].
      rewrite Heq2. eexists _, _, _. split; [reflexivity|].
      cbn [app]. rewrite <- app_assoc. cbn [app].
      apply loop_trace_retry; [exact Hlt|exact Hpk|]. by rewrite Nat.add_1_r in Ht2.
  - apply Nat.leb_gt in Hle.
    eexists _, _, _. split; [reflexivity|]. by apply loop_trace_exhausted.
Qed.

(** [run_application] always ends. *)
Lemma run_application_trace (force_install : bool) (delay_seconds : Z) (w : world) :
  exists r w1 t,
    run_application venv_path app_path app_args force_install delay_seconds w =
      Some (r, w1, t) /\
    loop_trace venv_path app_path app_args delay_seconds 1 t.
Proof.
  apply while_attempts_trace; unfold max_attempts; lia.
Qed.

(** In a loop trace from [attempt] on, at most one primary execution per
    remaining attempt, and one diagnostic execution per remaining attempt
    but the last. *)
Lemma loop_trace_counts (delay_seconds : Z) (attempt : nat) (t : list event) :
  loop_trace venv_path app_path app_args delay_seconds attempt t ->
  count is_primary_run t <= max_attempts + 1 - attempt /\
  count is_diagnostic_run t <= max_attempts - attempt.
Proof.
  induction 1 as [a Ha | a Ha | a pk Ha Hpk | a pk t Ha Hpk Ht [IH1 IH2] | a t Ha Ht [IH1 IH2]];
    rewrite ?count_cons, ?count_app, ?count_cons, ?count_nil,
      ?(count_map_pip is_primary_run), ?(count_map_pip is_diagnostic_run) by reflexivity;
    unfold primary_run, diagnostic_run, max_attempts in *; simpl in *; lia.
Qed.

Lemma loop_trace_events (delay_seconds : Z) (attempt : nat) (t : list event) :
  loop_trace venv_path app_path app_args delay_seconds attempt t ->
  Forall (loop_event venv_path app_path app_args delay_seconds) t.
Proof.
  assert (Hpips : forall pk, Forall (installable_package venv_path app_path) pk ->
            Forall (loop_event venv_path app_path app_args delay_seconds) (map pip_event pk)).
  { intros pk Hpk. apply Forall_fmap. eapply Forall_impl; [exact Hpk|].
    intros p Hp. by apply loop_event_pip. }
  induction 1 as [a Ha | a Ha | a pk Ha Hpk | a pk t Ha Hpk Ht IH | a t Ha Ht IH].
  - constructor.
  - repeat constructor.
  - do 2 (constructor; [constructor|]). by apply Hpips.
  - do 2 (constructor; [constructor|]). apply Forall_app. split; [by apply Hpips|].
    constructor; [constructor|exact IH].
  - constructor; [constructor|exact IH].
Qed.

(** Every diagnostic execution of a trace of the loop directly follows a
    primary execution. *)
Lemma loop_trace_paired (delay_seconds : Z) (attempt : nat) (t : list event) :
  loop_trace venv_path app_path app_args delay_seconds attempt t ->
  forall before after,
    t = before ++ diagnostic_run venv_path app_path app_args :: after ->
    exists earlier, before = earlier ++ [primary_run venv_path app_path app_args].
Proof.
  assert (Hne : primary_run venv_path app_path app_args <>
                diagnostic_run venv_path app_path app_args) by discriminate.
  assert (Hpips : forall packages x y tail,
            map pip_event packages ++ tail =
              x ++ diagnostic_run venv_path app_path app_args :: y ->
            exists x', x = map pip_event packages ++ x' /\
                       tail = x' ++ diagnostic_run venv_path app_path app_args :: y).
  { induction packages as [|p packages IH]; intros x y tail Heq.
    - exists x. auto.
    - destruct x as [|e x]; [discriminate|].
      cbn [map app] in Heq. injection Heq as <- Heq.
      destruct (IH _ _ _ Heq) as (x' & -> & ->). by exists x'. }
  induction 1 as [a Ha|a Ha|a packages Ha Hpk|a packages t Ha Hpk Ht IH|a t Ha Ht IH];
    intros before after Heq.
  - by destruct before.
  - destruct before as [|e [|e' before]]; discriminate || (injection Heq; congruence).
  - destruct before as [|e before]; [injection Heq; congruence|].
    injection Heq as <- Heq.
    destruct before as [|e before]; [by exists []|].
    injection Heq as <- Heq.
    rewrite <- (app_nil_r (map _ packages)) in Heq.
    destruct (Hpips _ _ _ _ Heq) as (x' & _ & Habs). by destruct x'.
  - destruct before as [|e before]; [injection Heq; congruence|].
    injection Heq as <- Heq.
    destruct before as [|e before]; [by exists []|].
    injection Heq as <- Heq.
    destruct (Hpips _ _ _ _ Heq) as (x' & -> & Htail).
    destruct x' as [|e x']; [discriminate|].
    injection Htail as <- Htail.
    destruct (IH _ _ Htail) as (earlier & ->).
    exists (primary_run venv_path app_path app_args
              :: diagnostic_run venv_path app_path app_args
              :: map pip_event packages ++ EvSleep delay_seconds :: earlier).
    cbn [app]. do 2 f_equal. by rewrite <- !app_assoc.
  - destruct before as [|e before]; [injection Heq; congruence|].
    injection Heq as <- Heq.
    destruct (IH _ _ Heq) as (earlier & ->).
    by exists (primary_run venv_path app_path app_args :: earlier).
Qed.

(** A list of local modules only has an empty batch, and every test of it
    gives an answer. *)
Lemma batch_all_local (ids : list string) :
  Forall (fun m => is_local_module venv_path app_path m = Return true) ids ->
  batch venv_path app_path ids = [] /\
  examined venv_path app_path (primary_tier ids) = true /\
  examined venv_path app_path (secondary_tier ids) = true.
Proof.
  intros Hall.
  assert (Hnone : forall l, l ⊆ ids ->
            installable venv_path app_path l = [] /\ examined venv_path app_path l = true).
  { induction l as [|m l IH]; intros Hl; [done|].
    cbn [installable examined].
    rewrite Forall_forall in Hall. rewrite (Hall m) by (apply Hl; left).
    apply IH. intros x Hx. apply Hl. by right. }
  unfold batch, primary_tier, secondary_tier.
  destruct (Hnone (filter (fun m => is_secondary m = false) ids)) as [-> ->].
  { intros m Hm. by apply list_elem_of_filter in Hm as [_ Hm]. }
  destruct (Hnone (filter (fun m => is_secondary m = true) ids)) as [-> ->].
  { intros m Hm. by apply list_elem_of_filter in Hm as [_ Hm]. }
  done.
Qed.

End Facts.

(* ===================================================================== *)
(** ** The resolver: result, local modules, order of installation *)
(* ===================================================================== *)

Section Resolver.

Context {host : Host}.
Variables (venv_path app_path : string) (app_args : list string).

Local Abbreviation argv := (target_argv venv_path app_path app_args).
Local Abbreviation pip_event := (pip_install_event venv_path).
Local Abbreviation hmd := (handle_missing_dependencies venv_path app_path app_args).
Local Abbreviation local m := (is_local_module venv_path app_path m = Return true).
Local Abbreviation pip_argv p := (pip_install_argv venv_path p).

(** C3 (amended). On a failing diagnostic execution the resolver returns
    [False], with no installation, when the classifier's list is empty. When
    the list is not empty it returns [True] exactly when every test for a
    local module gives an answer and every installation of the batch
    succeeds, and then it has installed the whole batch. When pip ends an
    installation with a non-zero status the resolver stops there with
    [sys.exit(1)]; it returns [False] when pip cannot be started or when a
    test for a local module raises. In particular a list of local modules
    only yields [True] although no installation is attempted. *)
Theorem resolved_iff_identifiers_found
    (force_install : bool) (w : world) (rc : Z) (err : string) :
  let w1 := (os_run_target argv os_environ true w).2 in
  let ids := find_missing_modules err in
  (os_run_target argv os_environ true w).1 = Completed rc err ->
  rc <> 0%Z ->
  exists r w2 t,
    hmd force_install w = (r, w2, diagnostic_run venv_path app_path app_args :: t) /\
    (r = Return true \/ r = Return false \/ r = Raise (SystemExit 1)) /\
    (ids = [] -> r = Return false /\ t = []) /\
    (ids <> [] ->
       (r = Return true <->
        examined venv_path app_path (primary_tier ids) = true /\
        examined venv_path app_path (secondary_tier ids) = true /\
        exists w', installs_ok venv_path w1 (batch venv_path app_path ids) w') /\
       (r = Return true ->
        t = map pip_event (batch venv_path app_path ids) /\
        installs_ok venv_path w1 (batch venv_path app_path ids) w2) /\
       (r = Raise (SystemExit 1) ->
        exists done package w' rc',
          t = map pip_event (done ++ [package]) /\
          (done ++ [package]) `prefix_of` batch venv_path app_path ids /\
          installs_ok venv_path w1 done w' /\
          returncode_of (os_run_pip (pip_argv package) w').1 = Return rc' /\
          rc' <> 0%Z) /\
       (r = Return false ->
        ((examined venv_path app_path (primary_tier ids) = false \/
          examined venv_path app_path (secondary_tier ids) = false) /\
         t = map pip_event (batch venv_path app_path ids) /\
         installs_ok venv_path w1 (batch venv_path app_path ids) w2) \/
        (exists done package w' e,
           t = map pip_event (done ++ [package]) /\
           (done ++ [package]) `prefix_of` batch venv_path app_path ids /\
           installs_ok venv_path w1 done w' /\
           returncode_of (os_run_pip (pip_argv package) w').1 = Raise e))) /\
    (ids <> [] -> Forall (fun m => local m) ids -> r = Return true /\ t = []).
Proof.
  intros w1 ids Hdiag Hrc.
  destruct (decide (ids = [])) as [Hnil|Hne].
  - exists (Return false), w1, [].
    split; [|repeat split; auto; try done].
    apply handle_missing_dependencies_nothing.
    rewrite Hdiag. simpl. apply Z.eqb_neq in Hrc. by rewrite Hrc.
  - destruct (handle_missing_dependencies_run venv_path app_path app_args
                force_install w rc err Hdiag Hrc Hne) as (r & w2 & a & Heq & Hpre & Hr).
    fold w1 in Hr. fold ids in Hr, Hpre.
    exists r, w2, (map pip_event a).
    assert (Hsucceeds : forall w',
              examined venv_path app_path (primary_tier ids) = true ->
              examined venv_path app_path (secondary_tier ids) = true ->
              installs_ok venv_path w1 (batch venv_path app_path ids) w' ->
              r = Return true /\ a = batch venv_path app_path ids).
    { intros w' Hex1 Hex2 Hok.
      pose proof (handle_missing_dependencies_succeeds venv_path app_path app_args
                    force_install w w' rc err Hdiag Hrc Hne Hex1 Hex2 Hok) as Hs.
      rewrite Hs in Heq. injection Heq as <- <- Hmap. split; [reflexivity|].
      apply (f_equal installed) in Hmap. by rewrite !installed_map_pip in Hmap. }
    assert (Hcode : forall c,
              installation c = Raise (SystemExit 1) ->
              exists rc', returncode_of c = Return rc' /\ rc' <> 0%Z).
    { intros c. unfold installation.
      destruct c as [| |rc' err'|rc']; simpl; try discriminate;
        destruct (rc' =? 0)%Z eqn:Hz; try discriminate; apply Z.eqb_neq in Hz; eauto. }
    assert (Hstart : forall c,
              installation c = Raise OSError \/ installation c = Raise OtherOSError ->
              exists e, returncode_of c = Raise e).
    { intros c. unfold installation. destruct (returncode_of c) as [rc'|e]; [|eauto].
      destruct (rc' =? 0)%Z; intros [|]; discriminate. }
    split; [exact Heq|]. split; [|split; [|split]].
    + destruct r as [[]|e]; auto. destruct Hr as [-> _]. auto.
    + done.
    + intros _. split; [|split; [|split]].
      * split.
        -- intros ->. destruct Hr as (Hex1 & Hex2 & -> & Hok). eauto.
        -- intros (Hex1 & Hex2 & w' & Hok). by destruct (Hsucceeds w' Hex1 Hex2 Hok).
      * intros ->. by destruct Hr as (_ & _ & -> & Hok).
      * intros ->. destruct Hr as (_ & a0 & p & w0 & -> & Hok & Hfail & _).
        destruct (Hcode _ Hfail) as (rc' & Hrc' & Hnz).
        exists a0, p, w0, rc'. auto.
      * intros ->. destruct Hr as [(Hex & -> & Hok) | (a0 & p & w0 & -> & Hok & Hfail & _)].
        -- left. auto.
        -- right. destruct (Hstart _ Hfail) as (e & He). exists a0, p, w0, e. auto.
    + intros _ Hall.
      destruct (batch_all_local venv_path app_path ids Hall) as (Hbatch & Hex1 & Hex2).
      destruct (Hsucceeds w1 Hex1 Hex2) as [-> ->].
      { rewrite Hbatch. constructor. }
      by rewrite Hbatch.
Qed.

(** C5. Whatever the resolver installs stems, in order, from identifiers of
    the classifier's list that are not local modules: an identifier with a
    same-named [.py] file, or a same-named directory holding [__init__.py],
    beside the target is never among them. The same holds for every pip
    call of a whole run of the retry loop. *)
Theorem local_modules_never_installed
    (force_install : bool) (delay_seconds : Z) (w : world) :
  (exists r w2 l,
     hmd force_install w =
       (r, w2, diagnostic_run venv_path app_path app_args
                 :: map pip_event (map package_for l)) /\
     l `prefix_of`
       (installable venv_path app_path
          (primary_tier (identifiers_of (os_run_target argv os_environ true w).1)) ++
        installable venv_path app_path
          (secondary_tier (identifiers_of (os_run_target argv os_environ true w).1))) /\
     (forall m, local m -> m ∉ l)) /\
  (exists r w1 t,
     run_application venv_path app_path app_args force_install delay_seconds w =
       Some (r, w1, t) /\
     Forall (fun e => is_pip e = true ->
               exists m, is_local_module venv_path app_path m = Return false /\
                         e = pip_event (package_for m)) t).
Proof.
  split.
  - destruct (handle_missing_dependencies_batch venv_path app_path app_args force_install w)
      as (r & w2 & k & Heq & _).
    set (ids := identifiers_of _) in *.
    set (A := installable venv_path app_path (primary_tier ids)).
    set (B := installable venv_path app_path (secondary_tier ids)).
    set (B' := if examined venv_path app_path (primary_tier ids) then B else []).
    assert (HB : B' `prefix_of` B)
      by (unfold B'; destruct (examined _ _ _); [done|apply prefix_nil]).
    exists r, w2, (take k (A ++ B')).
    split; [|split].
    + rewrite Heq. do 3 f_equal. rewrite <- firstn_map, map_app. f_equal.
      unfold batch, B'. fold A B. by destruct (examined _ _ _).
    + etrans; [apply prefix_take|]. by apply prefix_app.
    + intros m Hloc Hin. apply subseteq_take in Hin.
      assert (m ∈ A ++ B) as [Hm | Hm]%elem_of_app.
      { apply elem_of_app in Hin as [Hin | Hin]; apply elem_of_app; [by left|right].
        destruct HB as [rest HB]. rewrite HB. apply elem_of_app. by left. }
      * apply installable_not_local in Hm. congruence.
      * apply installable_not_local in Hm. congruence.
  - destruct (run_application_trace venv_path app_path app_args force_install delay_seconds w)
      as (r & w1 & t & Heq & Ht).
    exists r, w1, t. split; [exact Heq|].
    apply loop_trace_events in Ht.
    eapply Forall_impl; [exact Ht|].
    intros e He Hpip. destruct He as [| |p (m & Hm & ->)|]; try discriminate.
    exists m. auto.
Qed.

(** C6. The installations of one attempt are those of primary-tier
    identifiers followed by those of secondary-tier identifiers (an
    identifier is secondary when its lower-cased form is in
    [SECONDARY_MODULES]): a secondary one is installed only after every
    primary installation of the attempt is done. When the resolver returns
    [True] both tiers were installed in full, and it does return [True]
    whenever every test for a local module answers and pip installs the
    packages of the primary tier followed by those of the secondary tier
    with success: so the secondary tier is installed also when the primary
    tier is empty. *)
Theorem secondary_tier_installed_last (force_install : bool) (w : world) :
  exists r w2 lp ls,
    hmd force_install w =
      (r, w2, diagnostic_run venv_path app_path app_args
                :: map pip_event (map package_for lp)
                ++ map pip_event (map package_for ls)) /\
    Forall (fun m => is_secondary m = false) lp /\
    Forall (fun m => is_secondary m = true) ls /\
    lp `prefix_of` installable venv_path app_path
         (primary_tier (identifiers_of (os_run_target argv os_environ true w).1)) /\
    ls `prefix_of` installable venv_path app_path
         (secondary_tier (identifiers_of (os_run_target argv os_environ true w).1)) /\
    (ls <> [] ->
     lp = installable venv_path app_path
            (primary_tier (identifiers_of (os_run_target argv os_environ true w).1))) /\
    (r = Return true ->
     lp = installable venv_path app_path
            (primary_tier (identifiers_of (os_run_target argv os_environ true w).1)) /\
     ls = installable venv_path app_path
            (secondary_tier (identifiers_of (os_run_target argv os_environ true w).1))) /\
    (identifiers_of (os_run_target argv os_environ true w).1 <> [] ->
     examined venv_path app_path
       (primary_tier (identifiers_of (os_run_target argv os_environ true w).1)) = true ->
     examined venv_path app_path
       (secondary_tier (identifiers_of (os_run_target argv os_environ true w).1)) = true ->
     forall w',
       installs_ok venv_path (os_run_target argv os_environ true w).2
         (map package_for
            (installable venv_path app_path
               (primary_tier (identifiers_of (os_run_target argv os_environ true w).1))) ++
          map package_for
            (installable venv_path app_path
               (secondary_tier (identifiers_of (os_run_target argv os_environ true w).1))))
         w' ->
       r = Return true /\ w2 = w').
Proof.
  assert (Htier : forall (b : bool) l n,
            Forall (fun m => is_secondary m = b)
              (take n (installable venv_path app_path
                         (filter (fun m => is_secondary m = b) l)))).
  { intros b l n. apply Forall_forall. intros m Hm.
    apply subseteq_take, installable_subseteq in Hm.
    by apply list_elem_of_filter in Hm as [Hm _]. }
  destruct (decide (identifiers_of (os_run_target argv os_environ true w).1 = []))
    as [Hnil|Hne].
  - rewrite handle_missing_dependencies_nothing by exact Hnil. rewrite Hnil.
    exists (Return false), (os_run_target argv os_environ true w).2, [], [].
    repeat split; auto; try done.
  - destruct (identifiers_of_cons _ Hne) as (rc & err & Hdiag & Hrc & Hids).
    rewrite Hids in *.
    destruct (handle_missing_dependencies_run venv_path app_path app_args
                force_install w rc err Hdiag Hrc Hne) as (r & w2 & a & Heq & Hpre & Hr).
    set (ids := find_missing_modules err) in *.
    set (A := installable venv_path app_path (primary_tier ids)) in *.
    set (B := installable venv_path app_path (secondary_tier ids)) in *.
    set (B' := if examined venv_path app_path (primary_tier ids) then B else []).
    assert (HB : B' `prefix_of` B)
      by (unfold B'; destruct (examined _ _ _); [done|apply prefix_nil]).
    assert (Hbatch : batch venv_path app_path ids = map package_for A ++ map package_for B')
      by (unfold batch, B'; fold A B; by destruct (examined _ _ _)).
    assert (Ha : a = map package_for (take (length a) A) ++
                     map package_for (take (length a - length A) B')).
    { destruct Hpre as [rest Hrest]. rewrite <- take_map_app, <- Hbatch, Hrest.
      by rewrite take_app_length. }
    exists r, w2, (take (length a) A), (take (length a - length A) B').
    split; [|split; [|split; [|split; [|split; [|split; [|split]]]]]].
    + rewrite Heq. rewrite <- map_app. by rewrite <- Ha.
    + apply (Htier false).
    + unfold B', B. destruct (examined _ _ _); [apply (Htier true)|].
      rewrite take_nil. constructor.
    + apply prefix_take.
    + etrans; [apply prefix_take|exact HB].
    + intros Hls. apply take_ge.
      destruct (decide (length A <= length a)) as [Hle|Hgt]; [exact Hle|].
      exfalso. apply Hls. replace (length a - length A) with 0 by lia. apply take_0.
    + intros ->. destruct Hr as (Hex1 & _ & Hall & _).
      rewrite Hall, Hbatch. unfold B'. rewrite Hex1.
      rewrite length_app, !length_map. split; apply take_ge; lia.
    + intros _ Hex1 Hex2 w' Hok.
      assert (Hok' : installs_ok venv_path (os_run_target argv os_environ true w).2
                       (batch venv_path app_path ids) w').
      { rewrite Hbatch. unfold B'. by rewrite Hex1. }
      pose proof (handle_missing_dependencies_succeeds venv_path app_path app_args
                    force_install w w' rc err Hdiag Hrc Hne Hex1 Hex2 Hok') as Hs.
      rewrite Hs in Heq. by injection Heq as <- <- _.
Qed.

(** The loop passes [force_install] to the resolver only. *)
Lemma while_attempts_force_install
    (f1 f2 : bool) (delay_seconds : Z) (fuel attempt : nat) (w : world) :
  while_attempts fuel venv_path app_path app_args f1 delay_seconds attempt w =
  while_attempts fuel venv_path app_path app_args f2 delay_seconds attempt w.
Proof.
  revert attempt w. induction fuel as [|fuel IH]; intros attempt w; [reflexivity|].
  cbn [while_attempts].
  change (attempt_body venv_path app_path app_args f1 delay_seconds attempt w)
    with (attempt_body venv_path app_path app_args f2 delay_seconds attempt w).
  destruct (attempt <=? max_attempts)%nat; [|reflexivity].
  destruct (attempt_body _ _ _ f2 _ _ w) as [[[[]|e] w1] t1]; try reflexivity.
  by rewrite IH.
Qed.

(** C9. The resolver and the whole retry loop do the same, in results,
    final world and trace of executions, installations and sleeps, for
    both values of the force flag. *)
Theorem force_install_is_ignored
    (f1 f2 : bool) (delay_seconds : Z) (w : world) :
  hmd f1 w = hmd f2 w /\
  run_application venv_path app_path app_args f1 delay_seconds w =
  run_application venv_path app_path app_args f2 delay_seconds w.
Proof.
  split; [reflexivity|]. apply while_attempts_force_install.
Qed.

(** The environment of the primary execution: [PYTHONPATH] starts with the
    directory of the target, every other variable is as in [os.environ]. *)
Lemma app_environ_lookup (name : string) :
  app_environ app_path !! name =
  if decide (name = "PYTHONPATH") then
    Some (if decide (default "" (os_environ !! "PYTHONPATH") = "")
          then path_parent app_path
          else path_parent app_path +:+ os_pathsep
                 +:+ default "" (os_environ !! "PYTHONPATH"))
  else os_environ !! name.
Proof.
  unfold app_environ.
  destruct (decide (name = "PYTHONPATH")) as [->|Hne].
  - rewrite lookup_insert_eq. f_equal.
    destruct (String.eqb_spec (default "" (os_environ !! "PYTHONPATH")) "") as [Heq|Hneq].
    + by rewrite decide_True.
    + by rewrite decide_False.
  - by rewrite lookup_insert_ne.
Qed.

Lemma app_environ_differs :
  path_parent app_path <> "" -> app_environ app_path <> os_environ.
Proof.
  intros Hdir Heq.
  pose proof (app_environ_lookup "PYTHONPATH") as H.
  rewrite Heq in H. rewrite decide_True in H by reflexivity.
  destruct (os_environ !! "PYTHONPATH") as [existing|] eqn:Hex; [|discriminate].
  simpl in H. injection H as H.
  destruct (decide (existing = "")) as [->|Hne]; [congruence|].
  apply (f_equal String.length) in H.
  rewrite !string_length_app in H.
  assert (String.length os_pathsep = 1)
    by (unfold os_pathsep; destruct (String.eqb os_name "nt"); reflexivity).
  lia.
Qed.

(** C10. [run_app_in_venv] executes the target once, in the environment in
    which the directory of the target is put in front of [PYTHONPATH];
    [handle_missing_dependencies] starts with an execution of the target in
    [os.environ] as it is. A run of the retry loop starts with a primary
    execution, each of its diagnostic executions directly follows the
    primary execution of the same attempt, and each of its executions is of
    one of these two kinds; the two environments differ. *)
Theorem executions_differ_in_environment
    (force_install : bool) (delay_seconds : Z) (w : world) :
  path_parent app_path <> "" ->
  (run_app_in_venv venv_path app_path app_args w).2 =
    [EvRun argv (app_environ app_path) false] /\
  (exists t, (hmd force_install w).2 = EvRun argv os_environ true :: t /\
             Forall (fun e => is_run e = false) t) /\
  (exists r w1 t,
     run_application venv_path app_path app_args force_install delay_seconds w =
       Some (r, w1, EvRun argv (app_environ app_path) false :: t) /\
     (forall before after,
        EvRun argv (app_environ app_path) false :: t =
          before ++ EvRun argv os_environ true :: after ->
        exists earlier, before = earlier ++ [EvRun argv (app_environ app_path) false]) /\
     Forall (fun e => match e with
                      | EvRun args env false => args = argv /\ env = app_environ app_path
                      | EvRun args env true => args = argv /\ env = os_environ
                      | _ => True
                      end) t) /\
  app_environ app_path !! "PYTHONPATH" =
    Some (if decide (default "" (os_environ !! "PYTHONPATH") = "")
          then path_parent app_path
          else path_parent app_path +:+ os_pathsep
                 +:+ default "" (os_environ !! "PYTHONPATH")) /\
  (forall name, name <> "PYTHONPATH" ->
     app_environ app_path !! name = os_environ !! name) /\
  app_environ app_path <> os_environ.
Proof.
  intros Hdir. split; [|split; [|split; [|split; [|split]]]].
  - by rewrite run_app_in_venv_spec.
  - destruct (handle_missing_dependencies_batch venv_path app_path app_args force_install w)
      as (r & w2 & k & Heq & _).
    rewrite Heq. eexists. split; [reflexivity|].
    apply Forall_forall. intros e He.
    apply list_elem_of_fmap in He as (p & -> & _). reflexivity.
  - destruct (run_application_trace venv_path app_path app_args force_install delay_seconds w)
      as (r & w1 & t & Heq & Ht).
    assert (exists t', t = primary_run venv_path app_path app_args :: t') as [t' ->].
    { inversion Ht; subst; eauto. unfold max_attempts in *. lia. }
    exists r, w1, t'. split; [exact Heq|]. split.
    + intros before after Hsplit.
      exact (loop_trace_paired venv_path app_path app_args _ _ _ Ht before after Hsplit).
    + apply loop_trace_events in Ht. apply Forall_cons in Ht as [_ Ht].
      eapply Forall_impl; [exact Ht|].
      intros e He. destruct He; simpl; auto.
  - rewrite app_environ_lookup. by rewrite decide_True.
  - intros name Hname. rewrite app_environ_lookup. by rewrite decide_False.
  - by apply app_environ_differs.
Qed.

End Resolver.
(* ===================================================================== *)
(** ** The retry loop: bounds on the executions, ends of the run *)
(* ===================================================================== *)

Section Orchestrator.

Context {host : Host}.
Variables (venv_path app_path : string) (app_args : list string).

Local Abbreviation argv := (target_argv venv_path app_path app_args).

(** C1 (amended). Every run of the retry loop ends, and in it
    [run_app_in_venv] executes the target at most [max_attempts] (12) times;
    [handle_missing_dependencies] executes it once more in each resolution
    cycle, at most [max_attempts - 1] times; so the target is executed at
    most [2 * max_attempts - 1] (23) times in total. *)
Theorem executions_bounded (force_install : bool) (delay_seconds : Z) (w : world) :
  exists r w1 t,
    run_application venv_path app_path app_args force_install delay_seconds w =
      Some (r, w1, t) /\
    count is_primary_run t <= max_attempts /\
    count is_diagnostic_run t <= max_attempts - 1 /\
    count is_run t <= 2 * max_attempts - 1.
Proof.
  destruct (run_application_trace venv_path app_path app_args force_install delay_seconds w)
    as (r & w1 & t & Heq & Ht).
  exists r, w1, t. split; [exact Heq|].
  apply loop_trace_counts in Ht as [Hp Hd].
  rewrite count_run_split. unfold max_attempts in *. lia.
Qed.

(** When the primary execution fails before the last attempt and the
    resolver answers false, the loop ends with [sys.exit(1)] right after
    the diagnostic execution. *)
Lemma while_attempts_unresolved
    (force_install : bool) (delay_seconds : Z) (fuel attempt : nat) (w w2 : world) :
  attempt < max_attempts ->
  succeeded (os_run_target argv (app_environ app_path) false w).1 = false ->
  handle_missing_dependencies venv_path app_path app_args force_install
    (os_run_target argv (app_environ app_path) false w).2 =
    (Return false, w2, [diagnostic_run venv_path app_path app_args]) ->
  while_attempts (S fuel) venv_path app_path app_args force_install delay_seconds attempt w =
    Some (Raise (SystemExit 1), w2,
          [primary_run venv_path app_path app_args;
           diagnostic_run venv_path app_path app_args]).
Proof.
  intros Hlt Hfail Hres.
  cbn [while_attempts].
  assert (Hle : (attempt <=? max_attempts)%nat = true) by (apply Nat.leb_le; lia).
  assert (Hltb : (attempt <? max_attempts)%nat = true) by (apply Nat.ltb_lt; lia).
  rewrite Hle. unfold attempt_body. unfold bind at 1.
  rewrite run_app_in_venv_spec, Hfail.
  unfold bind at 1. rewrite Hltb. unfold bind at 1.
  rewrite Hres. reflexivity.
Qed.

(** C7. If, on a failing attempt before the last one, the diagnostic
    execution fails and the classifier finds no identifier in its text, the
    loop ends at once with [sys.exit(1)]: after the diagnostic execution
    there is no installation, no sleep and no further execution of the
    target. *)
Theorem unresolved_stops_at_once
    (force_install : bool) (delay_seconds : Z) (fuel attempt : nat) (w : world)
    (rc : Z) (err : string) :
  let w1 := (os_run_target argv (app_environ app_path) false w).2 in
  attempt < max_attempts ->
  succeeded (os_run_target argv (app_environ app_path) false w).1 = false ->
  (os_run_target argv os_environ true w1).1 = Completed rc err ->
  rc <> 0%Z ->
  find_missing_modules err = [] ->
  while_attempts (S fuel) venv_path app_path app_args force_install delay_seconds attempt w =
    Some (Raise (SystemExit 1), (os_run_target argv os_environ true w1).2,
          [primary_run venv_path app_path app_args;
           diagnostic_run venv_path app_path app_args]).
Proof.
  intros w1 Hlt Hfail Hdiag Hrc Hids.
  apply while_attempts_unresolved; [exact Hlt|exact Hfail|].
  fold w1.
  apply handle_missing_dependencies_nothing.
  rewrite Hdiag. simpl. apply Z.eqb_neq in Hrc. by rewrite Hrc.
Qed.

(** C4 (amended). A target that cannot be started is not told apart from
    one that exits with a non-zero status: [run_app_in_venv] returns [False]
    for both, and the loop goes on to the resolver. When the diagnostic
    execution of the resolver cannot be started either, the resolver returns
    [False] and the loop ends with [sys.exit(1)] at that attempt, with no
    installation, no sleep and no further execution. *)
Theorem launch_failure_is_an_ordinary_failure
    (force_install : bool) (delay_seconds : Z) (fuel attempt : nat) (w : world) :
  let w1 := (os_run_target argv (app_environ app_path) false w).2 in
  attempt < max_attempts ->
  (os_run_target argv (app_environ app_path) false w).1 = NotStarted ->
  (os_run_target argv os_environ true w1).1 = NotStarted ->
  run_app_in_venv venv_path app_path app_args w =
    (Return false, w1, [primary_run venv_path app_path app_args]) /\
  (forall (w' : world) (rc : Z) (err : string),
     (os_run_target argv (app_environ app_path) false w').1 = Completed rc err ->
     rc <> 0%Z ->
     (run_app_in_venv venv_path app_path app_args w').1.1 =
     (run_app_in_venv venv_path app_path app_args w).1.1) /\
  while_attempts (S fuel) venv_path app_path app_args force_install delay_seconds attempt w =
    Some (Raise (SystemExit 1), (os_run_target argv os_environ true w1).2,
          [primary_run venv_path app_path app_args;
           diagnostic_run venv_path app_path app_args]).
Proof.
  intros w1 Hlt Hprimary Hdiag. split; [|split].
  - rewrite run_app_in_venv_spec, Hprimary. reflexivity.
  - intros w' rc err Hc Hrc. rewrite !run_app_in_venv_spec, Hc, Hprimary.
    simpl. apply Z.eqb_neq in Hrc. by rewrite Hrc.
  - apply while_attempts_unresolved; [exact Hlt|by rewrite Hprimary|].
    fold w1.
    apply handle_missing_dependencies_nothing. by rewrite Hdiag.
Qed.

End Orchestrator.

(* ===================================================================== *)
(** ** The model at concrete hosts *)
(* ===================================================================== *)

(** C1 as specified fails: when the target keeps missing a module that pip
    installs without effect, the target is executed 23 times, 12 times by
    [run_app_in_venv] and 11 times by [handle_missing_dependencies]. *)
Lemma executions_exceed_max_attempts :
  exists r w1 t,
    run_application (host := Scenario.recurring)
      Scenario.venv Scenario.app [] false 2 (0 : nat) = Some (r, w1, t) /\
    count is_primary_run t = 12 /\
    count is_diagnostic_run t = 11 /\
    count is_run t = 23 /\
    ~ count is_run t <= max_attempts.
Proof.
  eexists _, _, _. split; [vm_compute; reflexivity|].
  repeat split; try (vm_compute; reflexivity).
  vm_compute. lia.
Qed.

(** Whatever the loop does, [main] returns normally once the thread is
    joined, so the process exit status is 0. *)
Lemma main_exit_status_zero `{host : Host}
    (setup : M unit) (venv_path app_path : string) (app_args : list string)
    (force_install : bool) (delay_seconds : Z) (w w1 : world) (t1 : list event) :
  setup w = (Return tt, w1, t1) ->
  exists w2 t,
    main setup venv_path app_path app_args force_install delay_seconds w =
      Some (Return tt, w2, t) /\
    process_exit_status (Return tt : result unit) = 0%Z.
Proof.
  intros Hsetup. unfold main, thread_start_join. rewrite Hsetup.
  destruct (run_application_trace venv_path app_path app_args force_install delay_seconds w1)
    as (r & w2 & t & -> & _).
  eauto.
Qed.

(** C2, at three failing inputs. The loop ends with [sys.exit(1)] when
    the failure is not recognised, when the attempts are used up, and when
    pip fails; each time [main] returns normally and the exit status of the
    launcher is 0, not the non-zero status the specification asks for. *)
Theorem main_exit_status_after_failure :
  (exists w t,
     run_application (host := Scenario.unrecognised)
       Scenario.venv Scenario.app [] false 2 (0 : nat) =
       Some (Raise (SystemExit 1), w, t)) /\
  (exists r w t,
     main (host := Scenario.unrecognised) (ret tt)
       Scenario.venv Scenario.app [] false 2 (0 : nat) = Some (r, w, t) /\
     process_exit_status r = 0%Z) /\
  (exists w t,
     run_application (host := Scenario.recurring)
       Scenario.venv Scenario.app [] false 2 (0 : nat) =
       Some (Raise (SystemExit 1), w, t) /\ count is_primary_run t = max_attempts) /\
  (exists r w t,
     main (host := Scenario.recurring) (ret tt)
       Scenario.venv Scenario.app [] false 2 (0 : nat) = Some (r, w, t) /\
     process_exit_status r = 0%Z) /\
  (exists w t,
     run_application (host := Scenario.pip_fails)
       Scenario.venv Scenario.app [] false 2 (0 : nat) =
       Some (Raise (SystemExit 1), w, t) /\ installed t = ["x"]) /\
  (exists r w t,
     main (host := Scenario.pip_fails) (ret tt)
       Scenario.venv Scenario.app [] false 2 (0 : nat) = Some (r, w, t) /\
     process_exit_status r = 0%Z).
Proof.
  repeat split;
    (eexists _, _, _ || eexists _, _);
    repeat split; try (vm_compute; reflexivity).
Qed.

(** The exit status is 0 as well when the target succeeds. *)
Example main_exit_status_after_success :
  exists w t,
    run_application (host := Scenario.succeeding)
      Scenario.venv Scenario.app [] false 2 (0 : nat) = Some (Return tt, w, t) /\
    count is_primary_run t = 1 /\ installed t = [] /\
    process_exit_status (Return tt : result unit) = 0%Z.
Proof.
  eexists _, _. split; [vm_compute; reflexivity|].
  repeat split; vm_compute; reflexivity.
Qed.

(** C3 as specified fails: the target misses [helpers], which is the local
    file [helpers.py]; the resolver installs nothing and returns [True]. *)
Lemma resolved_without_installation :
  find_missing_modules (unicode := Scenario.latin1)
    "ModuleNotFoundError: No module named 'helpers'" = ["helpers"] /\
  is_local_module (host := Scenario.local_only) Scenario.venv Scenario.app "helpers" =
    Return true /\
  exists w t,
    handle_missing_dependencies (host := Scenario.local_only)
      Scenario.venv Scenario.app [] false (0 : nat) = (Return true, w, t) /\
    installed t = [] /\ count is_pip t = 0.
Proof.
  split; [vm_compute; reflexivity|]. split; [vm_compute; reflexivity|].
  eexists _, _. split; [vm_compute; reflexivity|].
  split; vm_compute; reflexivity.
Qed.

(** C4 as specified fails: the first start of the target fails, and the run
    goes on: the resolver executes the target, installs [requests], the loop
    sleeps and executes the target again, and the run ends in success. *)
Lemma launch_failure_is_retried :
  os_run_target (Host := Scenario.transient_launch_failure)
    (target_argv (host := Scenario.transient_launch_failure) Scenario.venv Scenario.app [])
    (app_environ (host := Scenario.transient_launch_failure) Scenario.app)
    false (0 : nat) = (NotStarted, 1) /\
  exists w t,
    run_application (host := Scenario.transient_launch_failure)
      Scenario.venv Scenario.app [] false 2 (0 : nat) = Some (Return tt, w, t) /\
    count is_primary_run t = 2 /\ count is_diagnostic_run t = 1 /\
    installed t = ["requests"] /\ count is_sleep t = 1.
Proof.
  split; [reflexivity|].
  eexists _, _. split; [vm_compute; reflexivity|].
  repeat split; vm_compute; reflexivity.
Qed.

(** A target that can never be started and a target that exits with a
    non-zero status and an unrecognised text end the run in the same way. *)
Example launch_failure_ends_like_unrecognised_failure :
  (run_app_in_venv (host := Scenario.no_interpreter)
     Scenario.venv Scenario.app [] (0 : nat)).1.1 = Return false /\
  (run_app_in_venv (host := Scenario.unrecognised)
     Scenario.venv Scenario.app [] (0 : nat)).1.1 = Return false /\
  (exists w t,
     run_application (host := Scenario.no_interpreter)
       Scenario.venv Scenario.app [] false 2 (0 : nat) =
       Some (Raise (SystemExit 1), w, t) /\ count is_run t = 2) /\
  (exists w t,
     run_application (host := Scenario.unrecognised)
       Scenario.venv Scenario.app [] false 2 (0 : nat) =
       Some (Raise (SystemExit 1), w, t) /\ count is_run t = 2).
Proof.
  split; [reflexivity|]. split; [reflexivity|].
  split; eexists _, _; (split; [vm_compute; reflexivity|vm_compute; reflexivity]).
Qed.

(** An empty primary tier does not keep the secondary tier from being
    installed. *)
Example secondary_only_installed :
  exists w t,
    handle_missing_dependencies (host := Scenario.secondary_only)
      Scenario.venv Scenario.app [] false (0 : nat) = (Return true, w, t) /\
    installed t = ["qtawesome"].
Proof.
  eexists _, _. split; vm_compute; reflexivity.
Qed.

(** The order of installation at a host whose target names a secondary
    identifier before a primary one. *)
Example two_tiers_order :
  exists w t,
    handle_missing_dependencies (host := Scenario.two_tiers)
      Scenario.venv Scenario.app [] false (0 : nat) = (Return true, w, t) /\
    installed t = ["Pillow"; "qtawesome"].
Proof.
  eexists _, _. split; vm_compute; reflexivity.
Qed.


(** The name of the missing module is too long for a file name: the test
    for a local module raises, and the resolver returns [False] with nothing
    installed. *)
Example long_identifier_is_unresolved :
  is_local_module (host := Cases.long_identifier) Scenario.venv Scenario.app
    Cases.long_name = Raise OtherOSError /\
  exists w,
    handle_missing_dependencies (host := Cases.long_identifier)
      Scenario.venv Scenario.app [] false (0 : nat) =
      (Return false, w,
       [diagnostic_run (host := Cases.long_identifier) Scenario.venv Scenario.app []]).
Proof. split; [vm_compute; reflexivity|]. eexists. vm_compute. reflexivity. Qed.

(** A module name with a letter beyond ASCII is found by the classifier
    and installed. *)
Example accented_identifier_is_installed :
  find_missing_modules (unicode := Scenario.latin1)
    ("No module named '" +:+ Cases.accented_name +:+ "'") = [Cases.accented_name] /\
  exists w t,
    handle_missing_dependencies (host := Cases.accented)
      Scenario.venv Scenario.app [] false (0 : nat) = (Return true, w, t) /\
    installed t = [Cases.accented_name].
Proof.
  split; [vm_compute; reflexivity|].
  eexists _, _. split; vm_compute; reflexivity.
Qed.

(** A diagnostic output that is not valid text: the resolver returns
    [False], whatever the exit status. A target that may not be executed
    is treated in the same way. *)
Example undecodable_output_is_unresolved :
  (exists w,
     handle_missing_dependencies (host := Cases.garbled)
       Scenario.venv Scenario.app [] false (0 : nat) =
       (Return false, w,
        [diagnostic_run (host := Cases.garbled) Scenario.venv Scenario.app []])) /\
  (exists w t,
     run_application (host := Cases.not_permitted)
       Scenario.venv Scenario.app [] false 2 (0 : nat) =
       Some (Raise (SystemExit 1), w, t) /\ count is_run t = 2).
Proof.
  split; [eexists; vm_compute; reflexivity|].
  eexists _, _. split; vm_compute; reflexivity.
Qed.

(** [pathlib]'s parent of a file in the root directory and of a bare file
    name. *)
Example posix_parent_of_short_paths :
  Scenario.posix_parent "/main.py" = "/" /\
  Scenario.posix_parent "main.py" = "." /\
  Scenario.posix_parent "/srv/app/main.py" = "/srv/app" /\
  Scenario.posix_join "/" "helpers.py" = "/helpers.py".
Proof. repeat split; vm_compute; reflexivity. Qed.
(* ===================================================================== *)
(** ** The theorems with hypotheses, at concrete hosts *)
(* ===================================================================== *)

(** The resolver's result at the host whose target misses the local module
    [helpers]: it returns [True] and installs nothing. *)
Lemma resolved_iff_identifiers_found_witness :
  exists w2,
    handle_missing_dependencies (host := Scenario.local_only)
      Scenario.venv Scenario.app [] false (0 : nat) =
      (Return true, w2,
       [diagnostic_run (host := Scenario.local_only) Scenario.venv Scenario.app []]).
Proof.
  destruct (resolved_iff_identifiers_found (host := Scenario.local_only)
              Scenario.venv Scenario.app [] false (0 : nat) 1
              "ModuleNotFoundError: No module named 'helpers'")
    as (r & w2 & t & Heq & _ & _ & _ & Hlocal).
  - reflexivity.
  - lia.
  - destruct Hlocal as [-> ->].
    + vm_compute. discriminate.
    + vm_compute. repeat constructor.
    + exists w2. exact Heq.
Defined.

(** The resolver at the host whose target misses [qtawesome] only: the
    primary tier is empty, and the secondary tier is installed. *)
Lemma secondary_tier_installed_last_witness :
  exists w2,
    handle_missing_dependencies (host := Scenario.secondary_only)
      Scenario.venv Scenario.app [] false (0 : nat) =
      (Return true, w2,
       [diagnostic_run (host := Scenario.secondary_only) Scenario.venv Scenario.app [];
        pip_install_event (host := Scenario.secondary_only) Scenario.venv "qtawesome"]).
Proof.
  destruct (secondary_tier_installed_last (host := Scenario.secondary_only)
              Scenario.venv Scenario.app [] false (0 : nat))
    as (r & w2 & lp & ls & Heq & _ & _ & _ & _ & _ & Hfull & Hok).
  destruct (Hok ltac:(vm_compute; discriminate) ltac:(vm_compute; reflexivity)
              ltac:(vm_compute; reflexivity) (1 : nat)) as [Hr _].
  - apply (installs_ok_cons (host := Scenario.secondary_only) Scenario.venv
             (1 : nat) "qtawesome" [] (1 : nat)); [reflexivity|].
    apply (installs_ok_nil (host := Scenario.secondary_only)).
  - destruct (Hfull Hr) as [Hlp Hls]. exists w2.
    rewrite Heq, Hr, Hlp, Hls. vm_compute. reflexivity.
Defined.

(** The end of the loop at the host whose target fails with a text no
    pattern recognises, at the first attempt. *)
Lemma unresolved_stops_at_once_witness :
  while_attempts (host := Scenario.unrecognised) (S max_attempts)
    Scenario.venv Scenario.app [] false 2 1 (0 : nat) =
  Some (Raise (SystemExit 1), 2,
        [primary_run (host := Scenario.unrecognised) Scenario.venv Scenario.app [];
         diagnostic_run (host := Scenario.unrecognised) Scenario.venv Scenario.app []]).
Proof.
  apply (unresolved_stops_at_once (host := Scenario.unrecognised)
           Scenario.venv Scenario.app [] false 2 max_attempts 1 (0 : nat) 1
           "Segmentation fault").
  - unfold max_attempts. lia.
  - reflexivity.
  - reflexivity.
  - lia.
  - vm_compute. reflexivity.
Defined.

(** The end of the loop at the host on which the interpreter can never be
    started, at the first attempt. *)
Lemma launch_failure_is_an_ordinary_failure_witness :
  while_attempts (host := Scenario.no_interpreter) (S max_attempts)
    Scenario.venv Scenario.app [] false 2 1 (0 : nat) =
  Some (Raise (SystemExit 1), 2,
        [primary_run (host := Scenario.no_interpreter) Scenario.venv Scenario.app [];
         diagnostic_run (host := Scenario.no_interpreter) Scenario.venv Scenario.app []]).
Proof.
  apply (launch_failure_is_an_ordinary_failure (host := Scenario.no_interpreter)
           Scenario.venv Scenario.app [] false 2 max_attempts 1 (0 : nat)).
  - unfold max_attempts. lia.
  - reflexivity.
  - reflexivity.
Defined.

(** The two environments at the host whose target fails every time. *)
Lemma executions_differ_in_environment_witness :
  app_environ (host := Scenario.recurring) Scenario.app !! "PYTHONPATH" = Some "/srv/app" /\
  app_environ (host := Scenario.recurring) Scenario.app <>
  os_environ (Host := Scenario.recurring).
Proof.
  destruct (executions_differ_in_environment (host := Scenario.recurring)
              Scenario.venv Scenario.app [] false 2 (0 : nat))
    as (_ & _ & _ & Hpath & _ & Hdiff).
  - vm_compute. discriminate.
  - split; [exact Hpath|exact Hdiff].
Defined.
(* ===================================================================== *)
(** ** More on the retry loop: how it ends *)
(* ===================================================================== *)

Section LoopOutcomes.

Context {host : Host}.
Variables (venv_path app_path : string) (app_args : list string).

Local Abbreviation argv := (target_argv venv_path app_path app_args).
Local Abbreviation pip_event := (pip_install_event venv_path).
Local Abbreviation primary := (primary_run venv_path app_path app_args).
Local Abbreviation diagnostic := (diagnostic_run venv_path app_path app_args).








(** X2. The delay is passed to [time.sleep] unchecked. When an attempt
    before the last one fails and the resolver returns [True], a delay that
    [time.sleep] refuses ends the loop with the exception of [time.sleep],
    without sleeping and without executing the target again: an
    [OverflowError] when the delay is beyond [SLEEP_MAX] seconds in either
    direction, a [ValueError] for any other negative delay. *)
Theorem refused_delay_ends_the_loop
    (force_install : bool) (delay_seconds : Z) (fuel attempt : nat)
    (w w2 : world) (t2 : list event) :
  (delay_seconds < 0 \/ SLEEP_MAX < delay_seconds)%Z ->
  attempt < max_attempts ->
  succeeded (os_run_target argv (app_environ app_path) false w).1 = false ->
  handle_missing_dependencies venv_path app_path app_args force_install
    (os_run_target argv (app_environ app_path) false w).2 = (Return true, w2, t2) ->
  while_attempts (S fuel) venv_path app_path app_args force_install delay_seconds attempt w =
    Some (Raise (if (SLEEP_MAX <? Z.abs delay_seconds)%Z then OverflowError else ValueError),
          w2, primary :: t2).
Proof.
  intros Hd Hlt Hfail Hres.
  cbn [while_attempts].
  assert (Hle : (attempt <=? max_attempts)%nat = true) by (apply Nat.leb_le; lia).
  assert (Hltb : (attempt <? max_attempts)%nat = true) by (apply Nat.ltb_lt; lia).
  assert (Herr : sleep_error delay_seconds =
                 Some (if (SLEEP_MAX <? Z.abs delay_seconds)%Z
                       then OverflowError else ValueError)).
  { unfold sleep_error. destruct (SLEEP_MAX <? Z.abs delay_seconds)%Z eqn:Hbig;
      [reflexivity|].
    apply Z.ltb_ge in Hbig.
    assert (Hneg : (delay_seconds <? 0)%Z = true) by (apply Z.ltb_lt; lia).
    by rewrite Hneg. }
  rewrite Hle. unfold attempt_body. unfold bind at 1.
  rewrite run_app_in_venv_spec, Hfail.
  unfold bind at 1. rewrite Hltb. unfold bind at 1. unfold bind at 1.
  rewrite Hres. unfold ret at 1. unfold time_sleep. rewrite Herr.
  cbn [app]. by rewrite !app_nil_r.
Qed.

(** X3. A primary execution that succeeds ends the loop at once, at any
    attempt: the loop returns, and nothing is executed, installed or slept
    after it. *)
Theorem success_ends_the_loop
    (force_install : bool) (delay_seconds : Z) (fuel attempt : nat) (w : world) :
  attempt <= max_attempts ->
  succeeded (os_run_target argv (app_environ app_path) false w).1 = true ->
  while_attempts (S fuel) venv_path app_path app_args force_install delay_seconds attempt w =
    Some (Return tt, (os_run_target argv (app_environ app_path) false w).2, [primary]).
Proof.
  intros Hle Hok. cbn [while_attempts].
  apply Nat.leb_le in Hle. rewrite Hle.
  unfold attempt_body. unfold bind at 1. rewrite run_app_in_venv_spec, Hok.
  reflexivity.
Qed.

(** X4. At the last attempt a failed primary execution is not diagnosed:
    the resolver is not called, nothing is installed, there is no sleep, and
    the loop ends with [sys.exit(1)]. *)
Theorem last_attempt_is_not_resolved
    (force_install : bool) (delay_seconds : Z) (fuel : nat) (w : world) :
  succeeded (os_run_target argv (app_environ app_path) false w).1 = false ->
  while_attempts (S (S fuel)) venv_path app_path app_args force_install delay_seconds
    max_attempts w =
    Some (Raise (SystemExit 1), (os_run_target argv (app_environ app_path) false w).2,
          [primary]).
Proof.
  intros Hfail. cbn [while_attempts].
  change (max_attempts <=? max_attempts)%nat with true. cbv iota.
  unfold attempt_body. unfold bind at 1. rewrite run_app_in_venv_spec, Hfail.
  unfold bind at 1.
  change (max_attempts <? max_attempts)%nat with false. cbv iota.
  unfold ret at 1. unfold ret at 1.
  change (max_attempts + 1 <=? max_attempts)%nat with false. cbv iota.
  reflexivity.
Qed.

(** X5. When the diagnostic execution exits with status 0, the failure of
    the primary execution is not looked into: the resolver returns [False]
    without reading the captured text, and the loop ends with
    [sys.exit(1)]. *)
Theorem diagnostic_success_ends_the_loop
    (force_install : bool) (delay_seconds : Z) (fuel attempt : nat) (w : world)
    (err : string) :
  let w1 := (os_run_target argv (app_environ app_path) false w).2 in
  attempt < max_attempts ->
  succeeded (os_run_target argv (app_environ app_path) false w).1 = false ->
  (os_run_target argv os_environ true w1).1 = Completed 0 err ->
  while_attempts (S fuel) venv_path app_path app_args force_install delay_seconds attempt w =
    Some (Raise (SystemExit 1), (os_run_target argv os_environ true w1).2,
          [primary; diagnostic]).
Proof.
  intros w1 Hlt Hfail Hdiag.
  apply while_attempts_unresolved; [exact Hlt|exact Hfail|].
  fold w1.
  apply handle_missing_dependencies_nothing. by rewrite Hdiag.
Qed.

End LoopOutcomes.

(* ===================================================================== *)
(** ** More on the resolver: what pip's answers lead to *)
(* ===================================================================== *)

Section Installations.

Context {host : Host}.
Variables (venv_path app_path : string) (app_args : list string).

Local Abbreviation argv := (target_argv venv_path app_path app_args).
Local Abbreviation pip_event := (pip_install_event venv_path).
Local Abbreviation diagnostic := (diagnostic_run venv_path app_path app_args).
Local Abbreviation packages l := (map package_for (installable venv_path app_path l)).
Local Abbreviation pip_argv p :=
  [path_join (path_join venv_path bin_dir) "pip"; "install"; p].

(** A loop over identifiers all of which are found to be local does
    nothing. *)
Lemma for_each_install_nothing (l : list string) (w : world) :
  packages l = [] ->
  examined venv_path app_path l = true ->
  for_each l (install_module venv_path app_path) w = (Return tt, w, []).
Proof.
  induction l as [|m l IH]; [reflexivity|].
  cbn [for_each installable examined]. unfold bind at 1. rewrite install_module_eval.
  destruct (is_local_module venv_path app_path m) as [[]|e] eqn:Hloc; try discriminate.
  intros Hl Hex. by rewrite (IH Hl Hex).
Qed.

(** A loop whose first installation does not succeed stops there. *)
Lemma for_each_install_first_fails (l : list string) (p : string) (rest : list string)
    (w : world) (e : exn) :
  packages l = p :: rest ->
  (install_single_dependency venv_path p w).1.1 = Raise e ->
  for_each l (install_module venv_path app_path) w =
    (Raise e, (os_run_pip (pip_argv p) w).2, [pip_event p]).
Proof.
  induction l as [|m l IH]; [discriminate|].
  cbn [for_each installable]. unfold bind at 1. rewrite install_module_eval.
  destruct (is_local_module venv_path app_path m) as [[]|e'] eqn:Hloc; try discriminate.
  - intros Hl He. by rewrite (IH Hl He).
  - cbn [map]. intros [= Hp Hrest] He.
    rewrite Hp. rewrite install_single_dependency_eval in *. simpl in He.
    by rewrite He.
Qed.

(** A batch that is not empty stems from a list of identifiers that is not
    empty, and its first package is the first one of the first tier that
    has one; the tests before it all answer. *)
Lemma batch_first (ids : list string) (p : string) (rest : list string) :
  batch venv_path app_path ids = p :: rest ->
  ids <> [] /\
  ((exists rest', packages (primary_tier ids) = p :: rest') \/
   (packages (primary_tier ids) = [] /\
    examined venv_path app_path (primary_tier ids) = true /\
    packages (secondary_tier ids) = p :: rest)).
Proof.
  intros Hbatch. split; [by intros ->|].
  unfold batch in Hbatch.
  destruct (packages (primary_tier ids)) as [|p0 l0] eqn:HP.
  - right. destruct (examined _ _ _); [auto|discriminate].
  - left. injection Hbatch as -> _. eauto.
Qed.

(** The resolver when the first installation of the batch does not
    succeed. *)
Lemma handle_missing_dependencies_first_fails
    (force_install : bool) (w : world) (rc : Z) (err : string)
    (p : string) (rest : list string) (e : exn) :
  let w1 := (os_run_target argv os_environ true w).2 in
  (os_run_target argv os_environ true w).1 = Completed rc err ->
  rc <> 0%Z ->
  batch venv_path app_path (find_missing_modules err) = p :: rest ->
  (install_single_dependency venv_path p w1).1.1 = Raise e ->
  handle_missing_dependencies venv_path app_path app_args force_install w =
    (if is_Exception e then Return false else Raise e,
     (os_run_pip (pip_argv p) w1).2, [diagnostic; pip_event p]).
Proof.
  intros w1 Hdiag Hrc Hbatch Hfail.
  destruct (batch_first _ _ _ Hbatch) as [Hids Hfirst].
  rewrite (handle_missing_dependencies_loops venv_path app_path app_args
             force_install w rc err Hdiag Hrc Hids).
  cbv zeta. fold w1.
  destruct Hfirst as [[rest' HP] | (HP & Hex & HS)].
  - by rewrite (for_each_install_first_fails _ p rest' w1 _ HP Hfail).
  - rewrite (for_each_install_nothing _ w1 HP Hex).
    by rewrite (for_each_install_first_fails _ p rest w1 _ HS Hfail).
Qed.

(** X6. The first installation of a batch that pip ends with a non-zero
    status ends the resolver with [sys.exit(1)]: nothing else of the batch
    is installed, and the resolver does not return. *)
Theorem failed_installation_is_fatal
    (force_install : bool) (w : world) (rc : Z) (err : string)
    (p : string) (rest : list string) (rc' : Z) (err' : string) :
  let w1 := (os_run_target argv os_environ true w).2 in
  (os_run_target argv os_environ true w).1 = Completed rc err ->
  rc <> 0%Z ->
  batch venv_path app_path (find_missing_modules err) = p :: rest ->
  (os_run_pip (pip_argv p) w1).1 = Completed rc' err' ->
  rc' <> 0%Z ->
  handle_missing_dependencies venv_path app_path app_args force_install w =
    (Raise (SystemExit 1), (os_run_pip (pip_argv p) w1).2, [diagnostic; pip_event p]).
Proof.
  intros w1 Hdiag Hrc Hbatch Hpip Hrc'.
  apply (handle_missing_dependencies_first_fails force_install w rc err p rest
           (SystemExit 1) Hdiag Hrc Hbatch).
  fold w1. rewrite install_single_dependency_eval. unfold installation, pip_install_argv.
  rewrite Hpip. simpl. apply Z.eqb_neq in Hrc'. by rewrite Hrc'.
Qed.

(** X7. When pip cannot be started for the first installation of a batch,
    the error is caught by the resolver: it returns [False] after that one
    attempt, with nothing installed. *)
Theorem unstartable_pip_is_unresolved
    (force_install : bool) (w : world) (rc : Z) (err : string)
    (p : string) (rest : list string) :
  let w1 := (os_run_target argv os_environ true w).2 in
  (os_run_target argv os_environ true w).1 = Completed rc err ->
  rc <> 0%Z ->
  batch venv_path app_path (find_missing_modules err) = p :: rest ->
  (os_run_pip (pip_argv p) w1).1 = NotStarted ->
  handle_missing_dependencies venv_path app_path app_args force_install w =
    (Return false, (os_run_pip (pip_argv p) w1).2, [diagnostic; pip_event p]).
Proof.
  intros w1 Hdiag Hrc Hbatch Hpip.
  apply (handle_missing_dependencies_first_fails force_install w rc err p rest
           OSError Hdiag Hrc Hbatch).
  fold w1. rewrite install_single_dependency_eval. unfold installation, pip_install_argv.
  by rewrite Hpip.
Qed.

(** When pip never fails, every list of packages is installed. *)
Lemma installs_ok_all (l : list string) (w : world) :
  (forall a w', exists err', (os_run_pip a w').1 = Completed 0 err') ->
  exists w', installs_ok venv_path w l w'.
Proof.
  intros Hok. revert w. induction l as [|p l IH]; intros w.
  - exists w. constructor.
  - destruct (IH (os_run_pip (pip_install_argv venv_path p) w).2) as [w' Hl].
    exists w'. constructor; [|exact Hl].
    destruct (Hok (pip_install_argv venv_path p) w) as [err' ->]. reflexivity.
Qed.

Lemma Forall_tier (P : string -> Prop) (b : bool) (l : list string) :
  Forall P l -> Forall P (filter (fun m => is_secondary m = b) l).
Proof.
  rewrite !Forall_forall. intros Hl m Hm.
  apply list_elem_of_filter in Hm as [_ Hm]. by apply Hl.
Qed.

(** When every test of a list answers, the installable identifiers are
    those for which the answer is [False]. *)
Lemma installable_filter (l : list string) :
  Forall (fun m => exists b, is_local_module venv_path app_path m = Return b) l ->
  examined venv_path app_path l = true /\
  installable venv_path app_path l =
    filter (fun m => is_local_module venv_path app_path m = Return false) l.
Proof.
  induction 1 as [|m l [b Hm] _ [IHex IHl]]; [done|].
  cbn [examined installable]. rewrite filter_cons, Hm.
  destruct b.
  - rewrite decide_False by discriminate. auto.
  - rewrite decide_True by reflexivity. by rewrite IHl.
Qed.

(** The resolver when every test answers and pip never fails. *)
Lemma handle_missing_dependencies_all
    (force_install : bool) (w : world) (rc : Z) (err : string) :
  (forall a w', exists err', (os_run_pip a w').1 = Completed 0 err') ->
  (os_run_target argv os_environ true w).1 = Completed rc err ->
  rc <> 0%Z ->
  find_missing_modules err <> [] ->
  Forall (fun m => exists b, is_local_module venv_path app_path m = Return b)
    (find_missing_modules err) ->
  exists w2,
    handle_missing_dependencies venv_path app_path app_args force_install w =
      (Return true, w2,
       diagnostic :: map pip_event (batch venv_path app_path (find_missing_modules err))).
Proof.
  intros Hok Hdiag Hrc Hids Hanswers.
  destruct (installs_ok_all (batch venv_path app_path (find_missing_modules err))
              (os_run_target argv os_environ true w).2 Hok) as [w2 Hinstalls].
  exists w2.
  apply (handle_missing_dependencies_succeeds venv_path app_path app_args
           force_install w w2 rc err Hdiag Hrc Hids); [| |exact Hinstalls].
  - apply installable_filter. unfold primary_tier. by apply Forall_tier.
  - apply installable_filter. unfold secondary_tier. by apply Forall_tier.
Qed.

(** X8. When every test for a local module answers and every installation
    succeeds, the resolver of a failed diagnostic execution with
    identifiers returns [True] after handing to pip, for every identifier
    that is not a local module, the package that [MODULE_PACKAGE_MAP] names
    for its lower-cased form, or the identifier itself when the table has
    no entry: the primary tier first, then the secondary tier, each in the
    order of the classifier's list. *)
Theorem successful_resolution_installs_the_batch
    (force_install : bool) (w : world) (rc : Z) (err : string) :
  (forall a w', exists err', (os_run_pip a w').1 = Completed 0 err') ->
  (os_run_target argv os_environ true w).1 = Completed rc err ->
  rc <> 0%Z ->
  find_missing_modules err <> [] ->
  Forall (fun m => exists b, is_local_module venv_path app_path m = Return b)
    (find_missing_modules err) ->
  exists w2 t,
    handle_missing_dependencies venv_path app_path app_args force_install w =
      (Return true, w2, diagnostic :: t) /\
    t = map pip_event
          (map (fun m => default m (MODULE_PACKAGE_MAP !! Text.lower m))
             (filter (fun m => is_local_module venv_path app_path m = Return false)
                (filter (fun m => is_secondary m = false) (find_missing_modules err)) ++
              filter (fun m => is_local_module venv_path app_path m = Return false)
                (filter (fun m => is_secondary m = true) (find_missing_modules err)))).
Proof.
  intros Hok Hdiag Hrc Hids Hanswers.
  destruct (handle_missing_dependencies_all force_install w rc err Hok Hdiag Hrc Hids Hanswers)
    as [w2 Heq].
  eexists w2, _. split; [exact Heq|].
  f_equal. unfold batch.
  destruct (installable_filter (primary_tier (find_missing_modules err))) as [-> ->];
    [unfold primary_tier; by apply Forall_tier|].
  destruct (installable_filter (secondary_tier (find_missing_modules err))) as [_ ->];
    [unfold secondary_tier; by apply Forall_tier|].
  by rewrite map_app.
Qed.

End Installations.
(* ===================================================================== *)
(** ** A failure that every resolution leaves in place *)
(* ===================================================================== *)

Section Recurring.

Context {host : Host}.
Variables (venv_path app_path : string) (app_args : list string).

Local Abbreviation argv := (target_argv venv_path app_path app_args).
Local Abbreviation primary := (primary_run venv_path app_path app_args).

Hypothesis primary_fails :
  forall w, succeeded (os_run_target argv (app_environ app_path) false w).1 = false.
Hypothesis diagnostic_names_a_module :
  forall w, exists rc err,
    (os_run_target argv os_environ true w).1 = Completed rc err /\
    rc <> 0%Z /\ find_missing_modules err <> [] /\
    Forall (fun m => exists b, is_local_module venv_path app_path m = Return b)
      (find_missing_modules err).
Hypothesis pip_succeeds :
  forall a w, exists err, (os_run_pip a w).1 = Completed 0 err.



End Recurring.

(* ===================================================================== *)
(** ** More on the classifier and the package table *)
(* ===================================================================== *)

Lemma list_ascii_of_string_app (a b : string) :
  list_ascii_of_string (a +:+ b) = list_ascii_of_string a ++ list_ascii_of_string b.
Proof. induction a as [|c a IH]; simpl; [reflexivity|by rewrite IH]. Qed.

Lemma starts_with_app (p s : list ascii) : Text.starts_with p (p ++ s) = true.
Proof.
  induction p as [|c p IH]; [by destruct s|].
  simpl. by rewrite Ascii.eqb_refl, IH.
Qed.

Lemma contains_app (needle before rest : list ascii) :
  Text.contains needle (before ++ needle ++ rest) = true.
Proof.
  induction before as [|c before IH].
  - simpl. destruct (needle ++ rest) eqn:H; simpl; rewrite <- H, starts_with_app; done.
  - simpl. rewrite IH. apply orb_true_r.
Qed.

Section MoreClassifier.

Context {unicode : Unicode}.

(** The bytes of a word character: an ASCII letter, digit or underscore, or
    bytes beyond ASCII. *)
Lemma is_word_bytes (ch : Text.character) :
  Text.is_word ch = true ->
  ch <> [] /\
  Forall (fun c => Text.is_ascii_word c = true \/ 128 <= nat_of_ascii c) ch.
Proof.
  destruct ch as [|c [|c' continuation]]; [discriminate| |].
  - cbn [Text.is_word]. intros [_ Hw]%andb_true_iff. split; [done|].
    constructor; [by left|constructor].
  - cbn [Text.is_word]. intros [[Hc Hcont]%andb_true_iff _]%andb_true_iff.
    split; [done|]. constructor.
    + right. apply Nat.leb_le in Hc. lia.
    + pose proof (proj1 (forallb_forall _ _) Hcont) as Hall.
      apply Forall_forall. intros x Hx.
      right. apply list_elem_of_In, Hall in Hx.
      unfold Text.is_continuation in Hx.
      apply andb_true_iff in Hx as [Hx _]. by apply Nat.leb_le in Hx.
Qed.

(** X10. Every identifier the classifier returns is a non-empty sequence
    of word characters, that is of letters and digits of any script and
    underscores; its bytes are ASCII letters, digits and underscores and
    bytes beyond ASCII: no dot, slash, space or quote ever reaches the
    resolver. *)
Theorem identifiers_are_words (error_message : string) :
  Forall (fun x =>
            (exists cap, x = Text.of_chars cap /\ cap <> [] /\
                         Forall (fun ch => Text.is_word ch = true) cap) /\
            x <> EmptyString /\
            Forall (fun c => Text.is_ascii_word c = true \/ 128 <= nat_of_ascii c)
              (list_ascii_of_string x))
    (find_missing_modules error_message).
Proof.
  eapply Forall_impl; [apply find_missing_modules_identifiers|].
  intros x (cap & -> & Hne & Hw). split; [by exists cap|].
  assert (Hbytes : Forall (fun c => Text.is_ascii_word c = true \/ 128 <= nat_of_ascii c)
                     (concat cap)).
  { apply Forall_concat. eapply Forall_impl; [exact Hw|].
    intros ch Hch. by apply is_word_bytes. }
  unfold Text.of_chars. rewrite list_ascii_of_string_of_list_ascii.
  split; [|exact Hbytes].
  destruct cap as [|ch cap]; [done|].
  apply Forall_cons in Hw as [Hch _]. apply is_word_bytes in Hch as [Hch _].
  destruct ch as [|c ch]; [done|]. discriminate.
Qed.

(** X11. A diagnostic text that contains the Qt signature is never left
    without an identifier: the classifier's list ends with [PyQt5],
    whatever else the text holds. *)
Theorem qt_signature_yields_pyqt5 (before rest : string) :
  last (find_missing_modules (before +:+ QT_BINDINGS_SIGNATURE +:+ rest)) = Some "PyQt5".
Proof.
  unfold find_missing_modules, Text.str_in.
  rewrite !list_ascii_of_string_app, contains_app.
  apply last_snoc.
Qed.

End MoreClassifier.

(** X12. The package installed for an identifier depends on its
    lower-cased form only through three entries: [pil] gives [Pillow],
    [qtawesome] gives [qtawesome], [qt_material] gives [qt-material]; every
    other identifier is installed under its own name, case kept. The
    secondary tier is made of the identifiers whose lower-cased form is
    [qtawesome] or [qt_material], and each of them has an entry. *)
Theorem package_table (m : string) :
  package_for m =
    (if decide (Text.lower m = "pil") then "Pillow"
     else if decide (Text.lower m = "qtawesome") then "qtawesome"
     else if decide (Text.lower m = "qt_material") then "qt-material"
     else m) /\
  (is_secondary m = true <->
   Text.lower m = "qtawesome" \/ Text.lower m = "qt_material") /\
  (is_secondary m = true -> is_Some (MODULE_PACKAGE_MAP !! Text.lower m)).
Proof.
  assert (Hsec : is_secondary m = true <->
                 Text.lower m = "qtawesome" \/ Text.lower m = "qt_material").
  { unfold is_secondary, SECONDARY_MODULES. rewrite bool_decide_eq_true.
    rewrite elem_of_union, !elem_of_singleton. reflexivity. }
  split; [|split; [exact Hsec|]].
  - unfold package_for, MODULE_PACKAGE_MAP.
    rewrite !lookup_insert.
    repeat case_decide; subst; try congruence; try reflexivity.
  - intros H. apply Hsec in H. unfold MODULE_PACKAGE_MAP.
    destruct H as [-> | ->]; vm_compute; eauto.
Qed.

(* ===================================================================== *)
(** ** The further theorems with hypotheses, at concrete hosts *)
(* ===================================================================== *)


Lemma refused_delay_ends_the_loop_witness :
  while_attempts (host := Scenario.recurring) (S max_attempts)
    Scenario.venv Scenario.app [] false (-1) 1 (0 : nat) =
  Some (Raise ValueError, 2,
        [primary_run (host := Scenario.recurring) Scenario.venv Scenario.app [];
         diagnostic_run (host := Scenario.recurring) Scenario.venv Scenario.app [];
         pip_install_event (host := Scenario.recurring) Scenario.venv "x"]).
Proof.
  apply (refused_delay_ends_the_loop (host := Scenario.recurring)
           Scenario.venv Scenario.app [] false (-1) max_attempts 1 (0 : nat) 2
           [diagnostic_run (host := Scenario.recurring) Scenario.venv Scenario.app [];
            pip_install_event (host := Scenario.recurring) Scenario.venv "x"]).
  - lia.
  - unfold max_attempts. lia.
  - reflexivity.
  - vm_compute. reflexivity.
Defined.

(** A delay of ten thousand million seconds, in either direction, is
    beyond what [time.sleep] can count. *)
Example huge_delay_overflows :
  (exists w t,
     run_application (host := Scenario.recurring)
       Scenario.venv Scenario.app [] false 10000000000 (0 : nat) =
       Some (Raise OverflowError, w, t) /\ count is_sleep t = 0) /\
  (exists w t,
     run_application (host := Scenario.recurring)
       Scenario.venv Scenario.app [] false (-10000000000) (0 : nat) =
       Some (Raise OverflowError, w, t) /\ count is_sleep t = 0).
Proof.
  split; eexists _, _; (split; [vm_compute; reflexivity|vm_compute; reflexivity]).
Qed.

Lemma success_ends_the_loop_witness :
  while_attempts (host := Scenario.succeeding) (S max_attempts)
    Scenario.venv Scenario.app [] false 2 1 (0 : nat) =
  Some (Return tt, 1,
        [primary_run (host := Scenario.succeeding) Scenario.venv Scenario.app []]).
Proof.
  apply (success_ends_the_loop (host := Scenario.succeeding)
           Scenario.venv Scenario.app [] false 2 max_attempts 1 (0 : nat)).
  - unfold max_attempts. lia.
  - reflexivity.
Defined.

Lemma last_attempt_is_not_resolved_witness :
  while_attempts (host := Scenario.recurring) 2
    Scenario.venv Scenario.app [] false 2 max_attempts (22 : nat) =
  Some (Raise (SystemExit 1), 23,
        [primary_run (host := Scenario.recurring) Scenario.venv Scenario.app []]).
Proof.
  apply (last_attempt_is_not_resolved (host := Scenario.recurring)
           Scenario.venv Scenario.app [] false 2 0 (22 : nat)).
  reflexivity.
Defined.

Lemma diagnostic_success_ends_the_loop_witness :
  while_attempts (host := Cases.flaky) (S max_attempts)
    Scenario.venv Scenario.app [] false 2 1 (0 : nat) =
  Some (Raise (SystemExit 1), 2,
        [primary_run (host := Cases.flaky) Scenario.venv Scenario.app [];
         diagnostic_run (host := Cases.flaky) Scenario.venv Scenario.app []]).
Proof.
  apply (diagnostic_success_ends_the_loop (host := Cases.flaky)
           Scenario.venv Scenario.app [] false 2 max_attempts 1 (0 : nat) "").
  - unfold max_attempts. lia.
  - reflexivity.
  - reflexivity.
Defined.

Lemma failed_installation_is_fatal_witness :
  handle_missing_dependencies (host := Scenario.pip_fails)
    Scenario.venv Scenario.app [] false (0 : nat) =
  (Raise (SystemExit 1), 1,
   [diagnostic_run (host := Scenario.pip_fails) Scenario.venv Scenario.app [];
    pip_install_event (host := Scenario.pip_fails) Scenario.venv "x"]).
Proof.
  apply (failed_installation_is_fatal (host := Scenario.pip_fails)
           Scenario.venv Scenario.app [] false (0 : nat) 1
           "ModuleNotFoundError: No module named 'x'" "x" [] 1 "").
  - reflexivity.
  - lia.
  - vm_compute. reflexivity.
  - reflexivity.
  - lia.
Defined.

Lemma unstartable_pip_is_unresolved_witness :
  handle_missing_dependencies (host := Cases.pip_missing)
    Scenario.venv Scenario.app [] false (0 : nat) =
  (Return false, 1,
   [diagnostic_run (host := Cases.pip_missing) Scenario.venv Scenario.app [];
    pip_install_event (host := Cases.pip_missing) Scenario.venv "x"]).
Proof.
  apply (unstartable_pip_is_unresolved (host := Cases.pip_missing)
           Scenario.venv Scenario.app [] false (0 : nat) 1
           "ModuleNotFoundError: No module named 'x'" "x" []).
  - reflexivity.
  - lia.
  - vm_compute. reflexivity.
  - reflexivity.
Defined.

Lemma successful_resolution_installs_the_batch_witness :
  exists w2,
    handle_missing_dependencies (host := Scenario.two_tiers)
      Scenario.venv Scenario.app [] false (0 : nat) =
      (Return true, w2,
       [diagnostic_run (host := Scenario.two_tiers) Scenario.venv Scenario.app [];
        pip_install_event (host := Scenario.two_tiers) Scenario.venv "Pillow";
        pip_install_event (host := Scenario.two_tiers) Scenario.venv "qtawesome"]).
Proof.
  destruct (successful_resolution_installs_the_batch (host := Scenario.two_tiers)
              Scenario.venv Scenario.app [] false (0 : nat) 1
              ("No module named 'qtawesome'" +:+ Text.newline +:+ "No module named 'PIL'"))
    as (w2 & t & Heq & Ht).
  - intros a w'. exists EmptyString. reflexivity.
  - reflexivity.
  - lia.
  - vm_compute. discriminate.
  - vm_compute. repeat constructor; by eexists.
  - exists w2. rewrite Heq, Ht. vm_compute. reflexivity.
Defined.

(* ===================================================================== *)
(** ** Facts about [strip], [split] and [splitlines] *)
(* ===================================================================== *)

Lemma starts_with_app_l (p a b : list ascii) :
  Text.starts_with p a = true -> Text.starts_with p (a ++ b) = true.
Proof.
  revert a. induction p as [|c p IH]; intros a H; [by destruct (a ++ b)|].
  destruct a as [|x a]; [discriminate|]. simpl in *.
  apply andb_true_iff in H as [-> H]. by rewrite IH.
Qed.

Lemma contains_nil_r (sep : list ascii) : sep <> [] -> Text.contains sep [] = false.
Proof. by destruct sep. Qed.

(** The first piece of [split]: a prefix of the text, free of the
    separator. *)
Lemma split_from_head (sep s : list ascii) :
  sep <> [] ->
  exists h pieces tail,
    Py.split_from sep 0 s = h :: pieces /\ s = h ++ tail /\
    Text.contains sep h = false.
Proof.
  intros Hsep. induction s as [|c s IH].
  - exists [], [], []. repeat split. by apply contains_nil_r.
  - cbn [Py.split_from].
    destruct (Text.starts_with sep (c :: s)) eqn:Hstart.
    + exists [], (Py.split_from sep (length sep - 1) s), (c :: s).
      repeat split. by apply contains_nil_r.
    + destruct IH as (h & pieces & tail & -> & -> & Hfree).
      exists (c :: h), pieces, tail. repeat split.
      cbn [Text.contains]. rewrite Hfree, orb_false_r.
      destruct (Text.starts_with sep (c :: h)) eqn:Hh; [|reflexivity].
      apply (starts_with_app_l _ _ tail) in Hh. cbn [app] in Hh. congruence.
Qed.

Lemma split_hd (sep s : list ascii) :
  sep <> [] ->
  (exists tail, s = hd [] (Py.split sep s) ++ tail) /\
  Text.contains sep (hd [] (Py.split sep s)) = false.
Proof.
  intros Hsep. unfold Py.split.
  destruct (split_from_head sep s Hsep) as (h & pieces & tail & -> & Hs & Hfree).
  simpl. split; [by exists tail|exact Hfree].
Qed.

Lemma lstrip_head (s : list ascii) :
  match Py.lstrip s with
  | c :: _ => Py.is_space c = false
  | [] => True
  end.
Proof.
  induction s as [|c s IH]; [exact I|].
  simpl. destruct (Py.is_space c) eqn:Hc; [exact IH|exact Hc].
Qed.

Lemma rstrip_prefix (s : list ascii) : exists tail, s = Py.rstrip s ++ tail.
Proof.
  induction s as [|c s [tail IH]]; [by exists []|].
  cbn [Py.rstrip]. destruct (Py.rstrip s) as [|x r] eqn:Hr.
  - destruct (Py.is_space c).
    + by exists (c :: s).
    + exists tail. simpl in *. by f_equal.
  - exists tail. cbn [app] in *. by f_equal.
Qed.

Lemma rstrip_last (s : list ascii) (c : ascii) :
  last (Py.rstrip s) = Some c -> Py.is_space c = false.
Proof.
  induction s as [|x s IH]; [discriminate|].
  cbn [Py.rstrip]. destruct (Py.rstrip s) as [|y r] eqn:Hr.
  - destruct (Py.is_space x) eqn:Hx; [discriminate|].
    intros [= <-]. exact Hx.
  - intros H. apply IH. exact H.
Qed.

Lemma strip_head (s : list ascii) :
  match Py.strip s with
  | c :: _ => Py.is_space c = false
  | [] => True
  end.
Proof.
  unfold Py.strip. pose proof (lstrip_head s) as H.
  destruct (rstrip_prefix (Py.lstrip s)) as [tail Heq].
  destruct (Py.rstrip (Py.lstrip s)) as [|c r]; [exact I|].
  rewrite Heq in H. exact H.
Qed.

Lemma strip_last (s : list ascii) (c : ascii) :
  last (Py.strip s) = Some c -> Py.is_space c = false.
Proof. apply rstrip_last. Qed.

Lemma linebreak_is_space (c : ascii) : Py.is_linebreak c = true -> Py.is_space c = true.
Proof.
  unfold Py.is_linebreak, Py.is_space. cbv zeta.
  generalize (nat_of_ascii c). intros n H.
  apply orb_true_iff in H as [H | H]; apply andb_true_iff in H as [H1 H2];
    apply Nat.leb_le in H1, H2; apply orb_true_iff; [left|right];
    apply andb_true_iff; split; apply Nat.leb_le; lia.
Qed.

Lemma lstrip_nonspace (c : ascii) (s : list ascii) :
  Py.is_space c = false -> Py.lstrip (c :: s) = c :: s.
Proof. intros H. simpl. by rewrite H. Qed.

Lemma rstrip_cons_nonspace (c : ascii) (s : list ascii) :
  Py.is_space c = false -> Py.rstrip (c :: s) = c :: Py.rstrip s.
Proof.
  intros H. cbn [Py.rstrip]. destruct (Py.rstrip s); [by rewrite H|reflexivity].
Qed.

Lemma rstrip_app_nonspace (a : list ascii) (c : ascii) (b : list ascii) :
  Py.is_space c = false -> Py.rstrip (a ++ c :: b) = a ++ c :: Py.rstrip b.
Proof.
  intros Hc. induction a as [|x a IH]; [by apply rstrip_cons_nonspace|].
  cbn [app Py.rstrip]. rewrite IH. by destruct a.
Qed.

(** A line without boundary characters, ended by a line feed, is the first
    line. *)
Lemma splitlines_line (line rest : list ascii) :
  Forall (fun c => Py.is_linebreak c = false) line ->
  Py.splitlines_from false (line ++ list_ascii_of_string Text.newline ++ rest) =
  line :: Py.splitlines_from false rest.
Proof.
  induction 1 as [|c line Hc Hline IH]; [reflexivity|].
  cbn [app Py.splitlines_from andb]. rewrite Hc.
  cbn [app] in IH. by rewrite IH.
Qed.

(** [split] at the first [==] behind a text without [=]. *)
Lemma split_eqeq_head (n rest : list ascii) :
  Forall (fun c => c <> "="%char) n ->
  hd [] (Py.split EQEQ (n ++ EQEQ ++ rest)) = n.
Proof.
  unfold Py.split. induction 1 as [|c n Hc Hn IH]; [reflexivity|].
  cbn [app Py.split_from].
  assert (Hstart : Text.starts_with EQEQ (c :: n ++ EQEQ ++ rest) = false).
  { change EQEQ with ["="%char; "="%char]. cbn [Text.starts_with].
    destruct (Ascii.eqb_spec "="%char c) as [Heq|]; [by subst|reflexivity]. }
  rewrite Hstart.
  destruct (Py.split_from EQEQ 0 (n ++ EQEQ ++ rest)) as [|h pieces]; simpl in *;
    by subst.
Qed.

(* ===================================================================== *)
(** ** The names read from [pip freeze] *)
(* ===================================================================== *)

(** X13. Every name [update_all_packages] reads from the output of
    [pip freeze] is free of [==], and does not begin with a space: it is the
    text of a line, stripped, up to its first [==]. *)
Theorem freeze_names_are_clean (installed : string) :
  Forall (fun name =>
            Text.contains EQEQ (list_ascii_of_string name) = false /\
            match list_ascii_of_string name with
            | c :: _ => Py.is_space c = false
            | [] => True
            end)
    (freeze_packages installed).
Proof.
  unfold freeze_packages. apply Forall_fmap, Forall_forall. intros line _.
  unfold compose. rewrite list_ascii_of_string_of_list_ascii.
  destruct (split_hd EQEQ (Py.strip line)) as [[tail Hprefix] Hfree]; [discriminate|].
  split; [exact Hfree|].
  pose proof (strip_head line) as Hhead. rewrite Hprefix in Hhead.
  destruct (hd [] (Py.split EQEQ (Py.strip line))); [exact I|exact Hhead].
Qed.

Lemma strip_entry (n v : list ascii) :
  Forall (fun c => Py.is_space c = false /\ c <> "="%char) n ->
  Py.strip (n ++ EQEQ ++ v) = n ++ EQEQ ++ Py.rstrip v.
Proof.
  intros Hn. unfold Py.strip.
  assert (Hl : Py.lstrip (n ++ EQEQ ++ v) = n ++ EQEQ ++ v).
  { destruct Hn as [|c n [Hc _] _]; [reflexivity|].
    cbn [app]. by apply lstrip_nonspace. }
  rewrite Hl. change (EQEQ ++ v) with ("="%char :: "="%char :: v).
  rewrite (rstrip_app_nonspace n) by reflexivity.
  rewrite rstrip_cons_nonspace by reflexivity. reflexivity.
Qed.

(** X14. Reading back what [pip freeze] prints: for names without spaces
    and without [=], and versions without line boundaries, the names
    [update_all_packages] reads from the lines [name==version] are the names
    that were printed, in order. *)
Theorem freeze_packages_of_freeze_text (entries : list (string * string)) :
  Forall (fun e =>
            Forall (fun c => Py.is_space c = false /\ c <> "="%char)
              (list_ascii_of_string e.1) /\
            Forall (fun c => Py.is_linebreak c = false) (list_ascii_of_string e.2))
    entries ->
  freeze_packages (freeze_text entries) = map fst entries.
Proof.
  unfold freeze_packages, freeze_text, Py.splitlines.
  rewrite list_ascii_of_string_of_list_ascii.
  induction 1 as [|[name version] entries [Hn Hv] _ IH]; [reflexivity|].
  cbn [map concat fst snd] in *.
  set (n := list_ascii_of_string name) in *.
  set (v := list_ascii_of_string version) in *.
  rewrite <- !app_assoc.
  assert (Hline : Forall (fun c => Py.is_linebreak c = false) (n ++ EQEQ ++ v)).
  { apply Forall_app. split; [|apply Forall_app; split; [by repeat constructor|exact Hv]].
    eapply Forall_impl; [exact Hn|]. intros c [Hc _].
    destruct (Py.is_linebreak c) eqn:Hb; [|reflexivity].
    apply linebreak_is_space in Hb. congruence. }
  replace (n ++ EQEQ ++ v ++ list_ascii_of_string Text.newline ++
           concat (map (fun e => list_ascii_of_string e.1 ++ EQEQ ++
                          list_ascii_of_string e.2 ++
                          list_ascii_of_string Text.newline) entries))
    with ((n ++ EQEQ ++ v) ++ list_ascii_of_string Text.newline ++
          concat (map (fun e => list_ascii_of_string e.1 ++ EQEQ ++
                          list_ascii_of_string e.2 ++
                          list_ascii_of_string Text.newline) entries))
    by (by rewrite <- !app_assoc).
  rewrite (splitlines_line _ _ Hline).
  rewrite filter_cons, decide_True by apply (contains_app EQEQ n v).
  cbn [map]. rewrite IH. f_equal.
  rewrite (strip_entry n v Hn).
  rewrite split_eqeq_head.
  - apply string_of_list_ascii_of_string.
  - eapply Forall_impl; [exact Hn|]. by intros c [_ Hc].
Qed.

(* ===================================================================== *)
(** ** The modules read from import lines *)
(* ===================================================================== *)

Lemma starts_with_split (p s : list ascii) :
  Text.starts_with p s = true -> exists rest, s = p ++ rest.
Proof.
  revert s. induction p as [|c p IH]; intros s H; [by exists s|].
  destruct s as [|x s]; [discriminate|]. simpl in H.
  apply andb_true_iff in H as [Hc H]. apply Ascii.eqb_eq in Hc as ->.
  destruct (IH s H) as [rest ->]. by exists rest.
Qed.

Lemma split_spaces_word (w : list ascii) (sp : ascii) (rest : list ascii) :
  w <> [] -> Forall (fun c => Py.is_space c = false) w -> Py.is_space sp = true ->
  Py.split_spaces (w ++ sp :: rest) = w :: Py.split_spaces rest.
Proof.
  intros Hne Hw Hsp. induction Hw as [|c w Hc Hw IH]; [done|].
  destruct w as [|c' w].
  - cbn [app Py.split_spaces]. by rewrite Hc, !Hsp.
  - cbn [app Py.split_spaces] in *. rewrite Hc.
    inversion Hw as [|? ? Hc' _]; subst. rewrite Hc' in *.
    rewrite IH by done. reflexivity.
Qed.

Lemma split_spaces_nil (s : list ascii) :
  Py.split_spaces s = [] -> Forall (fun c => Py.is_space c = true) s.
Proof.
  induction s as [|c s IH]; [constructor|].
  cbn [Py.split_spaces]. destruct (Py.is_space c) eqn:Hc.
  - intros H. constructor; [exact Hc|by apply IH].
  - destruct s as [|c' s]; [discriminate|].
    destruct (Py.is_space c'); [discriminate|].
    by destruct (Py.split_spaces (c' :: s)).
Qed.

Lemma split_spaces_tokens (s : list ascii) :
  Forall (fun t => Forall (fun c => Py.is_space c = false) t) (Py.split_spaces s).
Proof.
  induction s as [|c s IH]; [constructor|].
  cbn [Py.split_spaces]. destruct (Py.is_space c) eqn:Hc; [exact IH|].
  destruct s as [|c' s]; [by repeat constructor|].
  destruct (Py.is_space c') eqn:Hc'; [by repeat constructor|].
  destruct (Py.split_spaces (c' :: s)) as [|t ts]; [by repeat constructor|].
  inversion IH; subst. by repeat constructor.
Qed.

(** Behind a keyword and a space, a stripped line has a second word. *)
Lemma keyword_line_parts (word : list ascii) (line : list ascii) :
  word <> [] -> Forall (fun c => Py.is_space c = false) word ->
  Py.startswith (word ++ [" "%char]) (Py.strip line) = true ->
  exists p1 parts,
    Py.split_spaces (Py.strip line) = word :: p1 :: parts /\
    Forall (fun c => Py.is_space c = false) p1.
Proof.
  intros Hne Hword Hstart.
  apply starts_with_split in Hstart as [rest Heq].
  rewrite <- app_assoc in Heq. cbn [app] in Heq.
  assert (Hlast : forall c, last (Py.strip line) = Some c -> Py.is_space c = false)
    by apply strip_last.
  rewrite Heq in *.
  rewrite split_spaces_word by done.
  pose proof (split_spaces_tokens rest) as Htokens.
  destruct (Py.split_spaces rest) as [|p1 parts] eqn:Hrest.
  - exfalso. apply split_spaces_nil in Hrest.
    assert (Hsp : exists c, last (word ++ " "%char :: rest) = Some c /\ Py.is_space c = true).
    { rewrite last_app. destruct rest as [|x rest] using rev_ind.
      - by exists " "%char.
      - rewrite app_comm_cons, last_snoc. exists x. split; [reflexivity|].
        apply Forall_app in Hrest as [_ Hx]. by inversion Hx. }
    destruct Hsp as (c & Hc & Hsp). apply Hlast in Hc. congruence.
  - exists p1, parts. split; [reflexivity|]. by inversion Htokens.
Qed.

(** The body of the first loop never raises, and what it records is the
    text of the second word up to its first dot. *)
Lemma import_of_line_cases (line : string) :
  import_of_line line = NoImport \/
  exists module,
    import_of_line line = Imports module /\
    Text.contains DOT (list_ascii_of_string module) = false /\
    Forall (fun c => Py.is_space c = false) (list_ascii_of_string module).
Proof.
  unfold import_of_line.
  set (l := Py.strip (list_ascii_of_string line)).
  assert (Hmodule : forall p1, Forall (fun c => Py.is_space c = false) p1 ->
            Text.contains DOT (list_ascii_of_string
              (string_of_list_ascii (hd [] (Py.split DOT p1)))) = false /\
            Forall (fun c => Py.is_space c = false)
              (list_ascii_of_string (string_of_list_ascii (hd [] (Py.split DOT p1))))).
  { intros p1 Hp1. rewrite list_ascii_of_string_of_list_ascii.
    destruct (split_hd DOT p1) as [[tail Hprefix] Hfree]; [discriminate|].
    split; [exact Hfree|]. rewrite Hprefix in Hp1.
    by apply Forall_app in Hp1 as [Hp1 _]. }
  destruct (Py.startswith IMPORT_ l) eqn:Himport.
  - destruct (keyword_line_parts (list_ascii_of_string "import") (list_ascii_of_string line))
      as (p1 & parts & Hparts & Hp1); [discriminate|by repeat constructor|exact Himport|].
    fold l in Hparts. cbn [orb]. rewrite Hparts. cbn [lookup list_lookup].
    rewrite bool_decide_eq_true_2 by reflexivity.
    right. eexists. split; [reflexivity|]. by apply Hmodule.
  - destruct (Py.startswith FROM_ l) eqn:Hfrom; [|by left].
    destruct (keyword_line_parts (list_ascii_of_string "from") (list_ascii_of_string line))
      as (p1 & parts & Hparts & Hp1); [discriminate|by repeat constructor|exact Hfrom|].
    fold l in Hparts. cbn [orb]. rewrite Hparts. cbn [lookup list_lookup].
    rewrite bool_decide_eq_false_2 by discriminate.
    rewrite bool_decide_eq_true_2 by reflexivity.
    right. eexists. split; [reflexivity|]. by apply Hmodule.
Qed.

(** X15. The scan of the target's source for imports never fails on an
    index: for every list of lines the first loop of [copy_local_files]
    ends with a list of modules, and each module is free of dots and of
    spaces (it is the second word of its line up to the first dot). *)
Theorem import_modules_never_raises (import_lines : list string) :
  exists modules,
    import_modules import_lines = Some modules /\
    Forall (fun module =>
              Text.contains DOT (list_ascii_of_string module) = false /\
              Forall (fun c => Py.is_space c = false) (list_ascii_of_string module))
      modules.
Proof.
  induction import_lines as [|line rest (modules & IH & Hall)].
  - by exists [].
  - cbn [import_modules].
    destruct (import_of_line_cases line) as [-> | (module & -> & Hm)].
    + by exists modules.
    + rewrite IH. exists (module :: modules). split; [reflexivity|by constructor].
Qed.

(* ===================================================================== *)
(** ** How the commands of the launcher end *)
(* ===================================================================== *)

Section Endings.

Import Launcher.
Context {host : Host} {platform : Platform host}.

Lemma ends_weaken {A} (P Q : exn -> Prop) (m : L A) :
  ends_with P m -> (forall e, P e -> Q e) -> ends_with Q m.
Proof.
  intros Hm HPQ w. specialize (Hm w). destruct (m w).1.1; auto.
Qed.

Lemma ends_lret {A} (P : exn -> Prop) (a : A) : ends_with P (lret a).
Proof. by intros w. Qed.

Lemma ends_lexit {A} (P : exn -> Prop) (code : Z) :
  P (SystemExit code) -> ends_with P (lexit (A := A) code).
Proof. by intros H w. Qed.

Lemma ends_lbind {A B} (P : exn -> Prop) (m : L A) (f : A -> L B) :
  ends_with P m -> (forall a, ends_with P (f a)) -> ends_with P (lbind m f).
Proof.
  intros Hm Hf w. unfold lbind. specialize (Hm w).
  destruct (m w) as [[[a|e] w1] t1]; simpl in *; [|exact Hm].
  specialize (Hf a w1). by destruct (f a w1) as [[r2 w2] t2].
Qed.

Lemma ends_ltry {A} (P Q : exn -> Prop) (body : L A) (handler : exn -> option (L A)) :
  ends_with Q body ->
  (forall e, Q e -> match handler e with
                    | Some h => ends_with P h
                    | None => P e
                    end) ->
  ends_with P (ltry body handler).
Proof.
  intros Hbody Hh w. unfold ltry. specialize (Hbody w).
  destruct (body w) as [[[a|e] w1] t1]; simpl in *; [exact I|].
  specialize (Hh e Hbody). destruct (handler e) as [h|]; [|exact Hh].
  specialize (Hh w1). by destruct (h w1) as [[r2 w2] t2].
Qed.

Lemma ends_lfor {A} (P : exn -> Prop) (l : list A) (body : A -> L unit) :
  (forall x, ends_with P (body x)) -> ends_with P (lfor l body).
Proof.
  intros Hbody. induction l as [|x l IH]; [apply ends_lret|].
  cbn [lfor]. apply ends_lbind; [apply Hbody|by intros _].
Qed.

Lemma ends_if {A} (P : exn -> Prop) (b : bool) (m1 m2 : L A) :
  ends_with P m1 -> ends_with P m2 -> ends_with P (if b then m1 else m2).
Proof. by destruct b. Qed.

(** Any body under [except CalledProcessError] and [except Exception] with
    one handler: only a [SystemExit] of the body gets through. *)
Lemma ends_except_any {A} (P Q : exn -> Prop) (body h : L A) :
  ends_with Q body -> ends_with P h ->
  (forall e, Q e -> is_Exception e = false -> P e) ->
  ends_with P (ltry body (except_any h)).
Proof.
  intros Hbody Hh HQ. eapply ends_ltry; [exact Hbody|].
  intros e He. unfold except_any.
  destruct (is_CalledProcessError e); [exact Hh|].
  destruct (is_Exception e) eqn:Hexc; [exact Hh|by apply HQ].
Qed.

Lemma ends_except_exception {A} (P Q : exn -> Prop) (body h : L A) :
  ends_with Q body -> ends_with P h ->
  (forall e, Q e -> is_Exception e = false -> P e) ->
  ends_with P (ltry body (fun e => if is_Exception e then Some h else None)).
Proof.
  intros Hbody Hh HQ. eapply ends_ltry; [exact Hbody|].
  intros e He. destruct (is_Exception e) eqn:Hexc; [exact Hh|by apply HQ].
Qed.

Lemma ends_check_call (argv : list string) : ends_with process_error (check_call argv).
Proof.
  intros w. unfold check_call, process_error, checked.
  destruct (os_run_program argv w) as [[| |rc out|rc] w1]; simpl; auto;
    destruct (rc =? 0)%Z; simpl; eauto 6.
Qed.

Lemma ends_check_output (argv : list string) : ends_with process_error (check_output argv).
Proof.
  intros w. unfold check_output, process_error, checked.
  destruct (os_run_program argv w) as [[| |rc out|rc] w1]; simpl; auto;
    destruct (rc =? 0)%Z; simpl; eauto 6.
Qed.

Lemma ends_check_call_pip (argv : list string) :
  ends_with process_error (lift (check_call_pip argv)).
Proof.
  intros w. unfold lift, check_call_pip, process_error, checked.
  destruct (os_run_pip argv w) as [[| |rc out|rc] w1]; simpl; auto;
    destruct (rc =? 0)%Z; simpl; eauto 6.
Qed.

Lemma ends_check_call_pip_started (argv : list string) :
  ends_with (fun e => e = OSError \/ e = OtherOSError \/ exists rc, e = CalledProcessError rc)
    (lift (check_call_pip argv)).
Proof.
  intros w. unfold lift, check_call_pip, checked.
  destruct (os_run_pip argv w) as [[| |rc out|rc] w1]; simpl; auto;
    destruct (rc =? 0)%Z; simpl; eauto.
Qed.

Lemma ends_fs (call : fs_call) : ends_with process_error (fs call).
Proof.
  intros w. unfold fs. destruct (os_fs call w) as [[] w1]; simpl; [exact I|by left].
Qed.

Lemma ends_readlines (path : string) : ends_with process_error (readlines path).
Proof. intros w. unfold readlines. simpl. destruct (fs_readlines path w); [exact I|by left]. Qed.

Lemma ends_read (path : string) : ends_with process_error (read path).
Proof. intros w. unfold read. simpl. destruct (fs_read path w); [exact I|by left]. Qed.

Lemma ends_path_exists_now (P : exn -> Prop) (path : string) :
  P OtherOSError -> ends_with P (path_exists_now path).
Proof. intros HP w. unfold path_exists_now. simpl. by destruct (fs_exists path w). Qed.

Lemma ends_which (P : exn -> Prop) (name : string) : ends_with P (which name).
Proof. by intros w. Qed.

Lemma ends_with_temporary_directory {A} (P : exn -> Prop) (body : string -> L A) :
  P OSError -> (forall d, ends_with P (body d)) ->
  ends_with P (with_temporary_directory body).
Proof.
  intros HP Hbody w. unfold with_temporary_directory.
  destruct (os_mkdtemp w) as [[d|] w1]; simpl; [|exact HP].
  specialize (Hbody d w1). by destruct (body d w1) as [[r w2] t].
Qed.

Lemma process_error_is_exception (e : exn) : process_error e -> is_Exception e = true.
Proof. by intros [-> | [-> | [-> | [rc ->]]]]. Qed.

Lemma ends_install_single_dependency (venv_path package : string) :
  ends_with exit_1_or_oserror (lift (install_single_dependency venv_path package)).
Proof.
  intros w. unfold lift.
  destruct (install_single_dependency_spec venv_path package w) as (r & w1 & -> & Hr).
  simpl. destruct Hr as [-> | [-> | [-> | ->]]]; unfold exit_1_or_oserror; auto.
Qed.

(** What [subprocess.check_call] raises: the output is not read. *)
Lemma ends_check_call_started (argv : list string) :
  ends_with (fun e => e = OSError \/ e = OtherOSError \/ exists rc, e = CalledProcessError rc)
    (check_call argv).
Proof.
  intros w. unfold check_call, checked.
  destruct (os_run_program argv w) as [[| |rc out|rc] w1]; simpl; auto;
    destruct (rc =? 0)%Z; simpl; eauto.
Qed.

(** The second [try] of [check_pipreqs_installed]. *)
Lemma ends_pipreqs_listed :
  ends_with exit_1
    (ltry (lbind (check_output ["pipx"; "list"])
             (fun result =>
                if Text.str_in "pipreqs" result then lret tt
                else check_call ["pipx"; "install"; "pipreqs"]))
          (except_any (lexit 1))).
Proof.
  eapply ends_except_any.
  - apply ends_lbind; [apply ends_check_output|].
    intros result. apply ends_if; [apply ends_lret|apply ends_check_call].
  - by apply ends_lexit.
  - intros e He Hexc. apply process_error_is_exception in He. congruence.
Qed.

Lemma ends_check_pipreqs_installed : ends_with exit_1_or_other check_pipreqs_installed.
Proof.
  unfold check_pipreqs_installed. apply ends_lbind.
  - eapply ends_ltry; [apply ends_check_call_started|].
    intros e [-> | [-> | [rc ->]]]; simpl;
      [apply ends_lexit; by left|by right|apply ends_lexit; by left].
  - intros _. eapply ends_weaken; [apply ends_pipreqs_listed|]. intros e He. by left.
Qed.

Lemma ends_open_log_file : ends_with never open_log_file.
Proof.
  unfold open_log_file. eapply ends_except_any.
  - repeat apply ends_if; first [apply ends_check_call|apply ends_fs|apply ends_lret].
  - apply ends_lret.
  - intros e He Hexc. apply process_error_is_exception in He. congruence.
Qed.

Lemma ends_ensure_venv (venv_path : string) :
  ends_with exit_1_or_other (ensure_venv venv_path).
Proof.
  unfold ensure_venv. apply ends_lbind; [apply ends_path_exists_now; by right|].
  intros venv_exists. apply ends_if; [|apply ends_lret].
  eapply ends_weaken; [|intros e He; left; exact He].
  eapply (ends_except_any exit_1 (fun e => process_error e \/ e = SystemExit 1)).
  - apply ends_if.
    + apply ends_lbind; [apply ends_which|].
      intros [python|]; [|apply ends_lexit; by right].
      apply ends_if; [apply ends_lexit; by right|].
      eapply ends_weaken; [apply ends_check_call|by left].
    + eapply ends_weaken; [apply ends_check_call|by left].
  - by apply ends_lexit.
  - intros e [He | ->] Hexc; [|reflexivity].
    apply process_error_is_exception in He. congruence.
Qed.

Lemma ends_install_dependencies (venv_path : string) (requirements : option string) :
  ends_with exit_1_or_oserror (install_dependencies venv_path requirements).
Proof.
  unfold install_dependencies. destruct requirements as [requirements|]; [|apply ends_lret].
  apply ends_lbind; [apply ends_path_exists_now; unfold exit_1_or_oserror; auto|].
  intros requirements_exists. apply ends_if; [apply ends_lexit; by left|].
  eapply ends_ltry.
  - apply ends_lbind; [apply ends_check_call_pip_started|]. intros _. apply ends_lret.
  - intros e [-> | [-> | [rc ->]]]; simpl; unfold exit_1_or_oserror; auto.
    apply ends_lexit; by left.
Qed.

Lemma ends_uninstall_dependency (venv_path package : string) :
  ends_with exit_1_or_oserror (uninstall_dependency venv_path package).
Proof.
  unfold uninstall_dependency. eapply ends_ltry.
  - apply ends_lbind; [apply ends_check_call_pip_started|]. intros _. apply ends_lret.
  - intros e [-> | [-> | [rc ->]]]; simpl; unfold exit_1_or_oserror; auto.
    apply ends_lexit; by left.
Qed.

Lemma ends_update_all_packages (venv_path : string) :
  ends_with never (update_all_packages venv_path).
Proof.
  unfold update_all_packages. eapply ends_except_any.
  - apply ends_lbind; [apply ends_check_call_pip|]. intros _.
    apply ends_lbind; [apply ends_check_output|]. intros installed.
    apply ends_if; [|apply ends_lret].
    apply ends_lbind; [apply ends_check_call_pip|]. intros _. apply ends_lret.
  - apply ends_lret.
  - intros e He Hexc. apply process_error_is_exception in He. congruence.
Qed.

Lemma ends_copy_local_module (app_dir temp_path module : string) :
  ends_with process_error (copy_local_module app_dir temp_path module).
Proof.
  assert (Hother : process_error OtherOSError) by (right; by left).
  unfold copy_local_module. apply ends_if; [apply ends_lret|].
  apply ends_lbind; [by apply ends_path_exists_now|]. intros file_exists.
  apply ends_if; [apply ends_fs|].
  apply ends_lbind; [by apply ends_path_exists_now|]. intros dir_exists.
  apply ends_lbind; [by apply ends_path_exists_now|]. intros init_exists.
  apply ends_if; [apply ends_fs|apply ends_lret].
Qed.

Lemma ends_copy_local_files (app_path temp_path : string) :
  ends_with exit_1 (copy_local_files app_path temp_path).
Proof.
  unfold copy_local_files.
  eapply (ends_except_exception _ (fun e => process_error e \/ e = SystemExit 1)).
  - apply ends_lbind; [eapply ends_weaken; [apply ends_readlines|by left]|].
    intros import_lines.
    destruct (import_modules import_lines) as [modules|]; [|apply ends_lexit; by right].
    apply ends_lbind.
    + apply ends_lfor. intros module.
      eapply ends_weaken; [apply ends_copy_local_module|by left].
    + intros _. eapply ends_weaken; [apply ends_fs|by left].
  - by apply ends_lexit.
  - intros e [He | ->] Hexc; [|reflexivity].
    apply process_error_is_exception in He. congruence.
Qed.

Lemma ends_generate_requirements (app_path : string) :
  ends_with exit_1 (generate_requirements app_path).
Proof.
  unfold generate_requirements.
  eapply (ends_except_any _ (fun e => process_error e \/ e = SystemExit 1)).
  - apply ends_with_temporary_directory; [left; by left|].
    intros temp_dir.
    apply ends_lbind; [eapply ends_weaken; [apply ends_copy_local_files|by right]|].
    intros _.
    apply ends_lbind; [eapply ends_weaken; [apply ends_check_call|by left]|].
    intros _.
    apply ends_lbind; [eapply ends_weaken; [apply ends_read|by left]|].
    intros content.
    apply ends_lbind; [eapply ends_weaken; [apply ends_fs|by left]|].
    intros _. apply ends_lret.
  - by apply ends_lexit.
  - intros e [He | ->] Hexc; [|reflexivity].
    apply process_error_is_exception in He. congruence.
Qed.

Lemma ends_recreate_venv (venv_path : string) (app_path : option string) :
  ends_with exit_1 (recreate_venv venv_path app_path).
Proof.
  unfold recreate_venv.
  eapply (ends_except_exception _ (fun e => process_error e \/ e = SystemExit 1)).
  - assert (Hother : process_error OtherOSError \/ OtherOSError = SystemExit 1)
      by (left; right; by left).
    apply ends_lbind; [by apply ends_path_exists_now|]. intros venv_exists.
    apply ends_lbind.
    { apply ends_if; [eapply ends_weaken; [apply ends_fs|by left]|apply ends_lret]. }
    intros _.
    apply ends_lbind.
    { eapply ends_weaken; [apply ends_ensure_venv|].
      intros e [-> | ->]; [by right|exact Hother]. }
    intros _.
    destruct app_path as [app_path|]; [|apply ends_lret].
    apply ends_lbind; [eapply ends_weaken; [apply ends_generate_requirements|by right]|].
    intros requirements.
    apply ends_lbind; [by apply ends_path_exists_now|]. intros requirements_exists.
    apply ends_if; [|apply ends_lret].
    apply ends_lbind.
    { eapply ends_weaken; [apply ends_install_dependencies|].
      intros e [-> | [-> | ->]]; [by right|left; by left|exact Hother]. }
    intros _.
    eapply (ends_except_exception _ process_error);
      [apply ends_fs|apply ends_lret|].
    intros e He Hexc. apply process_error_is_exception in He. congruence.
  - by apply ends_lexit.
  - intros e [He | ->] Hexc; [|reflexivity].
    apply process_error_is_exception in He. congruence.
Qed.

Lemma ends_delete_venv (venv_path : string) : ends_with exit_1 (delete_venv venv_path).
Proof.
  unfold delete_venv. eapply (ends_except_exception _ process_error).
  - apply ends_lbind; [apply ends_path_exists_now; right; by left|]. intros venv_exists.
    apply ends_if; [apply ends_fs|apply ends_lret].
  - by apply ends_lexit.
  - intros e He Hexc. apply process_error_is_exception in He. congruence.
Qed.

(** *** What the commands do *)

Lemma emits_weaken {A} (P Q : action -> Prop) (m : L A) :
  emits P m -> (forall a, P a -> Q a) -> emits Q m.
Proof. intros Hm HPQ w. eapply Forall_impl; [apply Hm|exact HPQ]. Qed.

Lemma emits_lret {A} (P : action -> Prop) (a : A) : emits P (lret a).
Proof. intros w. constructor. Qed.

Lemma emits_lexit {A} (P : action -> Prop) (code : Z) : emits P (lexit (A := A) code).
Proof. intros w. constructor. Qed.

Lemma emits_lbind {A B} (P : action -> Prop) (m : L A) (f : A -> L B) :
  emits P m -> (forall a, emits P (f a)) -> emits P (lbind m f).
Proof.
  intros Hm Hf w. unfold lbind. specialize (Hm w).
  destruct (m w) as [[[a|e] w1] t1]; simpl in *; [|exact Hm].
  specialize (Hf a w1). destruct (f a w1) as [[r2 w2] t2]. simpl in *.
  by apply Forall_app.
Qed.

Lemma emits_ltry {A} (P : action -> Prop) (body : L A) (handler : exn -> option (L A)) :
  emits P body ->
  (forall e, match handler e with Some h => emits P h | None => True end) ->
  emits P (ltry body handler).
Proof.
  intros Hbody Hh w. unfold ltry. specialize (Hbody w).
  destruct (body w) as [[[a|e] w1] t1]; simpl in *; [exact Hbody|].
  specialize (Hh e). destruct (handler e) as [h|]; [|exact Hbody].
  specialize (Hh w1). destruct (h w1) as [[r2 w2] t2]. simpl in *.
  by apply Forall_app.
Qed.

Lemma emits_except_any {A} (P : action -> Prop) (body h : L A) :
  emits P body -> emits P h -> emits P (ltry body (except_any h)).
Proof.
  intros Hbody Hh. apply emits_ltry; [exact Hbody|].
  intros e. unfold except_any.
  destruct (is_CalledProcessError e); [exact Hh|]. by destruct (is_Exception e).
Qed.

Lemma emits_except_exception {A} (P : action -> Prop) (body h : L A) :
  emits P body -> emits P h ->
  emits P (ltry body (fun e => if is_Exception e then Some h else None)).
Proof.
  intros Hbody Hh. apply emits_ltry; [exact Hbody|].
  intros e. by destruct (is_Exception e).
Qed.

Lemma emits_except_called_process {A} (P : action -> Prop) (body h : L A) :
  emits P body -> emits P h -> emits P (ltry body (except_called_process h)).
Proof.
  intros Hbody Hh. apply emits_ltry; [exact Hbody|].
  intros e. unfold except_called_process. by destruct (is_CalledProcessError e).
Qed.

Lemma emits_lfor {A} (P : action -> Prop) (l : list A) (body : A -> L unit) :
  (forall x, emits P (body x)) -> emits P (lfor l body).
Proof.
  intros Hbody. induction l as [|x l IH]; [apply emits_lret|].
  cbn [lfor]. apply emits_lbind; [apply Hbody|by intros _].
Qed.

Lemma emits_if {A} (P : action -> Prop) (b : bool) (m1 m2 : L A) :
  emits P m1 -> emits P m2 -> emits P (if b then m1 else m2).
Proof. by destruct b. Qed.

Lemma emits_check_call (argv : list string) :
  emits (fun a => a = Program argv) (check_call argv).
Proof.
  intros w. unfold check_call. destruct (os_run_program argv w) as [c w1].
  by repeat constructor.
Qed.

Lemma emits_check_output (argv : list string) :
  emits (fun a => a = Program argv) (check_output argv).
Proof.
  intros w. unfold check_output. destruct (os_run_program argv w) as [c w1].
  by repeat constructor.
Qed.

Lemma emits_check_call_pip (argv : list string) :
  emits (fun a => a = Core (EvPip argv)) (lift (check_call_pip argv)).
Proof.
  intros w. unfold lift, check_call_pip. destruct (os_run_pip argv w) as [c w1].
  by repeat constructor.
Qed.

Lemma emits_fs (call : fs_call) : emits (fun a => a = Fs call) (fs call).
Proof.
  intros w. unfold fs. destruct (os_fs call w) as [done w1]. by repeat constructor.
Qed.

Lemma emits_path_exists_now (P : action -> Prop) (path : string) :
  emits P (path_exists_now path).
Proof. intros w. constructor. Qed.

Lemma emits_which (P : action -> Prop) (name : string) : emits P (which name).
Proof. intros w. constructor. Qed.

Lemma emits_readlines (P : action -> Prop) (path : string) : emits P (readlines path).
Proof. intros w. constructor. Qed.

Lemma emits_read (P : action -> Prop) (path : string) : emits P (read path).
Proof. intros w. constructor. Qed.

Lemma emits_with_temporary_directory {A} (P : action -> Prop) (body : string -> L A) :
  P Mkdtemp -> (forall d, P (Cleanup d)) -> (forall d, emits P (body d)) ->
  emits P (with_temporary_directory body).
Proof.
  intros Hmk Hcl Hbody w. unfold with_temporary_directory.
  destruct (os_mkdtemp w) as [[d|] w1]; simpl; [|by repeat constructor].
  specialize (Hbody d w1). destruct (body d w1) as [[r w2] t]. simpl in *.
  constructor; [exact Hmk|]. apply Forall_app. split; [exact Hbody|by repeat constructor].
Qed.

Lemma emits_install_single_dependency (venv_path package : string) :
  emits (pip_action venv_path) (lift (install_single_dependency venv_path package)).
Proof.
  intros w. unfold lift.
  destruct (install_single_dependency_spec venv_path package w) as (r & w1 & -> & _).
  simpl. repeat constructor. by eexists.
Qed.

Lemma emits_check_pipreqs_installed : emits pipx_action check_pipreqs_installed.
Proof.
  unfold check_pipreqs_installed.
  assert (Hpipx : forall args, emits pipx_action (check_call ("pipx" :: args))).
  { intros args. eapply emits_weaken; [apply emits_check_call|].
    intros a ->. by eexists. }
  apply emits_lbind.
  - apply emits_ltry; [apply Hpipx|].
    intros e. destruct (is_CalledProcessError e); [apply emits_lexit|].
    destruct e; try exact I; apply emits_lexit.
  - intros _. apply emits_except_any; [|apply emits_lexit].
    apply emits_lbind.
    + eapply emits_weaken; [apply emits_check_output|]. intros a ->. by eexists.
    + intros result. apply emits_if; [apply emits_lret|apply Hpipx].
Qed.

Lemma emits_ensure_venv (venv_path : string) :
  emits (venv_action venv_path) (ensure_venv venv_path).
Proof.
  unfold ensure_venv.
  assert (Hcreate : forall python,
            emits (venv_action venv_path) (check_call [python; "-m"; "venv"; venv_path])).
  { intros python. eapply emits_weaken; [apply emits_check_call|].
    intros a ->. by eexists. }
  apply emits_lbind; [apply emits_path_exists_now|].
  intros venv_exists. apply emits_if; [|apply emits_lret].
  apply emits_except_any; [|apply emits_lexit].
  apply emits_if; [|apply Hcreate].
  apply emits_lbind; [apply emits_which|].
  intros [python|]; [|apply emits_lexit].
  apply emits_if; [apply emits_lexit|apply Hcreate].
Qed.

Lemma emits_pip_call (venv_path : string) (args : list string) :
  emits (pip_action venv_path) (lift (check_call_pip (pip_executable venv_path :: args))).
Proof.
  eapply emits_weaken; [apply emits_check_call_pip|]. intros a ->. by eexists.
Qed.

Lemma emits_install_dependencies (venv_path : string) (requirements : option string) :
  emits (pip_action venv_path) (install_dependencies venv_path requirements).
Proof.
  unfold install_dependencies. destruct requirements as [requirements|]; [|apply emits_lret].
  apply emits_lbind; [apply emits_path_exists_now|].
  intros requirements_exists. apply emits_if; [apply emits_lexit|].
  apply emits_except_called_process; [|apply emits_lexit].
  apply emits_lbind; [apply emits_pip_call|]. intros _. apply emits_lret.
Qed.

Lemma emits_uninstall_dependency (venv_path package : string) :
  emits (pip_action venv_path) (uninstall_dependency venv_path package).
Proof.
  unfold uninstall_dependency.
  apply emits_except_called_process; [|apply emits_lexit].
  apply emits_lbind; [apply emits_pip_call|]. intros _. apply emits_lret.
Qed.

Lemma emits_update_all_packages (venv_path : string) :
  emits (fun a => pip_action venv_path a \/ a = Program [pip_executable venv_path; "freeze"])
    (update_all_packages venv_path).
Proof.
  unfold update_all_packages. apply emits_except_any; [|apply emits_lret].
  apply emits_lbind; [eapply emits_weaken; [apply emits_pip_call|by left]|]. intros _.
  apply emits_lbind; [eapply emits_weaken; [apply emits_check_output|by right]|].
  intros installed. apply emits_if; [|apply emits_lret].
  apply emits_lbind; [|intros _; apply emits_lret].
  eapply emits_weaken; [apply (emits_pip_call venv_path ("install" :: "--upgrade" :: _))|by left].
Qed.

Lemma emits_open_log_file : emits log_action open_log_file.
Proof.
  unfold open_log_file, log_action. apply emits_except_any; [|apply emits_lret].
  apply emits_if; [eapply emits_weaken; [apply emits_check_call|by left]|].
  apply emits_if; [eapply emits_weaken; [apply emits_check_call|right; by left]|].
  apply emits_if; [eapply emits_weaken; [apply emits_fs|right; by right]|apply emits_lret].
Qed.

Lemma emits_copy_local_module (app_path temp_path module : string) :
  emits (copy_action app_path temp_path)
    (copy_local_module (path_parent app_path) temp_path module).
Proof.
  unfold copy_local_module.
  destruct (bool_decide (Text.lower module ∈ SKIPPED_MODULES)) eqn:Hskip;
    [apply emits_lret|].
  apply bool_decide_eq_false in Hskip.
  apply emits_lbind; [apply emits_path_exists_now|]. intros file_exists.
  apply emits_if.
  { eapply emits_weaken; [apply emits_fs|]. intros a ->. right. exists module. auto. }
  apply emits_lbind; [apply emits_path_exists_now|]. intros dir_exists.
  apply emits_lbind; [apply emits_path_exists_now|]. intros init_exists.
  apply emits_if; [|apply emits_lret].
  eapply emits_weaken; [apply emits_fs|]. intros a ->. right. exists module. auto.
Qed.

Lemma emits_copy_local_files (app_path temp_path : string) :
  emits (copy_action app_path temp_path) (copy_local_files app_path temp_path).
Proof.
  unfold copy_local_files. apply emits_except_exception; [|apply emits_lexit].
  apply emits_lbind; [apply emits_readlines|]. intros import_lines.
  destruct (import_modules import_lines) as [modules|]; [|apply emits_lexit].
  apply emits_lbind.
  - apply emits_lfor. intros module. apply emits_copy_local_module.
  - intros _. eapply emits_weaken; [apply emits_fs|]. intros a ->. by left.
Qed.

Lemma emits_generate_requirements (app_path : string) :
  emits (generate_action app_path) (generate_requirements app_path).
Proof.
  unfold generate_requirements. apply emits_except_any; [|apply emits_lexit].
  apply emits_with_temporary_directory.
  - by left.
  - intros d. right. left. exists d. by left.
  - intros d.
    apply emits_lbind.
    { eapply emits_weaken; [apply emits_copy_local_files|].
      intros a Ha. right. left. exists d. right. by left. }
    intros _. apply emits_lbind.
    { eapply emits_weaken; [apply emits_check_call|].
      intros a ->. right. left. exists d. right. by right. }
    intros _. apply emits_lbind; [apply emits_read|]. intros content.
    apply emits_lbind; [|intros _; apply emits_lret].
    eapply emits_weaken; [apply emits_fs|]. intros a ->. right. right. by exists content.
Qed.

Lemma returns_lret {A} (Q : A -> Prop) (a : A) : Q a -> returns Q (lret a).
Proof. by intros H w. Qed.

Lemma returns_lexit {A} (Q : A -> Prop) (code : Z) : returns Q (lexit code).
Proof. by intros w. Qed.

Lemma returns_lbind {A B} (Q : B -> Prop) (m : L A) (f : A -> L B) :
  (forall a, returns Q (f a)) -> returns Q (lbind m f).
Proof.
  intros Hf w. unfold lbind.
  destruct (m w) as [[[a|e] w1] t1]; simpl; [|exact I].
  specialize (Hf a w1). by destruct (f a w1) as [[r2 w2] t2].
Qed.

Lemma returns_ltry {A} (Q : A -> Prop) (body : L A) (handler : exn -> option (L A)) :
  returns Q body ->
  (forall e, match handler e with Some h => returns Q h | None => True end) ->
  returns Q (ltry body handler).
Proof.
  intros Hbody Hh w. unfold ltry. specialize (Hbody w).
  destruct (body w) as [[[a|e] w1] t1]; simpl in *; [exact Hbody|].
  specialize (Hh e). destruct (handler e) as [h|]; [|exact I].
  specialize (Hh w1). by destruct (h w1) as [[r2 w2] t2].
Qed.

Lemma returns_with_temporary_directory {A} (Q : A -> Prop) (body : string -> L A) :
  (forall d, returns Q (body d)) -> returns Q (with_temporary_directory body).
Proof.
  intros Hbody w. unfold with_temporary_directory.
  destruct (os_mkdtemp w) as [[d|] w1]; simpl; [|exact I].
  specialize (Hbody d w1). by destruct (body d w1) as [[r w2] t].
Qed.

Lemma emits_lbind_returns {A B} (P : action -> Prop) (Q : A -> Prop)
    (m : L A) (f : A -> L B) :
  emits P m -> returns Q m -> (forall a, Q a -> emits P (f a)) -> emits P (lbind m f).
Proof.
  intros Hm HQ Hf w. unfold lbind. specialize (Hm w). specialize (HQ w).
  destruct (m w) as [[[a|e] w1] t1]; simpl in *; [|exact Hm].
  specialize (Hf a HQ w1). destruct (f a w1) as [[r2 w2] t2]. simpl in *.
  by apply Forall_app.
Qed.

Lemma returns_generate_requirements (app_path : string) :
  returns (fun p => p = permanent_requirements app_path) (generate_requirements app_path).
Proof.
  unfold generate_requirements. apply returns_ltry.
  - apply returns_with_temporary_directory. intros d.
    do 4 (apply returns_lbind; intros ?). by apply returns_lret.
  - intros e. unfold except_any.
    destruct (is_CalledProcessError e); [apply returns_lexit|].
    destruct (is_Exception e); [apply returns_lexit|exact I].
Qed.

Lemma emits_recreate_venv (venv_path : string) (app_path : option string) :
  emits (recreate_action venv_path app_path) (recreate_venv venv_path app_path).
Proof.
  unfold recreate_venv, recreate_action. apply emits_except_exception; [|apply emits_lexit].
  apply emits_lbind; [apply emits_path_exists_now|]. intros venv_exists.
  apply emits_lbind.
  { apply emits_if; [|apply emits_lret]. eapply emits_weaken; [apply emits_fs|by left]. }
  intros _. apply emits_lbind.
  { eapply emits_weaken; [apply emits_ensure_venv|]. intros a Ha. right. by left. }
  intros _. destruct app_path as [app_path|]; [|apply emits_lret].
  eapply emits_lbind_returns; [|apply returns_generate_requirements|].
  { eapply emits_weaken; [apply emits_generate_requirements|].
    intros a Ha. right. right. by left. }
  intros requirements ->.
  apply emits_lbind; [apply emits_path_exists_now|]. intros requirements_exists.
  apply emits_if; [|apply emits_lret].
  apply emits_lbind.
  { eapply emits_weaken; [apply emits_install_dependencies|].
    intros a Ha. right. right. right. by left. }
  intros _. apply emits_except_exception; [|apply emits_lret].
  eapply emits_weaken; [apply emits_fs|]. intros a ->. right. right. right. by right.
Qed.

Lemma emits_delete_venv (venv_path : string) :
  emits (fun a => a = Fs (Rmtree venv_path)) (delete_venv venv_path).
Proof.
  unfold delete_venv. apply emits_except_exception; [|apply emits_lexit].
  apply emits_lbind; [apply emits_path_exists_now|]. intros venv_exists.
  apply emits_if; [apply emits_fs|apply emits_lret].
Qed.

(** *** [main] before the thread *)

Lemma ends_main_setup (known_args : Namespace) :
  ends_with setup_error (main_setup known_args).
Proof.
  unfold main_setup.
  assert (H1 : forall {A} (m : L A), ends_with exit_1 m -> ends_with setup_error m).
  { intros A m Hm. eapply ends_weaken; [exact Hm|]. intros e ->. right. by left. }
  assert (H2 : forall {A} (m : L A), ends_with exit_1_or_oserror m ->
            ends_with setup_error m).
  { intros A m Hm. eapply ends_weaken; [exact Hm|].
    unfold setup_error. intros e [-> | [-> | ->]]; auto. }
  assert (H3 : forall {A} (m : L A), ends_with exit_1_or_other m ->
            ends_with setup_error m).
  { intros A m Hm. eapply ends_weaken; [exact Hm|].
    unfold setup_error. intros e [-> | ->]; auto. }
  assert (H0 : forall {A} (m : L A), ends_with never m -> ends_with setup_error m).
  { intros A m Hm. eapply ends_weaken; [exact Hm|]. by intros e. }
  apply ends_lbind.
  { apply ends_if; [|apply ends_lret].
    apply ends_lbind; [apply H0, ends_open_log_file|].
    intros _. apply ends_lexit. by left. }
  intros _. apply ends_lbind; [apply H3, ends_check_pipreqs_installed|].
  intros _. apply ends_lbind.
  { destruct (resolved (app known_args)); [|apply ends_lret].
    apply ends_lbind; [apply ends_path_exists_now; unfold setup_error; auto|].
    intros ?. apply ends_lret. }
  intros app_missing. apply ends_lbind.
  { apply ends_if; [apply ends_lexit; right; by left|apply ends_lret]. }
  intros _. apply ends_lbind.
  { apply ends_if.
    { apply ends_lbind; [apply H1, ends_delete_venv|]. intros _. apply ends_lexit. by left. }
    apply ends_if; [apply H1, ends_recreate_venv|].
    apply ends_if.
    { apply ends_lbind; [apply H3, ends_ensure_venv|]. intros _.
      apply H0, ends_update_all_packages. }
    apply ends_if.
    { apply ends_lbind; [apply H3, ends_ensure_venv|]. intros _.
      apply ends_lfor. intros package. apply H2, ends_install_single_dependency. }
    apply ends_if.
    { apply ends_lbind; [apply H3, ends_ensure_venv|]. intros _.
      apply ends_lfor. intros package. apply H2, ends_uninstall_dependency. }
    apply ends_lbind; [apply H3, ends_ensure_venv|]. intros _.
    destruct (resolved (requirements known_args));
      [apply H2, ends_install_dependencies|apply ends_lret]. }
  intros _. destruct (resolved (app known_args)) as [app_path|]; [|apply ends_lret].
  apply ends_if; [|apply ends_lret].
  apply ends_lbind; [apply H3, ends_ensure_venv|]. intros _.
  apply ends_lbind; [|intros _; apply ends_lret].
  destruct (resolved (requirements known_args));
    [apply H2, ends_install_dependencies|apply ends_lret].
Qed.

Lemma emits_main_setup (known_args : Namespace) :
  emits (setup_action known_args) (main_setup known_args).
Proof.
  unfold main_setup, setup_action. cbv zeta.
  set (venv_path := path_resolve (venv known_args)).
  assert (Hvenv : emits (fun a =>
      (log known_args = true /\ log_action a) \/ pipx_action a \/
      venv_action venv_path a \/ pip_action venv_path a \/
      (update known_args = true /\ a = Program [pip_executable venv_path; "freeze"]) \/
      (delete known_args = true /\ a = Fs (Rmtree venv_path)) \/
      (recreate known_args = true /\
       recreate_action venv_path (resolved (app known_args)) a))
      (ensure_venv venv_path)).
  { eapply emits_weaken; [apply emits_ensure_venv|]. intros a Ha. right. right. by left. }
  assert (Hpip : forall {A} (m : L A), emits (pip_action venv_path) m -> emits (fun a =>
      (log known_args = true /\ log_action a) \/ pipx_action a \/
      venv_action venv_path a \/ pip_action venv_path a \/
      (update known_args = true /\ a = Program [pip_executable venv_path; "freeze"]) \/
      (delete known_args = true /\ a = Fs (Rmtree venv_path)) \/
      (recreate known_args = true /\
       recreate_action venv_path (resolved (app known_args)) a)) m).
  { intros A m Hm. eapply emits_weaken; [exact Hm|]. intros a Ha. do 3 right. by left. }
  apply emits_lbind.
  { destruct (log known_args) eqn:Hlog; [|apply emits_lret].
    apply emits_lbind; [|intros _; apply emits_lexit].
    eapply emits_weaken; [apply emits_open_log_file|]. intros a Ha. by left. }
  intros _. apply emits_lbind.
  { eapply emits_weaken; [apply emits_check_pipreqs_installed|]. intros a Ha. right. by left. }
  intros _. apply emits_lbind.
  { destruct (resolved (app known_args)); [|apply emits_lret].
    apply emits_lbind; [apply emits_path_exists_now|]. intros ?. apply emits_lret. }
  intros app_missing. apply emits_lbind.
  { apply emits_if; [apply emits_lexit|apply emits_lret]. }
  intros _. apply emits_lbind.
  { destruct (delete known_args) eqn:Hdelete.
    { apply emits_lbind; [|intros _; apply emits_lexit].
      eapply emits_weaken; [apply emits_delete_venv|]. intros a ->. do 5 right. by left. }
    destruct (recreate known_args) eqn:Hrecreate.
    { eapply emits_weaken; [apply emits_recreate_venv|]. intros a Ha. do 6 right. auto. }
    destruct (update known_args) eqn:Hupdate.
    { apply emits_lbind; [exact Hvenv|]. intros _.
      eapply emits_weaken; [apply emits_update_all_packages|].
      intros a [Ha | ->]; [do 3 right; by left|do 4 right; left; auto]. }
    apply emits_if.
    { apply emits_lbind; [exact Hvenv|]. intros _.
      apply emits_lfor. intros package. apply Hpip, emits_install_single_dependency. }
    apply emits_if.
    { apply emits_lbind; [exact Hvenv|]. intros _.
      apply emits_lfor. intros package. apply Hpip, emits_uninstall_dependency. }
    apply emits_lbind; [exact Hvenv|]. intros _.
    destruct (resolved (requirements known_args));
      [apply Hpip, emits_install_dependencies|apply emits_lret]. }
  intros _. destruct (resolved (app known_args)) as [app_path|]; [|apply emits_lret].
  apply emits_if; [|apply emits_lret].
  apply emits_lbind; [exact Hvenv|]. intros _.
  apply emits_lbind; [|intros _; apply emits_lret].
  destruct (resolved (requirements known_args));
    [apply Hpip, emits_install_dependencies|apply emits_lret].
Qed.

End Endings.

(* ===================================================================== *)
(** ** Properties of the commands *)
(* ===================================================================== *)

Section CommandFacts.

Import Launcher.
Context {host : Host} {platform : Platform host}.

Lemma lbind_return {A B} (m : L A) (f : A -> L B) (w w1 : world) (a : A) (t1 : list action) :
  m w = (Return a, w1, t1) ->
  lbind m f w = ((f a w1).1.1, (f a w1).1.2, t1 ++ (f a w1).2).
Proof. intros H. unfold lbind. rewrite H. by destruct (f a w1) as [[r2 w2] t2]. Qed.

Lemma lbind_raise {A B} (m : L A) (f : A -> L B) (w w1 : world) (e : exn) (t1 : list action) :
  m w = (Raise e, w1, t1) -> lbind m f w = (Raise e, w1, t1).
Proof. intros H. unfold lbind. by rewrite H. Qed.

Lemma returns_lbind_l {A B} (Q : B -> Prop) (m : L A) (f : A -> L B) :
  returns (fun _ => False) m -> returns Q (lbind m f).
Proof.
  intros Hm w. unfold lbind. specialize (Hm w).
  by destruct (m w) as [[[a|e] w1] t1].
Qed.

(** X16. [update_all_packages] never fails: whatever pip does, it returns
    normally, so [--update] reports success even when every pip call went
    wrong. It runs nothing but the pip of the environment. *)
Theorem update_all_packages_never_fails (venv_path : string) (w : world) :
  exists w1 t,
    update_all_packages venv_path w = (Return tt, w1, t) /\
    Forall (fun a => pip_action venv_path a \/
                     a = Program [pip_executable venv_path; "freeze"]) t.
Proof.
  pose proof (ends_update_all_packages venv_path w) as Hend.
  pose proof (emits_update_all_packages venv_path w) as Hemit.
  destruct (update_all_packages venv_path w) as [[[[]|e] w1] t]; simpl in *; [|done].
  by exists w1, t.
Qed.

(** X17. When pip upgrades itself and [pip freeze] succeeds,
    [update_all_packages] upgrades exactly the names it reads from the
    output, in one pip call, and makes no such call when there is none. *)
Theorem update_upgrades_the_frozen_names
    (venv_path : string) (w : world) (out0 out : string) :
  let pip := pip_executable venv_path in
  let w1 := (os_run_pip [pip; "install"; "--upgrade"; "pip"] w).2 in
  let w2 := (os_run_program [pip; "freeze"] w1).2 in
  (os_run_pip [pip; "install"; "--upgrade"; "pip"] w).1 = Completed 0 out0 ->
  (os_run_program [pip; "freeze"] w1).1 = Completed 0 out ->
  (update_all_packages venv_path w).2 =
    Core (EvPip [pip; "install"; "--upgrade"; "pip"]) :: Program [pip; "freeze"] ::
    match freeze_packages out with
    | [] => []
    | _ :: _ => [Core (EvPip ([pip; "install"; "--upgrade"] ++ freeze_packages out))]
    end.
Proof.
  intros pip w1 w2 Hup Hfreeze.
  unfold update_all_packages, ltry, lbind, lift, check_call_pip, check_output, lret.
  fold pip. subst w1.
  destruct (os_run_pip [pip; "install"; "--upgrade"; "pip"] w) as [c1 w1'].
  simpl in *. subst c1. simpl.
  destruct (os_run_program [pip; "freeze"] w1') as [c2 w2'].
  simpl in *. subst c2. simpl.
  destruct (freeze_packages out) as [|name names] eqn:Hnames; simpl; [reflexivity|].
  destruct (os_run_pip _ w2') as [[| |rc3 out3|rc3] w3]; unfold checked; simpl;
    try reflexivity; destruct (rc3 =? 0)%Z; reflexivity.
Qed.

(** [ensure_venv], evaluated. *)
Lemma ensure_venv_eval (venv_path : string) (w : world) :
  let python := if sys_frozen then default "" (os_which "python3" w) else sys_executable in
  let create := [python; "-m"; "venv"; venv_path] in
  ensure_venv venv_path w =
    match fs_exists venv_path w with
    | Some true => (Return tt, w, [])
    | None => (Raise OtherOSError, w, [])
    | Some false =>
        if sys_frozen && negb (given (os_which "python3" w))
        then (Raise (SystemExit 1), w, [])
        else (if succeeded (os_run_program create w).1 then Return tt
              else Raise (SystemExit 1),
              (os_run_program create w).2, [Program create])
    end.
Proof.
  cbv zeta.
  unfold ensure_venv, lbind, path_exists_now, ltry, which, lexit, lraise, check_call,
    checked, given.
  destruct (fs_exists venv_path w) as [[]|]; simpl; try reflexivity.
  destruct sys_frozen; simpl.
  - destruct (os_which "python3" w) as [python|]; simpl; [|reflexivity].
    destruct (String.eqb python ""); simpl; [reflexivity|].
    destruct (os_run_program [python; "-m"; "venv"; venv_path] w) as [[| |rc out|rc] w2];
      simpl; try reflexivity; destruct (rc =? 0)%Z; reflexivity.
  - destruct (os_run_program [sys_executable; "-m"; "venv"; venv_path] w)
      as [[| |rc out|rc] w2];
      simpl; try reflexivity; destruct (rc =? 0)%Z; reflexivity.
Qed.

(** X18. Four commands end in one of two ways only, returning or
    [sys.exit(1)]: whatever the programs they run and the file system do, no
    other exception and no other exit code leaves [delete_venv],
    [recreate_venv], [generate_requirements] and [copy_local_files]. The
    same holds for [ensure_venv] and [check_pipreqs_installed] but for one
    error each that their [try] statements do not cover: that of the test
    [venv_path.exists()], and that of a [pipx] that is there and may not be
    executed. *)
Theorem commands_return_or_exit_1
    (venv_path app_path temp_path : string) (app : option string) (w : world) :
  (forall e, (delete_venv venv_path w).1.1 = Raise e -> e = SystemExit 1) /\
  (forall e, (recreate_venv venv_path app w).1.1 = Raise e -> e = SystemExit 1) /\
  (forall e, (generate_requirements app_path w).1.1 = Raise e -> e = SystemExit 1) /\
  (forall e, (copy_local_files app_path temp_path w).1.1 = Raise e -> e = SystemExit 1) /\
  (forall e, (ensure_venv venv_path w).1.1 = Raise e ->
     (e = SystemExit 1 /\ fs_exists venv_path w = Some false) \/
     (e = OtherOSError /\ fs_exists venv_path w = None)) /\
  (forall e, (check_pipreqs_installed w).1.1 = Raise e ->
     e = SystemExit 1 \/
     (e = OtherOSError /\ (os_run_program ["pipx"; "--version"] w).1 = NotPermitted)).
Proof.
  assert (H : forall {A} (m : L A) w', ends_with exit_1 m ->
            forall e, (m w').1.1 = Raise e -> e = SystemExit 1).
  { intros A m w' Hm e He. specialize (Hm w'). by rewrite He in Hm. }
  split; [apply H, ends_delete_venv|].
  split; [apply H, ends_recreate_venv|].
  split; [apply H, ends_generate_requirements|].
  split; [apply H, ends_copy_local_files|].
  split.
  - intros e. rewrite ensure_venv_eval.
    destruct (fs_exists venv_path w) as [[]|] eqn:Hex; simpl.
    + discriminate.
    + destruct (_ && _); simpl; [intros [= <-]; by left|].
      destruct (succeeded _); [discriminate|]. intros [= <-]. by left.
    + intros [= <-]. right. auto.
  - intros e. unfold check_pipreqs_installed. unfold lbind at 1.
    unfold ltry at 1. unfold check_call at 1.
    destruct (os_run_program ["pipx"; "--version"] w) as [c w1] eqn:Hrun.
    assert (Hsecond : forall w' r2 w2 t2 e',
              ltry (lbind (check_output ["pipx"; "list"])
                      (fun result =>
                         if Text.str_in "pipreqs" result then lret tt
                         else check_call ["pipx"; "install"; "pipreqs"]))
                   (except_any (lexit 1)) w' = (r2, w2, t2) ->
              r2 = Raise e' -> e' = SystemExit 1).
    { intros w' r2 w2 t2 e' Htry ->. pose proof (ends_pipreqs_listed w') as Hend.
      by rewrite Htry in Hend. }
    assert (Hzero : forall rc,
              (match (if (rc =? 0)%Z then Return 0%Z else Raise (CalledProcessError rc))
                     return result unit
               with
               | Return _ => Return tt
               | Raise e0 => Raise e0
               end) = if (rc =? 0)%Z then Return tt else Raise (CalledProcessError rc)).
    { intros rc. by destruct (rc =? 0)%Z. }
    destruct c as [| |rc out|rc]; cbv beta iota delta [checked returncode_of].
    + cbn. intros [= <-]. by left.
    + cbn. intros [= <-]. right. auto.
    + rewrite Hzero. destruct (rc =? 0)%Z; [|cbn; intros [= <-]; by left].
      destruct (ltry _ _ w1) as [[r2 w2] t2] eqn:Htry. cbn.
      intros ->. left. eapply Hsecond; eauto.
    + rewrite Hzero. destruct (rc =? 0)%Z; [|cbn; intros [= <-]; by left].
      destruct (ltry _ _ w1) as [[r2 w2] t2] eqn:Htry. cbn.
      intros ->. left. eapply Hsecond; eauto.
Qed.

(** X19. [uninstall_dependency] and [install_dependencies] catch
    [CalledProcessError] only. A non-zero status of pip becomes
    [sys.exit(1)]; a pip that cannot be started is not handled, and the
    [OSError] leaves the function. *)
Theorem unstartable_pip_escapes
    (venv_path package requirements : string) (w : world) :
  let pip := pip_executable venv_path in
  let uninstall := [pip; "uninstall"; "-y"; package] in
  let install := [pip; "install"; "-r"; requirements] in
  ((os_run_pip uninstall w).1 = NotStarted ->
   uninstall_dependency venv_path package w =
     (Raise OSError, (os_run_pip uninstall w).2, [Core (EvPip uninstall)])) /\
  (forall rc out,
     (os_run_pip uninstall w).1 = Completed rc out -> rc <> 0%Z ->
     uninstall_dependency venv_path package w =
       (Raise (SystemExit 1), (os_run_pip uninstall w).2, [Core (EvPip uninstall)])) /\
  (fs_exists requirements w = Some true ->
   (os_run_pip install w).1 = NotStarted ->
   install_dependencies venv_path (Some requirements) w =
     (Raise OSError, (os_run_pip install w).2, [Core (EvPip install)])) /\
  (fs_exists requirements w = Some true ->
   forall rc out,
     (os_run_pip install w).1 = Completed rc out -> rc <> 0%Z ->
     install_dependencies venv_path (Some requirements) w =
       (Raise (SystemExit 1), (os_run_pip install w).2, [Core (EvPip install)])).
Proof.
  intros pip uninstall install. repeat split.
  - intros Hun.
    unfold uninstall_dependency, ltry, lbind, lift, check_call_pip, checked.
    fold pip uninstall.
    destruct (os_run_pip uninstall w) as [c w1]. simpl in *. by subst c.
  - intros rc out Hun Hrc.
    unfold uninstall_dependency, ltry, lbind, lift, check_call_pip, checked.
    fold pip uninstall.
    destruct (os_run_pip uninstall w) as [c w1]. simpl in *. subst c.
    apply Z.eqb_neq in Hrc. simpl. by rewrite Hrc.
  - intros Hex Hin.
    unfold install_dependencies, ltry, lbind, lift, check_call_pip, path_exists_now, checked.
    fold pip install. rewrite Hex. simpl.
    destruct (os_run_pip install w) as [c w1]. simpl in *. by subst c.
  - intros Hex rc out Hin Hrc.
    unfold install_dependencies, ltry, lbind, lift, check_call_pip, path_exists_now, checked.
    fold pip install. rewrite Hex. simpl.
    destruct (os_run_pip install w) as [c w1]. simpl in *. subst c.
    apply Z.eqb_neq in Hrc. simpl. by rewrite Hrc.
Qed.

(** X20. [ensure_venv] does nothing when the environment exists, and fails
    with the error of the test when the path cannot be examined. Otherwise
    it runs one program, [<python> -m venv <venv_path>], and returns if
    that program ended with status 0 and exits with 1 if not; as a frozen
    application without [python3] on the path it runs nothing and exits
    with 1. It never runs two programs. *)
Theorem ensure_venv_creates_once (venv_path : string) (w : world) :
  let python := if sys_frozen then default "" (os_which "python3" w) else sys_executable in
  let create := [python; "-m"; "venv"; venv_path] in
  (fs_exists venv_path w = Some true -> ensure_venv venv_path w = (Return tt, w, [])) /\
  (fs_exists venv_path w = None -> ensure_venv venv_path w = (Raise OtherOSError, w, [])) /\
  (fs_exists venv_path w = Some false ->
   ensure_venv venv_path w =
     if sys_frozen && negb (given (os_which "python3" w))
     then (Raise (SystemExit 1), w, [])
     else (if succeeded (os_run_program create w).1 then Return tt
           else Raise (SystemExit 1),
           (os_run_program create w).2, [Program create])) /\
  length (ensure_venv venv_path w).2 <= 1.
Proof.
  intros python create.
  pose proof (ensure_venv_eval venv_path w) as Heval. cbv zeta in Heval.
  fold python in Heval. fold create in Heval.
  repeat split.
  - intros Hex. by rewrite Heval, Hex.
  - intros Hex. by rewrite Heval, Hex.
  - intros Hex. by rewrite Heval, Hex.
  - rewrite Heval. destruct (fs_exists venv_path w) as [[]|]; simpl; try lia.
    destruct (_ && _); simpl; lia.
Qed.

End CommandFacts.
(* ===================================================================== *)
(** ** Properties of [main] *)
(* ===================================================================== *)

Section MainFacts.

Import Launcher.
Context {host : Host} {platform : Platform host}.

Lemma lbind_inv {A B} (m : L A) (f : A -> L B) (w w2 : world) (r : result B)
    (t : list action) :
  lbind m f w = (r, w2, t) ->
  (exists e, m w = (Raise e, w2, t) /\ r = Raise e) \/
  (exists a w1 t1 t2,
     m w = (Return a, w1, t1) /\ f a w1 = (r, w2, t2) /\ t = t1 ++ t2).
Proof.
  unfold lbind. destruct (m w) as [[[a|e] w1] t1].
  - destruct (f a w1) as [[r2 w3] t2] eqn:Hf. intros [= <- <- <-].
    right. by exists a, w1, t1, t2.
  - intros [= <- <- <-]. left. by exists e.
Qed.

Lemma lbind_return_inv {A B} (m : L A) (f : A -> L B) (w w2 : world) (b : B)
    (t : list action) :
  lbind m f w = (Return b, w2, t) ->
  exists a w1 t1 t2,
    m w = (Return a, w1, t1) /\ f a w1 = (Return b, w2, t2) /\ t = t1 ++ t2.
Proof.
  intros H. apply lbind_inv in H as [(e & _ & [=]) | H]; exact H.
Qed.

Lemma ltry_return_inv {A} (body : L A) (handler : exn -> option (L A))
    (w w2 : world) (a : A) (t : list action) :
  ltry body handler w = (Return a, w2, t) ->
  body w = (Return a, w2, t) \/
  exists e w1 t1 h t2,
    body w = (Raise e, w1, t1) /\ handler e = Some h /\
    h w1 = (Return a, w2, t2) /\ t = t1 ++ t2.
Proof.
  unfold ltry. destruct (body w) as [[[a'|e] w1] t1].
  - intros [= <- <- <-]. by left.
  - destruct (handler e) as [h|] eqn:Hh; [|discriminate].
    destruct (h w1) as [[r2 w3] t2] eqn:Hrun. intros [= -> <- <-].
    right. by exists e, w1, t1, h, t2.
Qed.

(** A handler that ends in [sys.exit] never makes the statement return. *)
Lemma ltry_exit_return_inv {A} (body : L A) (handler : exn -> option (L A))
    (w w2 : world) (a : A) (t : list action) :
  (forall e h, handler e = Some h -> exists code, h = lexit code) ->
  ltry body handler w = (Return a, w2, t) ->
  body w = (Return a, w2, t).
Proof.
  intros Hexit H.
  apply ltry_return_inv in H as [H | (e & w1 & t1 & h & t2 & _ & Hh & Hrun & _)];
    [exact H|].
  destruct (Hexit e h Hh) as [code ->]. discriminate.
Qed.

Lemma setup_action_not_target (known_args : Namespace) (a : action) :
  setup_action known_args a -> is_target_action a = false.
Proof.
  unfold setup_action, log_action, pipx_action, venv_action, pip_action,
    recreate_action, generate_action, copy_action, venv_action, pip_action.
  destruct (resolved (app known_args)) as [app_path|]; intros H;
    repeat match goal with
           | H : _ \/ _ |- _ => destruct H as [H|H]
           | H : _ /\ _ |- _ => destruct H as [_ H]
           | H : ex _ |- _ => destruct H as [? H]
           | H : False |- _ => destruct H
           end; subst; reflexivity.
Qed.

(** [main] always ends; how it ends once [main_setup] has. *)
Lemma main_cases (known_args : Namespace) (app_args : list string) (w : world) :
  exists r w1 t1,
    main_setup known_args w = (r, w1, t1) /\
    match r with
    | Raise e => main known_args app_args w = Some (Raise e, w1, t1)
    | Return None => main known_args app_args w = Some (Return tt, w1, t1)
    | Return (Some app_path) =>
        exists w2 t2,
          main known_args app_args w = Some (Return tt, w2, t1 ++ map Core t2)
    end.
Proof.
  unfold main. destruct (main_setup known_args w) as [[r w1] t1].
  exists r, w1, t1. split; [reflexivity|].
  destruct r as [[app_path|]|e]; [|reflexivity..].
  destruct (run_application_trace (path_resolve (venv known_args)) app_path app_args
              (force_install known_args) (fixed_delay known_args) w1)
    as (r2 & w2 & t2 & Hrun & _).
  unfold thread_start_join. rewrite Hrun. by exists w2, t2.
Qed.

(** The whole launcher always ends in the model; how it ends once the
    command line is parsed. *)
Lemma script_cases (w : world) :
  match os_parse_arguments w with
  | inr code => script w = Some (Raise (SystemExit code), w, [])
  | inl (known_args, app_args) => script w = main known_args app_args w
  end.
Proof.
  unfold script, parse_arguments.
  destruct (os_parse_arguments w) as [[known_args app_args]|code]; [|reflexivity].
  destruct (main_cases known_args app_args w) as (r & w1 & t1 & _ & Hmain).
  destruct (main known_args app_args w) as [[[r2 w2] t2]|]; [reflexivity|].
  destruct r as [[app_path|]|e]; [by destruct Hmain as (? & ? & ?)|done..].
Qed.

(** X21. How a run of the launcher ends. When [argparse] ends the process,
    with status 2 for a command line it rejects and 0 after [--help],
    nothing has been done. Otherwise the process exit status is 0 or 1,
    and it is 1 only if the target was never executed: every failure after
    the thread has been started is lost. *)
Theorem main_exit_status_is_0_or_1
    (w w1 : world) (r : result unit) (t : list action) :
  script w = Some (r, w1, t) ->
  match os_parse_arguments w with
  | inr code => r = Raise (SystemExit code) /\ process_exit_status r = code /\ t = []
  | inl _ =>
      (process_exit_status r = 0%Z \/ process_exit_status r = 1%Z) /\
      (process_exit_status r = 1%Z -> Forall (fun a => is_target_action a = false) t)
  end.
Proof.
  intros Hscript. pose proof (script_cases w) as Hcases.
  destruct (os_parse_arguments w) as [[known_args app_args]|code].
  - rewrite Hcases in Hscript.
    destruct (main_cases known_args app_args w) as (r' & w1' & t1 & Hsetup & Hmain).
    pose proof (ends_main_setup known_args w) as Hend.
    pose proof (emits_main_setup known_args w) as Hemit.
    rewrite Hsetup in Hend, Hemit. simpl in Hend, Hemit.
    destruct r' as [[app_path|]|e].
    + destruct Hmain as (w2 & t2 & Hmain). rewrite Hmain in Hscript.
      injection Hscript as <- <- <-. split; [by left|discriminate].
    + rewrite Hmain in Hscript. injection Hscript as <- <- <-.
      split; [by left|discriminate].
    + rewrite Hmain in Hscript. injection Hscript as <- <- <-.
      split; [destruct Hend as [-> | [-> | [-> | ->]]]; simpl; auto|].
      intros _. eapply Forall_impl; [exact Hemit|].
      intros a. apply setup_action_not_target.
  - rewrite Hcases in Hscript. injection Hscript as <- <- <-. auto.
Qed.

Lemma open_log_file_spec (w : world) :
  exists w1 t,
    open_log_file w = (Return tt, w1, t) /\ Forall log_action t /\ length t <= 1.
Proof.
  pose proof (ends_open_log_file w) as Hend.
  pose proof (emits_open_log_file w) as Hemit.
  assert (Hlen : length (open_log_file w).2 <= 1).
  { unfold open_log_file, ltry, check_call, fs, lret, checked.
    repeat match goal with
           | |- context [os_run_program ?a ?w] =>
               destruct (os_run_program a w) as [[| |? ?|?] ?]; cbn [returncode_of]
           | |- context [os_fs ?a ?w] => destruct (os_fs a w) as [[] ?]
           | |- context [if ?b then _ else _] => destruct b
           end; simpl; lia. }
  destruct (open_log_file w) as [[[[]|e] w1] t]; simpl in *; [|done].
  by exists w1, t.
Qed.

(** X22. With [--log], [main] opens the log file, with one action at most,
    and exits with 0 whether or not that worked: [pipx] is not looked
    for, no environment is touched, every other option is ignored. *)
Theorem log_option_only_opens_the_log
    (known_args : Namespace) (app_args : list string) (w : world) :
  log known_args = true ->
  exists w1 t,
    main known_args app_args w = Some (Raise (SystemExit 0), w1, t) /\
    Forall log_action t /\ length t <= 1.
Proof.
  intros Hlog.
  destruct (open_log_file_spec w) as (w1 & t & Hopen & Hact & Hlen).
  exists w1, t. split; [|done].
  unfold main, main_setup. rewrite Hlog.
  erewrite lbind_raise; [reflexivity|].
  erewrite lbind_return by exact Hopen. simpl. by rewrite app_nil_r.
Qed.

(** X23. Without [--log], nothing is done before [pipx --version] has
    succeeded: when [pipx] cannot be started or ends with a non-zero
    status, [main] ends with the process exit status 1 and that call is
    its only action, whatever the command was. It ends by [sys.exit(1)],
    or, when [pipx] is there and may not be executed, by the error of the
    start, which no clause catches. *)
Theorem pipx_is_required
    (known_args : Namespace) (app_args : list string) (w : world) :
  let pipx := ["pipx"; "--version"] in
  let e := match (os_run_program pipx w).1 with
           | NotPermitted => OtherOSError
           | _ => SystemExit 1
           end in
  log known_args = false ->
  succeeded (os_run_program pipx w).1 = false ->
  main known_args app_args w =
    Some (Raise e, (os_run_program pipx w).2, [Program pipx]) /\
  process_exit_status (Raise e : result unit) = 1%Z.
Proof.
  intros pipx e Hlog Hpipx. subst e. split.
  - unfold main, main_setup. rewrite Hlog.
    erewrite lbind_return by reflexivity. simpl.
    erewrite lbind_raise; [reflexivity|].
    unfold check_pipreqs_installed.
    erewrite lbind_raise; [reflexivity|].
    unfold ltry, check_call, checked. fold pipx.
    destruct (os_run_program pipx w) as [c w1]. simpl in *.
    destruct c as [| |rc out|rc]; simpl in *; try reflexivity; by rewrite Hpipx.
  - by destruct (os_run_program pipx w).1.
Qed.

(** With [--delete] and without [--log], [main_setup] never returns. *)
Lemma main_setup_delete (known_args : Namespace) :
  log known_args = false -> delete known_args = true ->
  returns (fun _ => False) (main_setup known_args) /\
  ends_with (fun e => e = SystemExit 0 \/ e = SystemExit 1 \/ e = OtherOSError)
    (main_setup known_args) /\
  emits (fun a => pipx_action a \/ a = Fs (Rmtree (path_resolve (venv known_args))))
    (main_setup known_args).
Proof.
  intros Hlog Hdelete. unfold main_setup. rewrite Hlog, Hdelete. cbv zeta.
  split; [|split].
  - do 4 (apply returns_lbind; intros ?).
    apply returns_lbind_l. apply returns_lbind. intros _. apply returns_lexit.
  - apply ends_lbind; [apply ends_lret|]. intros _.
    apply ends_lbind.
    { eapply ends_weaken; [apply ends_check_pipreqs_installed|].
      intros e [-> | ->]; auto. }
    intros _. apply ends_lbind.
    { destruct (resolved (app known_args)); [|apply ends_lret].
      apply ends_lbind; [apply ends_path_exists_now; auto|]. intros ?. apply ends_lret. }
    intros app_missing. apply ends_lbind.
    { apply ends_if; [apply ends_lexit; auto|apply ends_lret]. }
    intros _. apply ends_lbind.
    { apply ends_lbind.
      - eapply ends_weaken; [apply ends_delete_venv|]. intros e ->. auto.
      - intros _. apply ends_lexit. by left. }
    intros _. destruct (resolved (app known_args)); simpl; apply ends_lret.
  - apply emits_lbind; [apply emits_lret|]. intros _.
    apply emits_lbind.
    { eapply emits_weaken; [apply emits_check_pipreqs_installed|]. by left. }
    intros _. apply emits_lbind.
    { destruct (resolved (app known_args)); [|apply emits_lret].
      apply emits_lbind; [apply emits_path_exists_now|]. intros ?. apply emits_lret. }
    intros app_missing. apply emits_lbind.
    { apply emits_if; [apply emits_lexit|apply emits_lret]. }
    intros _. apply emits_lbind.
    { apply emits_lbind.
      - eapply emits_weaken; [apply emits_delete_venv|]. by right.
      - intros _. apply emits_lexit. }
    intros _. destruct (resolved (app known_args)); simpl; apply emits_lret.
Qed.

(** X24. With [--delete], [main] never returns normally: it ends by
    [sys.exit] with 0 or 1, or by the error of a [pipx] that may not be
    executed or of a path that cannot be examined, so the process exit
    status is 0 or 1. Beside the calls of [pipx] its only possible action
    is the removal of the environment directory: nothing is installed and,
    even when [-a] is given, the application is not run. *)
Theorem delete_option_only_deletes
    (known_args : Namespace) (app_args : list string) (w : world) :
  log known_args = false -> delete known_args = true ->
  exists e w1 t,
    main known_args app_args w = Some (Raise e, w1, t) /\
    (e = SystemExit 0 \/ e = SystemExit 1 \/ e = OtherOSError) /\
    (process_exit_status (Raise e : result unit) = 0%Z \/
     process_exit_status (Raise e : result unit) = 1%Z) /\
    Forall (fun a => pipx_action a \/ a = Fs (Rmtree (path_resolve (venv known_args)))) t.
Proof.
  intros Hlog Hdelete.
  destruct (main_setup_delete known_args Hlog Hdelete) as (Hret & Hend & Hemit).
  specialize (Hret w). specialize (Hend w). specialize (Hemit w).
  unfold main.
  destruct (main_setup known_args w) as [[[o|e] w1] t]; simpl in *; [done|].
  exists e, w1, t. split; [reflexivity|]. split; [exact Hend|]. split; [|exact Hemit].
  destruct Hend as [-> | [-> | ->]]; simpl; auto.
Qed.

(** Without an application to launch, [main_setup] yields no path. *)
Lemma main_setup_nothing_to_launch (known_args : Namespace) :
  resolved (app known_args) = None \/ some (unpip known_args) = true \/
  delete known_args = true ->
  returns (fun o => o = None) (main_setup known_args).
Proof.
  intros H. unfold main_setup. cbv zeta.
  do 5 (apply returns_lbind; intros ?).
  destruct (resolved (app known_args)) as [app_path|]; [|by apply returns_lret].
  destruct H as [H | [H | H]]; [discriminate|..]; rewrite H;
    rewrite ?orb_true_r; simpl; by apply returns_lret.
Qed.

(** X25. The target is executed only when [-a] is given without [--unpip]
    and [--delete]: otherwise no action of [main] is an execution of the
    target or a sleep. *)
Theorem target_runs_only_with_app
    (known_args : Namespace) (app_args : list string) (w : world) :
  resolved (app known_args) = None \/ some (unpip known_args) = true \/
  delete known_args = true ->
  exists r w1 t,
    main known_args app_args w = Some (r, w1, t) /\
    Forall (fun a => is_target_action a = false) t.
Proof.
  intros H.
  pose proof (main_setup_nothing_to_launch known_args H w) as Hret.
  pose proof (emits_main_setup known_args w) as Hemit.
  unfold main.
  destruct (main_setup known_args w) as [[[o|e] w1] t]; simpl in *.
  - subst o. eexists _, w1, t. split; [reflexivity|].
    eapply Forall_impl; [exact Hemit|]. intros a. apply setup_action_not_target.
  - eexists _, w1, t. split; [reflexivity|].
    eapply Forall_impl; [exact Hemit|]. intros a. apply setup_action_not_target.
Qed.

(** X26. When the path given with [-a] does not exist once [pipx] has been
    checked, [main] ends with the process exit status 1 and that check is
    all it has done: no environment is created, also under [--update],
    [--pip] and [--recreate], which do not use the application. It ends by
    [sys.exit(1)] when the check returned, and as the check ended when it
    did not. *)
Theorem missing_application_stops_main
    (known_args : Namespace) (app_args : list string) (w : world) (app_path : string) :
  let r := match (check_pipreqs_installed w).1.1 with
           | Return _ => Raise (SystemExit 1)
           | Raise e => Raise e
           end in
  log known_args = false ->
  delete known_args = false ->
  unpip known_args = [] ->
  resolved (app known_args) = Some app_path ->
  fs_exists app_path (check_pipreqs_installed w).1.2 = Some false ->
  main known_args app_args w =
    Some (r, (check_pipreqs_installed w).1.2, (check_pipreqs_installed w).2) /\
  process_exit_status (r : result unit) = 1%Z.
Proof.
  intros r Hlog Hdelete Hunpip Happ Hmissing. subst r.
  pose proof (ends_check_pipreqs_installed w) as Hend.
  unfold main, main_setup. rewrite Hlog, Hdelete, Hunpip, Happ. cbv zeta.
  erewrite lbind_return by reflexivity. simpl.
  destruct (check_pipreqs_installed w) as [[[[]|e] w1] t] eqn:Hcheck; simpl in *.
  - split; [|reflexivity].
    erewrite lbind_return by exact Hcheck.
    assert (Hm : lbind (path_exists_now app_path)
                   (fun app_exists => lret (negb app_exists)) w1 = (Return true, w1, [])).
    { unfold lbind, path_exists_now, lret. by rewrite Hmissing. }
    erewrite (lbind_return _ _ w1) by exact Hm. simpl.
    by rewrite app_nil_r.
  - split; [|by destruct Hend as [-> | ->]].
    erewrite lbind_raise; [reflexivity|exact Hcheck].
Qed.

Ltac lbind_returns H Hm t1 :=
  let a := fresh "a" in
  let w := fresh "w" in
  let t2 := fresh "rest" in
  apply lbind_return_inv in H as (a & w & t1 & t2 & Hm & H & ->).

Ltac lbind_returns_value H Hm x t1 :=
  let w := fresh "w" in
  let t2 := fresh "rest" in
  apply lbind_return_inv in H as (x & w & t1 & t2 & Hm & H & ->).

Lemma lret_inv {A} (a b : A) (w w1 : world) (t : list action) :
  lret a w = (Return b, w1, t) -> b = a /\ w1 = w /\ t = [].
Proof. unfold lret. by intros [= <- <- <-]. Qed.

Lemma app_missing_inv (app_path : string) (b : bool) (w w1 : world) (t : list action) :
  lbind (path_exists_now app_path) (fun app_exists => lret (negb app_exists)) w =
    (Return b, w1, t) ->
  w1 = w /\ t = [].
Proof.
  unfold lbind, path_exists_now, lret.
  destruct (fs_exists app_path w); [by intros [= _ <- <-]|discriminate].
Qed.

Lemma if_exit_inv (b : bool) (code : Z) (u : unit) (w w1 : world) (t : list action) :
  (if b then lexit code else lret tt) w = (Return u, w1, t) -> w1 = w /\ t = [].
Proof. destruct b; [discriminate|]. unfold lret. by intros [= <- <-]. Qed.

Lemma install_dependencies_returns
    (venv_path requirements : string) (u : unit) (w w1 : world) (t : list action) :
  install_dependencies venv_path (Some requirements) w = (Return u, w1, t) ->
  t = [Core (EvPip [pip_executable venv_path; "install"; "-r"; requirements])].
Proof.
  unfold install_dependencies, lbind, path_exists_now, ltry, lift, check_call_pip,
    except_called_process, lexit, lraise, lret.
  unfold checked.
  destruct (fs_exists requirements w) as [[]|]; simpl; try discriminate.
  destruct (os_run_pip _ w) as [[| |rc out|rc] w2]; simpl; try discriminate;
    destruct (rc =? 0)%Z; simpl; try discriminate; by intros [= <- <-].
Qed.

Lemma ensure_venv_returns
    (venv_path : string) (u : unit) (w w1 : world) (t : list action) :
  ensure_venv venv_path w = (Return u, w1, t) -> Forall (venv_action venv_path) t.
Proof.
  intros H. pose proof (emits_ensure_venv venv_path w) as Hemit. by rewrite H in Hemit.
Qed.

Lemma check_pipreqs_installed_returns (u : unit) (w w1 : world) (t : list action) :
  check_pipreqs_installed w = (Return u, w1, t) -> Forall pipx_action t.
Proof.
  intros H. pose proof (emits_check_pipreqs_installed w) as Hemit. by rewrite H in Hemit.
Qed.

(** X27. A plain launch with [-a] and [-r] installs the requirements file
    twice: whenever [main] gets as far as starting the thread, the call
    [pip install -r <requirements>] has been made two times, and beside the
    calls of [pipx] and the creation of the environment nothing else. *)
Theorem requirements_are_installed_twice
    (known_args : Namespace) (w w1 : world) (app_path requirements_path : string)
    (o : option string) (t : list action) :
  let venv_path := path_resolve (venv known_args) in
  let install :=
    Core (EvPip [pip_executable venv_path; "install"; "-r"; requirements_path]) in
  log known_args = false -> delete known_args = false ->
  recreate known_args = false -> update known_args = false ->
  pip known_args = [] -> unpip known_args = [] ->
  resolved (app known_args) = Some app_path ->
  resolved (requirements known_args) = Some requirements_path ->
  main_setup known_args w = (Return o, w1, t) ->
  o = Some app_path /\
  exists before between,
    t = before ++ install :: between ++ [install] /\
    Forall (fun a => pipx_action a \/ venv_action venv_path a) before /\
    Forall (venv_action venv_path) between.
Proof.
  intros venv_path install Hlog Hdelete Hrecreate Hupdate Hpip Hunpip Happ Hreq H.
  unfold main_setup in H.
  rewrite Hlog, Hdelete, Hrecreate, Hupdate, Hpip, Hunpip, Happ, Hreq in H.
  cbv zeta in H. cbn [some orb negb] in H. fold venv_path in H.
  lbind_returns H H0 tr0.
  apply lret_inv in H0 as (_ & -> & ->).
  lbind_returns H Hpipx tra.
  apply check_pipreqs_installed_returns in Hpipx.
  lbind_returns H Hmissing trb.
  apply app_missing_inv in Hmissing as [-> ->].
  lbind_returns H Hexit trc.
  apply if_exit_inv in Hexit as [-> ->].
  lbind_returns H Hfirst trd.
  apply lbind_return_inv in Hfirst as (u4 & we & tre & trf & Hvenv1 & Hinstall1 & ->).
  apply ensure_venv_returns in Hvenv1.
  apply install_dependencies_returns in Hinstall1 as ->.
  lbind_returns H Hvenv2 trg.
  apply ensure_venv_returns in Hvenv2.
  lbind_returns H Hinstall2 trh.
  apply install_dependencies_returns in Hinstall2 as ->.
  apply lret_inv in H as (-> & _ & ->).
  split; [reflexivity|].
  exists (tra ++ tre), trg. split; [|split].
  - simpl. rewrite <- !app_assoc. reflexivity.
  - apply Forall_app. split; (eapply Forall_impl; [eassumption|]); auto.
  - exact Hvenv2.
Qed.




Lemma path_exists_now_inv (path : string) (b : bool) (w w1 : world) (t : list action) :
  path_exists_now path w = (Return b, w1, t) ->
  fs_exists path w = Some b /\ w1 = w /\ t = [].
Proof.
  unfold path_exists_now. destruct (fs_exists path w); [|discriminate].
  by intros [= <- <- <-].
Qed.

Lemma fs_returns (call : fs_call) (u : unit) (w w1 : world) (t : list action) :
  fs call w = (Return u, w1, t) -> t = [Fs call].
Proof. unfold fs. destruct (os_fs call w) as [[] w2]; by intros [= <- <-]. Qed.

Lemma except_any_exit {A} (code : Z) (e : exn) (h : L A) :
  except_any (lexit code) e = Some h -> exists code', h = lexit code'.
Proof.
  unfold except_any. destruct (is_CalledProcessError e); [intros [= <-]; by eexists|].
  destruct (is_Exception e); [intros [= <-]; by eexists|discriminate].
Qed.

Lemma except_exception_exit {A} (code : Z) (e : exn) (h : L A) :
  (if is_Exception e then Some (lexit code) else None) = Some h ->
  exists code', h = lexit code'.
Proof. destruct (is_Exception e); [intros [= <-]; by eexists|discriminate]. Qed.

Lemma with_temporary_directory_return_inv {A} (body : string -> L A)
    (w w1 : world) (a : A) (t : list action) :
  with_temporary_directory body w = (Return a, w1, t) ->
  exists temp_dir w0 w2 tbody,
    body temp_dir w0 = (Return a, w2, tbody) /\
    t = Mkdtemp :: tbody ++ [Cleanup temp_dir].
Proof.
  unfold with_temporary_directory.
  destruct (os_mkdtemp w) as [[temp_dir|] w0]; [|discriminate].
  destruct (body temp_dir w0) as [[r w2] tbody] eqn:Hbody.
  intros [= -> _ <-]. by exists temp_dir, w0, w2, tbody.
Qed.

(** When [generate_requirements] returns, it returns the path of
    [requirements.txt] beside the target, and has just written that file. *)
Lemma generate_requirements_returns
    (app_path path : string) (w w1 : world) (t : list action) :
  generate_requirements app_path w = (Return path, w1, t) ->
  path = permanent_requirements app_path /\
  exists before content temp_dir,
    t = before ++ [Fs (WriteText path content); Cleanup temp_dir].
Proof.
  unfold generate_requirements. intros H.
  apply ltry_exit_return_inv in H; [|intros e h; apply except_any_exit].
  apply with_temporary_directory_return_inv in H
    as (temp_dir & w0 & w2 & tbody & Hbody & ->).
  lbind_returns Hbody Hcopy tcopy.
  lbind_returns Hbody Hpipreqs tpipreqs.
  lbind_returns_value Hbody Hread content tread.
  lbind_returns Hbody Hwrite twrite.
  apply lret_inv in Hbody as (-> & _ & ->).
  apply fs_returns in Hwrite as ->.
  split; [reflexivity|].
  exists (Mkdtemp :: tcopy ++ tpipreqs ++ tread), content, temp_dir.
  simpl. rewrite <- !app_assoc. reflexivity.
Qed.

(** X29. A successful [--recreate] with an application replaces the file
    [requirements.txt] beside the application and then removes it:
    whenever [recreate_venv] returns, [generate_requirements] has returned
    in it, having just written that file; and the actions that follow are,
    if the file is found to be there at that moment, one [pip install -r]
    of it and its unlinking, and none if it is not. A file of that name the
    user kept there is lost. *)
Theorem recreate_replaces_requirements_file
    (venv_path app_path : string) (u : unit) (w w1 : world) (t : list action) :
  let generated := permanent_requirements app_path in
  recreate_venv venv_path (Some app_path) w = (Return u, w1, t) ->
  exists before earlier content temp_dir w0 w' there,
    generate_requirements app_path w0 =
      (Return generated, w',
       earlier ++ [Fs (WriteText generated content); Cleanup temp_dir]) /\
    fs_exists generated w' = Some there /\
    t = before ++ earlier ++ [Fs (WriteText generated content); Cleanup temp_dir] ++
        (if there
         then [Core (EvPip [pip_executable venv_path; "install"; "-r"; generated]);
               Fs (Unlink generated)]
         else []).
Proof.
  intros generated H. unfold recreate_venv in H.
  apply ltry_exit_return_inv in H; [|intros e h; apply except_exception_exit].
  lbind_returns H Hexists tr0.
  apply path_exists_now_inv in Hexists as (_ & -> & ->).
  lbind_returns H Hrmtree tr1.
  lbind_returns H Hvenv tr2.
  lbind_returns H Hgenerate tr3.
  pose proof Hgenerate as Hgenerated.
  apply generate_requirements_returns in Hgenerated
    as (-> & earlier & content & temp_dir & ->).
  fold generated in H, Hgenerate.
  lbind_returns_value H Hthere requirements_exists tr4.
  apply path_exists_now_inv in Hthere as (Hthere & -> & ->).
  eexists (tr1 ++ tr2), earlier, content, temp_dir, _, _, requirements_exists.
  split; [exact Hgenerate|]. split; [exact Hthere|].
  destruct requirements_exists.
  - lbind_returns H Hinstall tr5.
    apply install_dependencies_returns in Hinstall as ->.
    match type of H with
    | _ = (_, _, ?rest) => assert (rest = [Fs (Unlink generated)]) as ->
    end.
    { revert H. unfold ltry, fs. destruct (os_fs (Unlink generated) _) as [[] wu]; simpl.
      - by intros [= _ <-].
      - unfold lret. by intros [= _ <-]. }
    simpl. rewrite <- !app_assoc. reflexivity.
  - apply lret_inv in H as (_ & _ & ->).
    simpl. rewrite !app_nil_r, <- !app_assoc. reflexivity.
Qed.

(** X30. What [main] changes in the file system. It removes a tree only
    under [--delete] or [--recreate], and only the environment directory; it
    writes and unlinks only [requirements.txt] beside the application, and
    copies only the application and modules that are not in the list of
    skipped names, all three under [--recreate] only; it opens only the log
    file, under [--log]. *)
Theorem file_system_changes_are_confined
    (known_args : Namespace) (app_args : list string) (w : world) :
  exists r w1 t,
    main known_args app_args w = Some (r, w1, t) /\
    forall call, Fs call ∈ t ->
      (log known_args = true /\ call = Startfile LOG_FILE) \/
      ((delete known_args = true \/ recreate known_args = true) /\
       call = Rmtree (path_resolve (venv known_args))) \/
      (recreate known_args = true /\
       exists app_path,
         resolved (app known_args) = Some app_path /\
         (call = Unlink (permanent_requirements app_path) \/
          (exists content, call = WriteText (permanent_requirements app_path) content) \/
          (exists temp_path, copy_action app_path temp_path (Fs call)))).
Proof.
  destruct (main_cases known_args app_args w) as (r & w1 & t1 & Hsetup & Hmain).
  pose proof (emits_main_setup known_args w) as Hemit.
  rewrite Hsetup in Hemit. simpl in Hemit.
  assert (Hcalls : forall call, Fs call ∈ t1 ->
      (log known_args = true /\ call = Startfile LOG_FILE) \/
      ((delete known_args = true \/ recreate known_args = true) /\
       call = Rmtree (path_resolve (venv known_args))) \/
      (recreate known_args = true /\
       exists app_path,
         resolved (app known_args) = Some app_path /\
         (call = Unlink (permanent_requirements app_path) \/
          (exists content, call = WriteText (permanent_requirements app_path) content) \/
          (exists temp_path, copy_action app_path temp_path (Fs call))))).
  { intros call Hin. rewrite Forall_forall in Hemit. apply Hemit in Hin.
    unfold setup_action in Hin.
    destruct Hin as [[Hlog Ha] | [Ha | [Ha | [Ha | [[_ Ha] | [[Hdelete Ha] | [Hrec Ha]]]]]]].
    - left. split; [exact Hlog|].
      destruct Ha as [Ha | [Ha | Ha]]; [discriminate..|]. by injection Ha.
    - destruct Ha as [args Ha]. discriminate.
    - destruct Ha as [python Ha]. discriminate.
    - destruct Ha as [args Ha]. discriminate.
    - discriminate.
    - right. left. split; [by left|]. by injection Ha.
    - unfold recreate_action in Ha.
      destruct Ha as [Ha | [[python Ha] | Ha]]; [|discriminate|].
      + right. left. split; [by right|]. by injection Ha.
      + right. right. split; [exact Hrec|].
        destruct (resolved (app known_args)) as [app_path|]; [|done].
        exists app_path. split; [reflexivity|].
        destruct Ha as [Ha | [[args Ha] | Ha]]; [|discriminate|].
        * unfold generate_action in Ha.
          destruct Ha as [Ha | [[temp_dir [Ha | [Ha | Ha]]] | [content Ha]]];
            [discriminate|discriminate| |discriminate|].
          -- right. right. by exists temp_dir.
          -- right. left. exists content. by injection Ha.
        * left. by injection Ha. }
  destruct r as [[app_path|]|e].
  - destruct Hmain as (w2 & t2 & ->). eexists _, _, _. split; [reflexivity|].
    intros call Hin. apply elem_of_app in Hin as [Hin | Hin]; [by apply Hcalls|].
    apply list_elem_of_fmap in Hin as (e & He & _). discriminate.
  - rewrite Hmain. eexists _, _, _. split; [reflexivity|]. exact Hcalls.
  - rewrite Hmain. eexists _, _, _. split; [reflexivity|]. exact Hcalls.
Qed.

End MainFacts.

(* ===================================================================== *)
(** ** The theorems on the launcher, at concrete machines *)
(* ===================================================================== *)

Lemma freeze_packages_of_freeze_text_witness :
  freeze_packages Machines.frozen = ["requests"; "Pillow"].
Proof.
  apply (freeze_packages_of_freeze_text [("requests", "2.31.0"); ("Pillow", "10.0.0")]).
  repeat (constructor; [split; repeat (constructor; [vm_compute; try split; done|])|]);
    constructor.
Defined.

Lemma update_upgrades_the_frozen_names_witness :
  (Launcher.update_all_packages (platform := Machines.laptop)
     Scenario.venv Machines.settled).2 =
  [Launcher.Core (EvPip ["/home/u/.local/envy/bin/pip"; "install"; "--upgrade"; "pip"]);
   Launcher.Program ["/home/u/.local/envy/bin/pip"; "freeze"];
   Launcher.Core (EvPip ["/home/u/.local/envy/bin/pip"; "install"; "--upgrade";
                         "requests"; "Pillow"])].
Proof.
  apply (update_upgrades_the_frozen_names (platform := Machines.laptop)
           Scenario.venv Machines.settled EmptyString Machines.frozen);
    reflexivity.
Defined.

Lemma log_option_only_opens_the_log_witness :
  exists w1 t,
    Launcher.main (platform := Machines.laptop) Machines.show_log [] Machines.fresh =
      Some (Raise (SystemExit 0), w1, t) /\
    Forall (Launcher.log_action (platform := Machines.laptop)) t /\ length t <= 1.
Proof.
  apply (log_option_only_opens_the_log (platform := Machines.laptop)
           Machines.show_log [] Machines.fresh).
  reflexivity.
Defined.

Lemma main_exit_status_is_0_or_1_witness :
  exists w1 t,
    Launcher.script (platform := Machines.laptop) Machines.fresh =
      Some (Return tt, w1, t) /\
    (process_exit_status (Return tt : result unit) = 0%Z \/
     process_exit_status (Return tt : result unit) = 1%Z).
Proof.
  eexists _, _. split; [vm_compute; reflexivity|].
  pose proof (main_exit_status_is_0_or_1 (platform := Machines.laptop)
                Machines.fresh _ (Return tt) _ ltac:(vm_compute; reflexivity)) as H.
  exact (proj1 H).
Defined.

(** A command line that [argparse] rejects: the process ends with status 2
    and nothing is done. *)
Example rejected_command_line :
  Launcher.script (platform := Machines.laptop_at (inr 2%Z)) Machines.fresh =
    Some (Raise (SystemExit 2), Machines.fresh, []) /\
  process_exit_status (Raise (SystemExit 2) : result unit) = 2%Z.
Proof. split; reflexivity. Qed.

Lemma pipx_is_required_witness :
  Launcher.main (platform := Machines.no_pipx) Machines.launch [] Machines.fresh =
  Some (Raise (SystemExit 1), Machines.fresh, [Launcher.Program ["pipx"; "--version"]]).
Proof.
  apply (pipx_is_required (platform := Machines.no_pipx) Machines.launch [] Machines.fresh).
  - reflexivity.
  - reflexivity.
Defined.

(** A [pipx] that may not be executed: the error of the start ends [main],
    and [ensure_venv] fails in the same way on a path it cannot examine. *)
Example errors_no_clause_catches :
  Launcher.main (platform := Machines.forbidden_pipx) Machines.launch [] Machines.fresh =
    Some (Raise OtherOSError, Machines.fresh, [Launcher.Program ["pipx"; "--version"]]) /\
  Launcher.check_pipreqs_installed (platform := Machines.forbidden_pipx) Machines.fresh =
    (Raise OtherOSError, Machines.fresh, [Launcher.Program ["pipx"; "--version"]]) /\
  Launcher.ensure_venv (platform := Machines.laptop)
    ("/home/u/" +:+ Cases.long_name +:+ "abc") Machines.fresh =
    (Raise OtherOSError, Machines.fresh, []).
Proof. repeat split; vm_compute; reflexivity. Qed.

Lemma delete_option_only_deletes_witness :
  exists e w1 t,
    Launcher.main (platform := Machines.laptop) Machines.delete_with_app []
      Machines.settled = Some (Raise e, w1, t) /\
    (e = SystemExit 0 \/ e = SystemExit 1 \/ e = OtherOSError) /\
    (process_exit_status (Raise e : result unit) = 0%Z \/
     process_exit_status (Raise e : result unit) = 1%Z) /\
    Forall (fun a => Launcher.pipx_action a \/
                     a = Launcher.Fs (Launcher.Rmtree Scenario.venv)) t.
Proof.
  apply (delete_option_only_deletes (platform := Machines.laptop)
           Machines.delete_with_app [] Machines.settled);
    reflexivity.
Defined.

Lemma target_runs_only_with_app_witness :
  exists r w1 t,
    Launcher.main (platform := Machines.laptop) Machines.install_two [] Machines.fresh =
      Some (r, w1, t) /\
    Forall (fun a => Launcher.is_target_action a = false) t.
Proof.
  apply (target_runs_only_with_app (platform := Machines.laptop)
           Machines.install_two [] Machines.fresh).
  left. reflexivity.
Defined.

Lemma missing_application_stops_main_witness :
  Launcher.main (platform := Machines.laptop) Machines.update_with_app [] Machines.empty =
  Some (Raise (SystemExit 1), Machines.empty,
        [Launcher.Program ["pipx"; "--version"]; Launcher.Program ["pipx"; "list"]]).
Proof.
  apply (missing_application_stops_main (platform := Machines.laptop)
           Machines.update_with_app [] Machines.empty Scenario.app);
    reflexivity.
Defined.

Lemma requirements_are_installed_twice_witness :
  let install :=
    Launcher.Core (EvPip ["/home/u/.local/envy/bin/pip"; "install"; "-r";
                          "/srv/app/deps.txt"]) in
  let t :=
    [Launcher.Program ["pipx"; "--version"]; Launcher.Program ["pipx"; "list"];
     Launcher.Program ["/usr/bin/python3"; "-m"; "venv"; Scenario.venv];
     install; install] in
  Launcher.main_setup (platform := Machines.laptop) Machines.launch Machines.fresh =
    (Return (Some Scenario.app), Machines.add Scenario.venv Machines.fresh, t) /\
  exists before between,
    t = before ++ install :: between ++ [install] /\
    Forall (fun a => Launcher.pipx_action a \/
                     Launcher.venv_action Scenario.venv a) before /\
    Forall (Launcher.venv_action Scenario.venv) between.
Proof.
  split; [reflexivity|].
  apply (requirements_are_installed_twice (platform := Machines.laptop)
           Machines.launch Machines.fresh (Machines.add Scenario.venv Machines.fresh)
           Scenario.app "/srv/app/deps.txt" (Some Scenario.app));
    reflexivity.
Defined.


Lemma recreate_replaces_requirements_file_witness :
  let generated := "/srv/app/requirements.txt" in
  let install :=
    Launcher.Core (EvPip ["/home/u/.local/envy/bin/pip"; "install"; "-r"; generated]) in
  let t :=
    [Launcher.Fs (Launcher.Rmtree Scenario.venv);
     Launcher.Program ["/usr/bin/python3"; "-m"; "venv"; Scenario.venv];
     Launcher.Mkdtemp;
     Launcher.Fs (Launcher.Copy2 Scenario.app "/tmp/tmp_envy");
     Launcher.Program ["pipx"; "run"; "pipreqs"; "/tmp/tmp_envy"; "--force"; "--savepath";
                       "/tmp/tmp_envy/requirements.txt"];
     Launcher.Fs (Launcher.WriteText generated Machines.generated);
     Launcher.Cleanup "/tmp/tmp_envy";
     install;
     Launcher.Fs (Launcher.Unlink generated)] in
  Launcher.recreate_venv (platform := Machines.laptop)
    Scenario.venv (Some Scenario.app) Machines.settled =
    (Return tt,
     {| Machines.files := [Scenario.venv; Scenario.app]; Machines.starts := 0 |}, t) /\
  exists before earlier content temp_dir there,
    t = before ++ earlier ++
        [Launcher.Fs (Launcher.WriteText generated content); Launcher.Cleanup temp_dir] ++
        (if there : bool then [install; Launcher.Fs (Launcher.Unlink generated)] else []).
Proof.
  split; [reflexivity|].
  destruct (recreate_replaces_requirements_file (platform := Machines.laptop)
              Scenario.venv Scenario.app tt Machines.settled
              {| Machines.files := [Scenario.venv; Scenario.app]; Machines.starts := 0 |}
              _ eq_refl)
    as (before & earlier & content & temp_dir & w0 & w' & there & _ & _ & Ht).
  by exists before, earlier, content, temp_dir, there.
Defined.
